(** * The DWS client-mount reconcilers, embedded and verified

    A shallow embedding of
      - [mount-daemon/controllers/clientmount_controller.go]
        ([Module MountDaemon]), and
      - [controllers/clientmount_controller.go] ([Module Dws]),
    together with the parts of the Go standard library the two
    controllers call ([strings.Fields], [strings.Split],
    [strings.TrimSuffix], [filepath.Join], [filepath.Dir]).

    Go code that runs commands, touches the file system or talks to the
    API server is written in a state monad over a [World]: the state of
    the host (an abstract type with its primitive operations, see
    [HostOps]) and the trace of everything the reconciler did to it.  A Go
    [error] result is an [option error]; a run-time panic (index out of
    range, nil dereference) is the [Panicked] outcome. *)

From Stdlib Require Import ZArith Lia Ascii String List Bool DecimalString.
Set Warnings "-register-all".
From stdpp Require Import base list strings gmap.

Open Scope string_scope.
Open Scope list_scope.

(** ** Go strings

    A Go string is a sequence of bytes; so is a Rocq [string]. *)

Module GoStrings.

(** [s[i]] on a string: the byte at index [i], if any. *)
Fixpoint byteAt (s : string) (i : nat) : option ascii :=
  match s, i with
  | EmptyString, _ => None
  | String c _, O => Some c
  | String _ r, S j => byteAt r j
  end.

Definition hasPrefix (s p : string) : bool := String.prefix p s.

Definition hasSuffix (s suf : string) : bool :=
  let n := String.length s in
  let k := String.length suf in
  (k <=? n)%nat && String.eqb (String.substring (n - k) k s) suf.

(** [strings.TrimSuffix]: [s] without the trailing [suf], if it ends in it. *)
Definition TrimSuffix (s suf : string) : string :=
  if hasSuffix s suf
  then String.substring 0 (String.length s - String.length suf) s
  else s.

(** [strings.Split] for a separator of one byte (the controllers only
    split on a newline): the pieces between the separators, always at
    least one. *)
Fixpoint Split (s : string) (sep : ascii) : list string :=
  match s with
  | EmptyString => [EmptyString]
  | String c r =>
      if Ascii.eqb c sep then EmptyString :: Split r sep
      else match Split r sep with
           | [] => [String c EmptyString]
           | x :: xs => String c x :: xs
           end
  end.

(** [strings.Join] with a separator of one byte. *)
Fixpoint Join (elems : list string) (sep : ascii) : string :=
  match elems with
  | [] => EmptyString
  | [x] => x
  | x :: xs => x +:+ String sep (Join xs sep)
  end.

Fixpoint hasBytes (bs : list nat) (s : string) : bool :=
  match bs, s with
  | [], _ => true
  | b :: bs', String c r => Nat.eqb (nat_of_ascii c) b && hasBytes bs' r
  | _ :: _, EmptyString => false
  end.

(** The UTF-8 encodings of the code points for which [unicode.IsSpace]
    holds: U+0009..U+000D, U+0020, U+0085, U+00A0, U+1680,
    U+2000..U+200A, U+2028, U+2029, U+202F, U+205F, U+3000. *)
Definition spaceEncodings : list (list nat) :=
  [ [9]; [10]; [11]; [12]; [13]; [32];
    [194; 133]; [194; 160];
    [225; 154; 128];
    [226; 128; 128]; [226; 128; 129]; [226; 128; 130]; [226; 128; 131];
    [226; 128; 132]; [226; 128; 133]; [226; 128; 134]; [226; 128; 135];
    [226; 128; 136]; [226; 128; 137]; [226; 128; 138];
    [226; 128; 168]; [226; 128; 169]; [226; 128; 175];
    [226; 129; 159];
    [227; 128; 128] ].

(** The width in bytes of the white-space rune [s] starts with, [0] when
    it starts with none.  The lead bytes of the encodings above are never
    continuation bytes, and Go's decoder consumes, after the first byte of
    a rune, continuation bytes only: it therefore decodes a rune at every
    position where one of these encodings starts, so matching the bytes is
    what ranging over the runes of [s] and asking [unicode.IsSpace]
    does. *)
Definition spaceWidth (s : string) : nat :=
  match List.find (fun enc => hasBytes enc s) spaceEncodings with
  | Some enc => List.length enc
  | None => 0
  end.

Definition flush (cur : string) (rest : list string) : list string :=
  match cur with
  | EmptyString => rest
  | _ => cur :: rest
  end.

(** The scan of [strings.Fields]: [skip] bytes of a white-space rune are
    still to be passed over, [cur] is the field being read. *)
Fixpoint fieldsLoop (skip : nat) (cur : string) (s : string) : list string :=
  match s with
  | EmptyString => flush cur []
  | String c r =>
      match skip with
      | S k => fieldsLoop k cur r
      | O =>
          match spaceWidth s with
          | O => fieldsLoop O (cur +:+ String c EmptyString) r
          | S k => flush cur (fieldsLoop k EmptyString r)
          end
      end
  end.

(** [strings.Fields]: the maximal runs of bytes of [s] that hold no
    white space. *)
Definition Fields (s : string) : list string := fieldsLoop 0 EmptyString s.

End GoStrings.

(** ** Go's [path/filepath], on a host whose separator is [/] *)

Module filepath.

Definition Separator : ascii := "/"%char.

(** One path element against the elements kept so far ([kept], last one
    first): empty and [.] elements are dropped; [..] removes the element
    before it, is dropped at the root, and is kept where nothing is left
    to remove in a path that is not rooted. *)
Definition cleanStep (rooted : bool) (kept : list string) (elem : string)
  : list string :=
  if String.eqb elem "" || String.eqb elem "." then kept
  else if String.eqb elem ".." then
    match kept with
    | top :: below =>
        if String.eqb top ".." then elem :: kept else below
    | [] => if rooted then [] else [elem]
    end
  else elem :: kept.

(** [filepath.Clean]: the shortest path naming what [path] names, by the
    lexical rules of the Go documentation. *)
Definition Clean (path : string) : string :=
  match path with
  | EmptyString => "."
  | String c _ =>
      let rooted := Ascii.eqb c Separator in
      let kept := fold_left (cleanStep rooted) (GoStrings.Split path Separator) [] in
      let body := GoStrings.Join (rev kept) Separator in
      if rooted then String Separator body
      else match body with
           | EmptyString => "."
           | _ => body
           end
  end.

(** [filepath.Join]: leading empty elements are ignored, the rest is
    joined with the separator and cleaned; no element left gives the empty
    string. *)
Fixpoint Join (elem : list string) : string :=
  match elem with
  | [] => EmptyString
  | e :: rest =>
      match e with
      | EmptyString => Join rest
      | _ => Clean (GoStrings.Join elem Separator)
      end
  end.

(** The bytes of [path] up to and with its last separator. *)
Fixpoint dirPrefix (path : string) : string :=
  match path with
  | EmptyString => EmptyString
  | String c r =>
      match dirPrefix r with
      | EmptyString =>
          if Ascii.eqb c Separator then String c EmptyString else EmptyString
      | d => String c d
      end
  end.

(** [filepath.Dir]: all but the last element of [path], cleaned. *)
Definition Dir (path : string) : string := Clean (dirPrefix path).

End filepath.

(** ** The API types

    Modelled from the spec: [api/v1alpha1/clientmount_types.go] and
    [api/v1alpha1/resource_error.go] are not among the sources.  The
    records below hold the fields the two controllers read and write, with
    the shapes of section 3 and 6 of the specification; the device payloads
    are pointers in the controller ([configureLVMDevice] takes a
    [*ClientMountDeviceLVM]), hence options here. *)

(** A Go [error] value.  [NewResourceError message cause] builds a
    [ResourceError]; [WithUserMessage] and [WithFatal] set its two other
    fields. *)
Inductive StatusReason : Type := NotFound | Conflict | OtherReason.

Inductive error : Type :=
| HostError (text : string)
| ApiError (reason : StatusReason) (text : string)
| FmtError (text : string)
| ResourceError (message : string) (cause : option error)
                (userMessage : string) (fatal : bool).

Definition NewResourceError (message : string) (cause : option error) : error :=
  ResourceError message cause "" false.

Definition WithUserMessage (e : error) (userMessage : string) : error :=
  match e with
  | ResourceError m c _ f => ResourceError m c userMessage f
  | _ => e
  end.

Definition WithFatal (e : error) : error :=
  match e with
  | ResourceError m c u _ => ResourceError m c u true
  | _ => e
  end.

Definition IsNotFound (e : option error) : bool :=
  match e with Some (ApiError NotFound _) => true | _ => false end.

Definition IsConflict (e : option error) : bool :=
  match e with Some (ApiError Conflict _) => true | _ => false end.

(** [client.IgnoreNotFound] *)
Definition IgnoreNotFound (e : option error) : option error :=
  if IsNotFound e then None else e.

(** [ClientMountState] is a string type; the zero value is the empty
    string. *)
Definition ClientMountState : Type := string.
Definition ClientMountStateMounted : ClientMountState := "mounted".
Definition ClientMountStateUnmounted : ClientMountState := "unmounted".

Definition ClientMountDeviceType : Type := string.
Definition ClientMountDeviceTypeLustre : ClientMountDeviceType := "lustre".
Definition ClientMountDeviceTypeLVM : ClientMountDeviceType := "lvm".

Record ClientMountDeviceLustre : Type := {
  FileSystemName : string;
  MgsAddresses : string
}.

Record ClientMountDeviceLVM : Type := {
  VolumeGroup : string;
  LogicalVolume : string
}.

Record ClientMountDevice : Type := {
  DeviceType : ClientMountDeviceType;   (* Device.Type *)
  Lustre : option ClientMountDeviceLustre;
  LVM : option ClientMountDeviceLVM
}.

Record ClientMountInfo : Type := {
  MountPath : string;
  Options : string;
  Device : ClientMountDevice;
  FsType : string;                      (* ClientMountInfo.Type *)
  TargetType : string
}.

Record ClientMountSpec : Type := {
  DesiredState : ClientMountState;
  Mounts : list ClientMountInfo
}.

Record ClientMountInfoStatus : Type := {
  State : ClientMountState;
  Ready : bool;
  Message : string
}.

(** The zero value [make] fills a fresh status slice with. *)
Definition zeroInfoStatus : ClientMountInfoStatus :=
  {| State := ""; Ready := false; Message := "" |}.

Record ClientMountStatus : Type := {
  StatusMounts : list ClientMountInfoStatus;   (* Status.Mounts *)
  Error : option error                         (* Status.Error *)
}.

(** The resource: the object metadata the controllers use, the spec and
    the status.  [DeletionTimestamp] is [None] for a nil pointer. *)
Record ClientMount : Type := {
  Name : string;
  Namespace : string;
  DeletionTimestamp : option Z;
  Finalizers : list string;
  Spec : ClientMountSpec;
  Status : ClientMountStatus
}.

Record NamespacedName : Type := {
  ReqNamespace : string;
  ReqName : string
}.

(** [ctrl.Result]; [RequeueAfter] is a [time.Duration], in nanoseconds. *)
Record Result : Type := {
  Requeue : bool;
  RequeueAfter : Z
}.

Definition emptyResult : Result := {| Requeue := false; RequeueAfter := 0 |}.
Definition Second : Z := 1000000000.

(** [metav1.Time.IsZero] on the deletion timestamp: nil or the zero time. *)
Definition IsZero (t : option Z) : bool :=
  match t with
  | None => true
  | Some z => Z.eqb z 0
  end.

(** [controllerutil]'s finalizer helpers. *)
Definition ContainsFinalizer (o : ClientMount) (finalizer : string) : bool :=
  existsb (String.eqb finalizer) (Finalizers o).

Definition setFinalizers (o : ClientMount) (f : list string) : ClientMount :=
  {| Name := Name o; Namespace := Namespace o;
     DeletionTimestamp := DeletionTimestamp o; Finalizers := f;
     Spec := Spec o; Status := Status o |}.

Definition AddFinalizer (o : ClientMount) (finalizer : string) : ClientMount :=
  if ContainsFinalizer o finalizer then o
  else setFinalizers o (Finalizers o ++ [finalizer]).

Definition RemoveFinalizer (o : ClientMount) (finalizer : string) : ClientMount :=
  setFinalizers o
    (List.filter (fun f => negb (String.eqb f finalizer)) (Finalizers o)).

Definition setStatus (o : ClientMount) (s : ClientMountStatus) : ClientMount :=
  {| Name := Name o; Namespace := Namespace o;
     DeletionTimestamp := DeletionTimestamp o; Finalizers := Finalizers o;
     Spec := Spec o; Status := s |}.

Definition setStatusMounts (o : ClientMount) (l : list ClientMountInfoStatus)
  : ClientMount :=
  setStatus o {| StatusMounts := l; Error := Error (Status o) |}.

Definition setStatusError (o : ClientMount) (e : option error) : ClientMount :=
  setStatus o {| StatusMounts := StatusMounts (Status o); Error := e |}.

Definition withState (s : ClientMountInfoStatus) (v : ClientMountState) :=
  {| State := v; Ready := Ready s; Message := Message s |}.
Definition withReady (s : ClientMountInfoStatus) (v : bool) :=
  {| State := State s; Ready := v; Message := Message s |}.
Definition withMessage (s : ClientMountInfoStatus) (v : string) :=
  {| State := State s; Ready := Ready s; Message := v |}.

(** ** The world: host, trace, outcomes *)

(** What a log line says: a literal, or the text of an error (the
    [Error()] method of the API's error type is not among the sources). *)
Inductive LogText : Type :=
| Lit (s : string)
| ErrorOf (e : error).

(** Everything a reconciler does that is visible outside of it. *)
Inductive Event : Type :=
| EvExec (c : string)                 (* exec.Command("bash", "-c", c).Output() *)
| EvMkdirAll (path : string)          (* os.MkdirAll(path, 0755) *)
| EvWriteFile (path : string)         (* os.WriteFile(path, []byte(""), 0644) *)
| EvRemove (path : string)            (* os.Remove(path) *)
| EvLogInfo (msg : LogText) (kv : list (string * string))
| EvLogError (err : error) (msg : string) (kv : list (string * string))
| EvGet (key : NamespacedName)        (* r.Get *)
| EvUpdate (o : ClientMount)          (* r.Update *)
| EvStatusUpdate (o : ClientMount).   (* r.Status().Update *)

(** The host the daemon runs on and the API server it talks to: an
    abstract state and the operations the controllers invoke on it.  An
    update hands back the object as the call leaves it (the client writes
    the server's answer into it) and the error. *)
Class HostOps (Host : Type) : Type := {
  execBash : string -> Host -> (string * option error) * Host;
  osMkdirAll : string -> Host -> option error * Host;
  osWriteFile : string -> Host -> option error * Host;
  osRemove : string -> Host -> option error * Host;
  apiGet : NamespacedName -> Host -> (ClientMount + error) * Host;
  apiUpdate : ClientMount -> Host -> (ClientMount * option error) * Host;
  apiStatusUpdate : ClientMount -> Host -> (ClientMount * option error) * Host
}.

Record World (Host : Type) : Type := {
  host : Host;
  trace : list Event
}.
Arguments host {Host} _.
Arguments trace {Host} _.

Inductive PanicReason : Type :=
| IndexOutOfRange (index length : nat)
| NilDereference.

Inductive Outcome (A : Type) : Type :=
| Returned (a : A)
| Panicked (p : PanicReason).
Arguments Returned {A} a.
Arguments Panicked {A} p.

(** Computations over a state [S] that return or panic. *)
Definition M (S A : Type) : Type := S -> Outcome A * S.

Definition ret {S A : Type} (a : A) : M S A := fun s => (Returned a, s).

Definition bind {S A B : Type} (m : M S A) (k : A -> M S B) : M S B :=
  fun s =>
    match m s with
    | (Returned a, s') => k a s'
    | (Panicked p, s') => (Panicked p, s')
    end.

Definition panic {S A : Type} (p : PanicReason) : M S A :=
  fun s => (Panicked p, s).

Declare Scope go_scope.
Delimit Scope go_scope with go.
Notation "x <- m ;; k" := (bind m (fun x => k))
  (at level 100, m at next level, right associativity) : go_scope.
Notation "m ;;; k" := (bind m (fun _ => k))
  (at level 100, right associativity) : go_scope.
Open Scope go_scope.

(** ** World-level primitives *)

Section Primitives.
Context {Host : Type} `{HostOps Host}.

Definition emit (e : Event) : M (World Host) unit :=
  fun w => (Returned tt, {| host := host w; trace := trace w ++ [e] |}).

(** A call into the host: the event is recorded, the host moves on. *)
Definition hostCall {A : Type} (e : Event) (f : Host -> A * Host)
  : M (World Host) A :=
  fun w =>
    let (a, h) := f (host w) in
    (Returned a, {| host := h; trace := trace w ++ [e] |}).

Definition logInfo (msg : LogText) (kv : list (string * string))
  : M (World Host) unit := emit (EvLogInfo msg kv).

Definition logError (err : error) (msg : string) (kv : list (string * string))
  : M (World Host) unit := emit (EvLogError err msg kv).

(** The reconciliation pass works on one resource object through a
    pointer: its state is that object and the world. *)
Record Pass : Type := {
  obj : ClientMount;
  world : World Host
}.

Definition liftWorld {A : Type} (m : M (World Host) A) : M Pass A :=
  fun p =>
    let (o, w) := m (world p) in
    (o, {| obj := obj p; world := w |}).

Definition getObj : M Pass ClientMount := fun p => (Returned (obj p), p).

Definition modifyObj (f : ClientMount -> ClientMount) : M Pass unit :=
  fun p => (Returned tt, {| obj := f (obj p); world := world p |}).

(** [r.Update(ctx, clientMount)] *)
Definition Update : M Pass (option error) :=
  fun p =>
    let '((o, err), h) := apiUpdate (obj p) (host (world p)) in
    (Returned err,
     {| obj := o;
        world := {| host := h;
                    trace := trace (world p) ++ [EvUpdate (obj p)] |} |}).

(** [r.Status().Update(ctx, clientMount)] *)
Definition StatusUpdate : M Pass (option error) :=
  fun p =>
    let '((o, err), h) := apiStatusUpdate (obj p) (host (world p)) in
    (Returned err,
     {| obj := o;
        world := {| host := h;
                    trace := trace (world p) ++ [EvStatusUpdate (obj p)] |} |}).

(** [Status.Mounts[i]] read: an index out of range panics. *)
Definition statusAt (i : nat) : M Pass ClientMountInfoStatus :=
  fun p =>
    match StatusMounts (Status (obj p)) !! i with
    | Some s => (Returned s, p)
    | None =>
        (Panicked (IndexOutOfRange i (length (StatusMounts (Status (obj p))))), p)
    end.

(** [Status.Mounts[i].Ready = v] *)
Definition setReady (i : nat) (v : bool) : M Pass unit :=
  s <- statusAt i ;;
  modifyObj (fun o =>
    setStatusMounts o (<[i := withReady s v]> (StatusMounts (Status o)))).

End Primitives.

Arguments Pass Host : clear implicits.

(** ** [mount-daemon/controllers/clientmount_controller.go] *)

Module MountDaemon.

(** [ClientMountReconciler]: the client, the logger and the scheme are
    the world; [Mock] stays. *)
Record ClientMountReconciler : Type := {
  Mock : bool
}.

Definition finalizerClientMount : string := "dws.cray.hpe.com/client_mount".

Section Controller.
Context {Host : Type} `{HostOps Host}.

Local Abbreviation W := (World Host).

(** [run] runs a command on the host and returns its output. *)
Definition run (r : ClientMountReconciler) (c : string)
  : M W (string * option error) :=
  if Mock r then
    logInfo (Lit "Run") [("Command", c)] ;;;
    ret ("", None)
  else hostCall (EvExec c) (execBash c).

Definition createFile (r : ClientMountReconciler) (path : string)
  : M W (option error) :=
  if Mock r then
    logInfo (Lit "Touch file") [("Path", path)] ;;;
    ret None
  else hostCall (EvWriteFile path) (osWriteFile path).

Definition rmdir (r : ClientMountReconciler) (path : string)
  : M W (option error) :=
  if Mock r then
    logInfo (Lit "rmdir") [("Path", path)] ;;;
    ret None
  else hostCall (EvRemove path) (osRemove path).

Definition mkdir (r : ClientMountReconciler) (path : string)
  : M W (option error) :=
  if Mock r then
    logInfo (Lit "Mkdir") [("Path", path)] ;;;
    ret None
  else hostCall (EvMkdirAll path) (osMkdirAll path).

(** The loop of [checkMount] over the lines of the mount table. *)
Fixpoint checkMountLoop (lines : list string) (mountPath : string)
  : ClientMountState :=
  match lines with
  | [] => ClientMountStateUnmounted
  | line :: rest =>
      let fields := GoStrings.Fields line in
      if (3 <=? length fields)%nat
         && String.eqb (nth 2 fields "") mountPath
      then ClientMountStateMounted
      else checkMountLoop rest mountPath
  end.

(** [checkMount] checks whether a file system is mounted at [mountPath]. *)
Definition checkMount (r : ClientMountReconciler) (mountPath : string)
  : M W (ClientMountState * option error) :=
  res <- run r "mount" ;;
  let (output, err) := res in
  match err with
  | Some e =>
      ret (ClientMountStateUnmounted, Some (NewResourceError output (Some e)))
  | None =>
      ret (checkMountLoop (GoStrings.Split output "010"%char) mountPath, None)
  end.

(** [*lvm]: a nil pointer panics. *)
Definition deref {S A : Type} (p : option A) : M S A :=
  match p with
  | Some a => ret a
  | None => panic NilDereference
  end.

(** [s[i]] on a string: an index out of range panics. *)
Definition indexByte {S : Type} (s : string) (i : nat) : M S ascii :=
  match GoStrings.byteAt s i with
  | Some c => ret c
  | None => panic (IndexOutOfRange i (String.length s))
  end.

Definition accessError (output : string) (err : error) : error :=
  WithFatal (WithUserMessage (NewResourceError output (Some err))
                             "Client could not access storage").

Definition releaseError (output : string) (err : error) : error :=
  WithFatal (WithUserMessage (NewResourceError output (Some err))
                             "Client could not release storage").

(** What [configureLVMDevice] does once it has found the line of the
    volume and read its activation state. *)
Definition changeActivation (r : ClientMountReconciler)
    (lvm : ClientMountDeviceLVM) (activate shared isActive : bool)
  : M W (option error) :=
  if activate && negb isActive then
    started <-
      (if shared then
         res <- run r ("vgchange --lockstart " +:+ VolumeGroup lvm) ;;
         match snd res with
         | Some e => ret (inl (accessError (fst res) e))
         | None => ret (inr "s")
         end
       else ret (inr "")) ;;
    match started with
    | inl e => ret (Some e)
    | inr sharedOption =>
        res <- run r ("vgchange --activate " +:+ sharedOption +:+ "y "
                      +:+ VolumeGroup lvm) ;;
        match snd res with
        | Some e => ret (Some (accessError (fst res) e))
        | None => ret None
        end
    end
  else if negb activate && isActive then
    res <- run r ("vgchange --activate n " +:+ VolumeGroup lvm) ;;
    match snd res with
    | Some e => ret (Some (releaseError (fst res) e))
    | None =>
        if shared then
          res' <- run r ("vgchange --lockstop " +:+ VolumeGroup lvm) ;;
          match snd res' with
          | Some e => ret (Some (releaseError (fst res') e))
          | None => ret None
          end
        else ret None
    end
  else ret None.

Definition notFoundError (lvm : ClientMountDeviceLVM) (output : string) : error :=
  WithFatal (NewResourceError
               ("Could not find VG/LV pair " +:+ VolumeGroup lvm +:+ "/"
                +:+ LogicalVolume lvm +:+ ": " +:+ output) None).

(** The loop of [configureLVMDevice] over the lines of the listing.  The
    first line with three fields or more whose first two fields are the
    logical volume and the volume group decides; no such line is an
    error. *)
Fixpoint lvsLoop (r : ClientMountReconciler) (lvm : option ClientMountDeviceLVM)
    (activate shared : bool) (output : string) (lines : list string)
  : M W (option error) :=
  match lines with
  | [] =>
      l <- deref lvm ;;
      let err := notFoundError l output in
      logInfo (ErrorOf err) [] ;;;
      ret (Some err)
  | line :: rest =>
      let fields := GoStrings.Fields line in
      if (length fields <? 3)%nat then lvsLoop r lvm activate shared output rest
      else
        l <- deref lvm ;;
        if negb (String.eqb (nth 0 fields "") (LogicalVolume l))
        then lvsLoop r lvm activate shared output rest
        else if negb (String.eqb (nth 1 fields "") (VolumeGroup l))
        then lvsLoop r lvm activate shared output rest
        else
          (* Check the 5th letter of the attributes *)
          c <- indexByte (nth 2 fields "") 4 ;;
          changeActivation r l activate shared (Ascii.eqb c "a"%char)
  end.

Definition lvsCommand : string := "lvs --noheadings --separator ' '".

(** [configureLVMDevice] configures the LVM device with the desired
    activate/deactivate option. *)
Definition configureLVMDevice (r : ClientMountReconciler)
    (lvm : option ClientMountDeviceLVM) (activate shared : bool)
  : M W (option error) :=
  res <- run r lvsCommand ;;
  let (output, err) := res in
  match err with
  | Some e => ret (Some e)
  | None =>
      if Mock r then ret None
      else lvsLoop r lvm activate shared output
             (GoStrings.Split (GoStrings.TrimSuffix output (String "010"%char ""))
                              "010"%char)
  end.

(** [getDevice] builds the device string for the mount command. *)
Definition getDevice (r : ClientMountReconciler) (clientMountInfo : ClientMountInfo)
  : M W (string * option error) :=
  let device := Device clientMountInfo in
  if String.eqb (DeviceType device) ClientMountDeviceTypeLustre then
    l <- deref (Lustre device) ;;
    ret (MgsAddresses l +:+ ":/" +:+ FileSystemName l, None)
  else if String.eqb (DeviceType device) ClientMountDeviceTypeLVM then
    err <- configureLVMDevice r (LVM device) true
             (String.eqb (FsType clientMountInfo) "gfs2") ;;
    match err with
    | Some e => ret ("", Some e)
    | None =>
        l <- deref (LVM device) ;;
        ret (filepath.Join ["/dev"; VolumeGroup l; LogicalVolume l], None)
    end
  else ret ("", Some (FmtError "Invalid device type")).

(** The mount file or directory of [mount]; [None] when it is there. *)
Definition createTarget (r : ClientMountReconciler)
    (clientMountInfo : ClientMountInfo) (device : string)
  : M W (option error) :=
  let path := MountPath clientMountInfo in
  if String.eqb (TargetType clientMountInfo) "directory" then
    err <- mkdir r path ;;
    match err with
    | Some e =>
        logError e "Could not create mount directory"
                 [("mount path", path); ("device", device)] ;;;
        ret (Some e)
    | None => ret None
    end
  else if String.eqb (TargetType clientMountInfo) "file" then
    err <- mkdir r (filepath.Dir path) ;;
    match err with
    | Some e =>
        logError e "Could not create mount parent directory"
                 [("mount path", path); ("device", device)] ;;;
        ret (Some e)
    | None =>
        err' <- createFile r path ;;
        match err' with
        | Some e =>
            logError e "Could not create mount file"
                     [("mount path", path); ("device", device)] ;;;
            ret (Some e)
        | None => ret None
        end
    end
  else ret None.

Definition mountCmd (clientMountInfo : ClientMountInfo) (device : string) : string :=
  let cmd := "mount -t " +:+ FsType clientMountInfo +:+ " " +:+ device +:+ " "
             +:+ MountPath clientMountInfo in
  if negb (String.eqb (Options clientMountInfo) "")
  then cmd +:+ " -o " +:+ Options clientMountInfo
  else cmd.

(** [mount] mounts a single mount point. *)
Definition mount (r : ClientMountReconciler) (clientMountInfo : ClientMountInfo)
  : M W (option error) :=
  let path := MountPath clientMountInfo in
  res <- checkMount r path ;;
  let (state, err) := res in
  match err with
  | Some e => ret (Some e)
  | None =>
      if String.eqb state ClientMountStateMounted then
        logInfo (Lit "Already mounted") [] ;;;
        ret None
      else
        res' <- getDevice r clientMountInfo ;;
        let (device, err') := res' in
        match err' with
        | Some e => ret (Some e)
        | None =>
            err'' <- createTarget r clientMountInfo device ;;
            match err'' with
            | Some e => ret (Some e)
            | None =>
                res'' <- run r (mountCmd clientMountInfo device) ;;
                let (output, err''') := res'' in
                match err''' with
                | Some e =>
                    logInfo (Lit "Could not mount file system")
                            [("mount path", path); ("device", device);
                             ("Error output", output)] ;;;
                    ret (Some e)
                | None =>
                    logInfo (Lit "Mounted file system")
                            [("Mount path", path); ("device", device)] ;;;
                    ret None
                end
            end
        end
  end.

(** [unmount] unmounts a single mount point. *)
Definition unmount (r : ClientMountReconciler) (clientMountInfo : ClientMountInfo)
  : M W (option error) :=
  let path := MountPath clientMountInfo in
  res <- checkMount r path ;;
  let (state, err) := res in
  match err with
  | Some e => ret (Some e)
  | None =>
      unmounted <-
        (if String.eqb state ClientMountStateMounted then
           res' <- run r ("umount " +:+ path) ;;
           let (output, err') := res' in
           match err' with
           | Some e =>
               logInfo (Lit "Could not unmount file system")
                       [("mount path", path); ("Error output", output)] ;;;
               ret (Some e)
           | None => ret None
           end
         else ret None) ;;
      match unmounted with
      | Some e => ret (Some e)
      | None =>
          deactivated <-
            (if String.eqb (DeviceType (Device clientMountInfo))
                           ClientMountDeviceTypeLVM then
               err' <- configureLVMDevice r (LVM (Device clientMountInfo)) false
                         (String.eqb (FsType clientMountInfo) "gfs2") ;;
               match err' with
               | Some e =>
                   logError e "Could not deactivate LVM volume"
                            [("mount path", path)] ;;;
                   ret (Some e)
               | None => ret None
               end
             else ret None) ;;
          match deactivated with
          | Some e => ret (Some e)
          | None =>
              (* It's not a big deal if this fails: log, don't return it *)
              err' <- rmdir r path ;;
              match err' with
              | Some e =>
                  logError e "Unable to remove mount directory" [("Path", path)]
              | None => ret tt
              end ;;;
              logInfo (Lit "Unmounted file system") [("mount path", path)] ;;;
              ret None
          end
      end
  end.

(** What both aggregations do with the result of entry [i]. *)
Definition firstOf (firstError err : option error) : option error :=
  match err with
  | Some e => match firstError with None => Some e | Some _ => firstError end
  | None => firstError
  end.

(** The loop of [mountAll]: [i] is the index of the head of [mounts]. *)
Fixpoint mountAllLoop (r : ClientMountReconciler) (i : nat)
    (mounts : list ClientMountInfo) (firstError : option error)
  : M (Pass Host) (option error) :=
  match mounts with
  | [] => ret firstError
  | m :: rest =>
      err <- liftWorld (mount r m) ;;
      match err with
      | Some _ => setReady i false
      | None => setReady i true
      end ;;;
      mountAllLoop r (S i) rest (firstOf firstError err)
  end.

(** [mountAll] mounts all the file systems listed in [Spec.Mounts]. *)
Definition mountAll (r : ClientMountReconciler) : M (Pass Host) (option error) :=
  clientMount <- getObj ;;
  mountAllLoop r 0 (Mounts (Spec clientMount)) None.

(** The loop of [unmountAll]. *)
Fixpoint unmountAllLoop (r : ClientMountReconciler) (i : nat)
    (mounts : list ClientMountInfo) (firstError : option error)
  : M (Pass Host) (option error) :=
  match mounts with
  | [] => ret firstError
  | m :: rest =>
      err <- liftWorld (unmount r m) ;;
      match err with
      | Some _ => setReady i false
      | None => setReady i true
      end ;;;
      unmountAllLoop r (S i) rest (firstOf firstError err)
  end.

(** [unmountAll] unmounts all the file systems listed in [Spec.Mounts]. *)
Definition unmountAll (r : ClientMountReconciler) : M (Pass Host) (option error) :=
  clientMount <- getObj ;;
  unmountAllLoop r 0 (Mounts (Spec clientMount)) None.

(** [make([]ClientMountInfoStatus, len(Spec.Mounts))] when the lengths
    differ. *)
Definition createStatus (o : ClientMount) : ClientMount :=
  if negb (length (StatusMounts (Status o)) =? length (Mounts (Spec o)))%nat
  then setStatusMounts o (repeat zeroInfoStatus (length (Mounts (Spec o))))
  else o.

(** The loop that initializes the status section. *)
Definition resetStatus (o : ClientMount) : ClientMount :=
  setStatusMounts o
    (map (fun s => withReady (withState s (DesiredState (Spec o))) false)
         (StatusMounts (Status o))).

Definition requeueAfter10 : Result :=
  {| Requeue := false; RequeueAfter := Second * 10 |}.

(** The body of [Reconcile], from the deletion check on, on the object
    [r.Get] fetched. *)
Definition reconcileBody (r : ClientMountReconciler)
  : M (Pass Host) (Result * option error) :=
  clientMount <- getObj ;;
  (* Handle cleanup if the resource is being deleted *)
  if negb (IsZero (DeletionTimestamp clientMount)) then
    if negb (ContainsFinalizer clientMount finalizerClientMount) then
      ret (emptyResult, None)
    else
      liftWorld (logInfo (Lit "Unmounting all file systems due to resource deletion") []) ;;;
      err <- unmountAll r ;;
      match err with
      | Some e => ret (emptyResult, Some e)
      | None =>
          modifyObj (fun o => RemoveFinalizer o finalizerClientMount) ;;;
          err' <- Update ;;
          match err' with
          | Some e => ret (emptyResult, Some e)
          | None => ret (emptyResult, None)
          end
      end
  else
    (* Create the status section if it doesn't exist yet *)
    modifyObj createStatus ;;;
    (* Initialize the status section if the desired state doesn't match *)
    first <- statusAt 0 ;;
    if negb (String.eqb (State first) (DesiredState (Spec clientMount))) then
      modifyObj resetStatus ;;;
      ret (emptyResult, None)
    else if negb (ContainsFinalizer clientMount finalizerClientMount) then
      modifyObj (fun o => AddFinalizer o finalizerClientMount) ;;;
      err <- Update ;;
      match err with
      | Some _ => ret ({| Requeue := true; RequeueAfter := 0 |}, None)
      | None => ret (emptyResult, None)
      end
    else
      modifyObj (fun o => setStatusError o None) ;;;
      if String.eqb (DesiredState (Spec clientMount)) ClientMountStateMounted then
        err <- mountAll r ;;
        match err with
        | Some e =>
            let resourceError := NewResourceError "Mount failed" (Some e) in
            liftWorld (logInfo (ErrorOf resourceError) []) ;;;
            modifyObj (fun o => setStatusError o (Some resourceError)) ;;;
            ret (requeueAfter10, None)
        | None => ret (emptyResult, None)
        end
      else if String.eqb (DesiredState (Spec clientMount)) ClientMountStateUnmounted then
        err <- unmountAll r ;;
        match err with
        | Some e =>
            let resourceError := NewResourceError "Unmount failed" (Some e) in
            liftWorld (logInfo (ErrorOf resourceError) []) ;;;
            modifyObj (fun o => setStatusError o (Some resourceError)) ;;;
            ret (requeueAfter10, None)
        | None => ret (emptyResult, None)
        end
      else ret (emptyResult, None).

(** The status updater of [utils/updater] is not among the sources: its
    close is a parameter.  It gets the status the updater was created
    with and the error of the pass, works on the object, and returns the
    error [Reconcile] returns. *)
Variable CloseWithStatusUpdate :
  ClientMountStatus -> option error -> M (Pass Host) (option error).

(** [Reconcile]: fetch the object, run the body, and, deferred, close the
    status updater (on a panic too: the named result [err] is nil there,
    and the panic goes on after the deferred call). *)
Definition Reconcile (r : ClientMountReconciler) (req : NamespacedName)
  : M W (Result * option error) :=
  got <- hostCall (EvGet req) (apiGet req) ;;
  match got with
  | inr e => ret (emptyResult, IgnoreNotFound (Some e))
  | inl clientMount =>
      fun w =>
        let existing := Status clientMount in
        match reconcileBody r {| obj := clientMount; world := w |} with
        | (Returned (res, err), p) =>
            match CloseWithStatusUpdate existing err p with
            | (Returned err', p') => (Returned (res, err'), world p')
            | (Panicked q, p') => (Panicked q, world p')
            end
        | (Panicked q, p) =>
            match CloseWithStatusUpdate existing None p with
            | (Returned _, p') => (Panicked q, world p')
            | (Panicked q', p') => (Panicked q', world p')
            end
        end
  end.

End Controller.

End MountDaemon.

(** ** [controllers/clientmount_controller.go] *)

Module Dws.

Definition finalizerClientMount : string := "dws.cray.hpe.com/client_mount".

Fixpoint error_eqb (a b : error) {struct a} : bool :=
  match a, b with
  | HostError s, HostError t => String.eqb s t
  | ApiError x s, ApiError y t =>
      match x, y with
      | NotFound, NotFound | Conflict, Conflict | OtherReason, OtherReason =>
          String.eqb s t
      | _, _ => false
      end
  | FmtError s, FmtError t => String.eqb s t
  | ResourceError m c u f, ResourceError m' c' u' f' =>
      String.eqb m m'
      && match c, c' with
         | Some x, Some y => error_eqb x y
         | None, None => true
         | _, _ => false
         end
      && String.eqb u u' && Bool.eqb f f'
  | _, _ => false
  end.

Definition infoStatus_eqb (a b : ClientMountInfoStatus) : bool :=
  String.eqb (State a) (State b) && Bool.eqb (Ready a) (Ready b)
  && String.eqb (Message a) (Message b).

Fixpoint list_eqb {A : Type} (eqb : A -> A -> bool) (l k : list A) : bool :=
  match l, k with
  | [], [] => true
  | x :: l', y :: k' => eqb x y && list_eqb eqb l' k'
  | _, _ => false
  end.

(** [reflect.DeepEqual] on two statuses (a nil slice and an empty one are
    the same list here). *)
Definition DeepEqual (a b : ClientMountStatus) : bool :=
  list_eqb infoStatus_eqb (StatusMounts a) (StatusMounts b)
  && match Error a, Error b with
     | Some x, Some y => error_eqb x y
     | None, None => true
     | _, _ => false
     end.

Section Controller.
Context {Host : Type} `{HostOps Host}.

Local Abbreviation W := (World Host).

(** [clientMountStatusUpdater.close]: write the status if it changed; a
    conflict is dropped. *)
Definition close (existingStatus : ClientMountStatus) : M (Pass Host) (option error) :=
  clientMount <- getObj ;;
  if negb (DeepEqual (Status clientMount) existingStatus) then
    err <- StatusUpdate ;;
    if negb (IsConflict err) then ret err else ret None
  else ret None.

Definition createStatus (o : ClientMount) : ClientMount :=
  if negb (length (StatusMounts (Status o)) =? length (Mounts (Spec o)))%nat
  then setStatusMounts o (repeat zeroInfoStatus (length (Mounts (Spec o))))
  else o.

(** The loop that initializes the status section. *)
Definition resetStatus (o : ClientMount) : ClientMount :=
  setStatusMounts o
    (map (fun s =>
            withMessage (withReady (withState s (DesiredState (Spec o))) false) "")
         (StatusMounts (Status o))).

(** [Status.Mounts[i].Message = ""; Status.Mounts[i].Ready = true] *)
Definition setReadyMessage (i : nat) : M (Pass Host) unit :=
  s <- statusAt i ;;
  modifyObj (fun o =>
    setStatusMounts o
      (<[i := withReady (withMessage s "") true]> (StatusMounts (Status o)))).

(** The last loop of [Reconcile], over the indices of [Spec.Mounts]. *)
Fixpoint readyLoop (i : nat) (mounts : list ClientMountInfo) : M (Pass Host) unit :=
  match mounts with
  | [] => ret tt
  | _ :: rest => setReadyMessage i ;;; readyLoop (S i) rest
  end.

Definition reconcileBody : M (Pass Host) (Result * option error) :=
  clientMount <- getObj ;;
  if negb (IsZero (DeletionTimestamp clientMount)) then
    if negb (ContainsFinalizer clientMount finalizerClientMount) then
      ret (emptyResult, None)
    else
      modifyObj (fun o => RemoveFinalizer o finalizerClientMount) ;;;
      err <- Update ;;
      match err with
      | Some e => ret (emptyResult, Some e)
      | None => ret (emptyResult, None)
      end
  else
    modifyObj createStatus ;;;
    first <- statusAt 0 ;;
    if negb (String.eqb (State first) (DesiredState (Spec clientMount))) then
      modifyObj resetStatus ;;;
      ret (emptyResult, None)
    else if negb (ContainsFinalizer clientMount finalizerClientMount) then
      modifyObj (fun o => AddFinalizer o finalizerClientMount) ;;;
      err <- Update ;;
      match err with
      | Some _ => ret ({| Requeue := true; RequeueAfter := 0 |}, None)
      | None => ret (emptyResult, None)
      end
    else
      o <- getObj ;;
      readyLoop 0 (Mounts (Spec o)) ;;;
      ret (emptyResult, None).

(** [Reconcile]: the deferred function closes the updater when the pass
    returned no error. *)
Definition Reconcile (req : NamespacedName) : M W (Result * option error) :=
  got <- hostCall (EvGet req) (apiGet req) ;;
  match got with
  | inr e => ret (emptyResult, IgnoreNotFound (Some e))
  | inl clientMount =>
      fun w =>
        let existingStatus := Status clientMount in
        match reconcileBody {| obj := clientMount; world := w |} with
        | (Returned (res, err), p) =>
            match err with
            | None =>
                match close existingStatus p with
                | (Returned err', p') => (Returned (res, err'), world p')
                | (Panicked q, p') => (Panicked q, world p')
                end
            | Some _ => (Returned (res, err), world p)
            end
        | (Panicked q, p) =>
            match close existingStatus p with
            | (Returned _, p') => (Panicked q, world p')
            | (Panicked q', p') => (Panicked q', world p')
            end
        end
  end.

End Controller.

End Dws.

(** ** Vocabulary of the specification *)

Section Vocabulary.
Context {Host : Type} `{HostOps Host}.

Import MountDaemon.

(** The event [run] leaves for a command: the execution, or the log line
    of mock mode. *)
Definition runEvent (r : ClientMountReconciler) (c : string) : Event :=
  if Mock r then EvLogInfo (Lit "Run") [("Command", c)] else EvExec c.

(** The command an event passed to [run], if it is one: an execution, or
    the log line of mock mode. *)
Definition commandOf (e : Event) : option string :=
  match e with
  | EvExec c => Some c
  | EvLogInfo (Lit m) [(k, c)] =>
      if String.eqb m "Run" && String.eqb k "Command" then Some c else None
  | _ => None
  end.

(** The commands a stretch of trace passed to [run], in order. *)
Definition commands (t : list Event) : list string := omap commandOf t.

(** The events of a stretch of trace that are not log lines: what was
    done to the host and the API server. *)
Definition isLog (e : Event) : bool :=
  match e with
  | EvLogInfo _ _ | EvLogError _ _ _ => true
  | _ => false
  end.

Definition effects (t : list Event) : list Event :=
  List.filter (fun e => negb (isLog e)) t.

(** Some line of the mount table, split into fields at white space, has
    three fields or more and [mountPath] as its third. *)
Definition listedAt (output mountPath : string) : Prop :=
  exists line,
    In line (GoStrings.Split output "010"%char)
    /\ (3 <= length (GoStrings.Fields line))%nat
    /\ GoStrings.Fields line !! 2%nat = Some mountPath.

(** The lines of the volume listing. *)
Definition lvsLines (output : string) : list string :=
  GoStrings.Split (GoStrings.TrimSuffix output (String "010"%char "")) "010"%char.

(** The fields of the line of the listing that is matched for [lvm]: the
    first one with three fields or more that names its logical volume
    and its volume group. *)
Fixpoint matchedLine (lvm : ClientMountDeviceLVM) (lines : list string)
  : option (list string) :=
  match lines with
  | [] => None
  | line :: rest =>
      let fields := GoStrings.Fields line in
      if (3 <=? length fields)%nat
         && String.eqb (nth 0 fields "") (LogicalVolume lvm)
         && String.eqb (nth 1 fields "") (VolumeGroup lvm)
      then Some fields
      else matchedLine lvm rest
  end.

(** The attributes token of the matched line. *)
Definition matchedAttr (lvm : ClientMountDeviceLVM) (output : string)
  : option string :=
  match matchedLine lvm (lvsLines output) with
  | Some fields => fields !! 2%nat
  | None => None
  end.

(** The attributes say the volume is active. *)
Definition showsActive (attr : string) : bool :=
  match GoStrings.byteAt attr 4 with
  | Some c => Ascii.eqb c "a"%char
  | None => false
  end.

Definition lockStart (lvm : ClientMountDeviceLVM) : string :=
  "vgchange --lockstart " +:+ VolumeGroup lvm.
Definition lockStop (lvm : ClientMountDeviceLVM) : string :=
  "vgchange --lockstop " +:+ VolumeGroup lvm.
Definition activateCmd (shared : bool) (lvm : ClientMountDeviceLVM) : string :=
  "vgchange --activate " +:+ (if shared then "s" else "") +:+ "y "
  +:+ VolumeGroup lvm.
Definition deactivateCmd (lvm : ClientMountDeviceLVM) : string :=
  "vgchange --activate n " +:+ VolumeGroup lvm.

(** The sequences of commands [configureLVMDevice] may pass to [run]:
    the listing, then nothing, or for a shared volume the lock start and
    then the activation, or the deactivation and then the lock stop, each
    sequence possibly cut short after a command that failed; for a volume
    that is not shared the activation or the deactivation alone. *)
Definition admissible (lvm : option ClientMountDeviceLVM)
    (activate shared : bool) (cs : list string) : Prop :=
  cs = [lvsCommand]
  \/ exists l, lvm = Some l /\
       ((activate = true /\ shared = true
         /\ (cs = [lvsCommand; lockStart l]
             \/ cs = [lvsCommand; lockStart l; activateCmd true l]))
        \/ (activate = true /\ shared = false
            /\ cs = [lvsCommand; activateCmd false l])
        \/ (activate = false /\ shared = true
            /\ (cs = [lvsCommand; deactivateCmd l]
                \/ cs = [lvsCommand; deactivateCmd l; lockStop l]))
        \/ (activate = false /\ shared = false
            /\ cs = [lvsCommand; deactivateCmd l])).

(** A name that is one clean path element: not empty, not [.] or [..],
    without a separator. *)
Fixpoint hasByte (c : ascii) (s : string) : bool :=
  match s with
  | EmptyString => false
  | String a r => Ascii.eqb a c || hasByte c r
  end.

Definition plainName (s : string) : bool :=
  negb (String.eqb s "") && negb (String.eqb s ".")
  && negb (String.eqb s "..") && negb (hasByte filepath.Separator s).

(** The two per-entry operations and their aggregations. *)
Inductive Operation : Type := OpMount | OpUnmount.

Definition entryOp (r : ClientMountReconciler) (k : Operation)
  : ClientMountInfo -> M (World Host) (option error) :=
  match k with
  | OpMount => mount r
  | OpUnmount => unmount r
  end.

Definition passOp (r : ClientMountReconciler) (k : Operation)
  : M (Pass Host) (option error) :=
  match k with
  | OpMount => mountAll r
  | OpUnmount => unmountAll r
  end.

(** The operation run on every entry in order, each from the world the
    one before left: the results and the last world, if each returned. *)
Fixpoint runEntries (op : ClientMountInfo -> M (World Host) (option error))
    (mounts : list ClientMountInfo) (w : World Host)
  : option (list (option error) * World Host) :=
  match mounts with
  | [] => Some ([], w)
  | m :: rest =>
      match op m w with
      | (Returned e, w1) =>
          match runEntries op rest w1 with
          | Some (es, w2) => Some (e :: es, w2)
          | None => None
          end
      | (Panicked _, _) => None
      end
  end.

(** The error of the first entry that failed. *)
Fixpoint firstFailure (errs : list (option error)) : option error :=
  match errs with
  | [] => None
  | Some e :: _ => Some e
  | None :: rest => firstFailure rest
  end.

(** The same, when the entries before already gave [first]. *)
Definition firstFrom (first : option error) (errs : list (option error))
  : option error :=
  match first with
  | Some e => Some e
  | None => firstFailure errs
  end.

Definition succeeded (e : option error) : bool :=
  match e with None => true | Some _ => false end.

(** The status list after the results [errs] of the entries from index
    [i] on were recorded. *)
Fixpoint markReady (i : nat) (errs : list (option error))
    (st : list ClientMountInfoStatus) : list ClientMountInfoStatus :=
  match errs with
  | [] => st
  | e :: es =>
      match st !! i with
      | Some s => markReady (S i) es (<[i := withReady s (succeeded e)]> st)
      | None => st
      end
  end.

(** A computation that, if it panics, does not do so on a read at index 0
    of an empty list. *)
Definition avoidsRead0 {S A : Type} (m : M S A) : Prop :=
  forall s q s', m s = (Panicked q, s') -> q <> IndexOutOfRange 0 0.

(** The state a pass compares with the desired one: that of the first
    status entry once the status list has the length of the spec's. *)
Definition recordedState (o : ClientMount) : option ClientMountState :=
  match StatusMounts (Status (createStatus o)) with
  | first :: _ => Some (State first)
  | [] => None
  end.

End Vocabulary.

(** ** A host to run the reconcilers on

    Commands print what [outputs] lists for them; the commands and paths
    in [failing] fail; the API server holds [stored]. *)

Module Sim.

Record Host : Type := {
  outputs : list (string * string);
  failing : list string;
  stored : option ClientMount
}.

Definition outputOf (c : string) (h : Host) : string :=
  match List.find (fun p => String.eqb (fst p) c) (outputs h) with
  | Some p => snd p
  | None => ""
  end.

Definition failure (x : string) (h : Host) : option error :=
  if existsb (String.eqb x) (failing h)
  then Some (HostError ("failed: " +:+ x))
  else None.

#[export] Instance ops : HostOps Host := {|
  execBash c h := ((outputOf c h, failure c h), h);
  osMkdirAll p h := (failure p h, h);
  osWriteFile p h := (failure p h, h);
  osRemove p h := (failure p h, h);
  apiGet k h :=
    (match stored h with
     | Some o => inl o
     | None => inr (ApiError NotFound "not found")
     end, h);
  apiUpdate o h := ((o, None), h);
  apiStatusUpdate o h := ((o, None), h)
|}.

Definition start (h : Host) : World Host := {| host := h; trace := [] |}.

Definition real : MountDaemon.ClientMountReconciler := {| MountDaemon.Mock := false |}.

Definition lvmDevice (vg lv : string) : ClientMountDevice :=
  {| DeviceType := ClientMountDeviceTypeLVM; Lustre := None;
     LVM := Some {| VolumeGroup := vg; LogicalVolume := lv |} |}.

Definition lustreDevice (mgs fs : string) : ClientMountDevice :=
  {| DeviceType := ClientMountDeviceTypeLustre;
     Lustre := Some {| FileSystemName := fs; MgsAddresses := mgs |};
     LVM := None |}.

Definition entry (path fs : string) (d : ClientMountDevice) : ClientMountInfo :=
  {| MountPath := path; Options := ""; Device := d; FsType := fs;
     TargetType := "directory" |}.

Definition resource (deleted : bool) (finalizers : list string)
    (desired : ClientMountState) (mounts : list ClientMountInfo)
    (status : list ClientMountInfoStatus) : ClientMount :=
  {| Name := "cm"; Namespace := "default";
     DeletionTimestamp := if deleted then Some 1%Z else None;
     Finalizers := finalizers;
     Spec := {| DesiredState := desired; Mounts := mounts |};
     Status := {| StatusMounts := status; Error := None |} |}.

(** Scenarios. *)

Definition nl : string := String "010"%char "".

(** A host with [/mnt/a] mounted, the volume [vg0/lv0] active, and a
    mount directory that cannot be removed. *)
Definition hostMounted : Host :=
  {| outputs :=
       [("mount", "/dev/sda1 on / type ext4 (rw)" +:+ nl
                  +:+ "/dev/vg0/lv0 on /mnt/a type gfs2 (rw)" +:+ nl);
        (MountDaemon.lvsCommand, "  lv0 vg0 -wi-a----- 46.59g" +:+ nl)];
     failing := ["/mnt/a"];
     stored := None |}.

(** A host with nothing mounted and the volume [vg0/lv0] inactive. *)
Definition hostIdle : Host :=
  {| outputs :=
       [("mount", "/dev/sda1 on / type ext4 (rw)" +:+ nl);
        (MountDaemon.lvsCommand, "  lv0 vg0 -wi------- 46.59g" +:+ nl)];
     failing := [];
     stored := None |}.

(** A host whose listing has an attributes token of three bytes. *)
Definition hostShortAttr : Host :=
  {| outputs := [(MountDaemon.lvsCommand, "lv0 vg0 -wi" +:+ nl)];
     failing := [];
     stored := None |}.

(** A host whose listing has a volume group named [..]. *)
Definition hostDotDot : Host :=
  {| outputs := [(MountDaemon.lvsCommand, "lv0 .. -wi-a----- 46.59g" +:+ nl)];
     failing := [];
     stored := None |}.

Definition lv0 : ClientMountDeviceLVM :=
  {| VolumeGroup := "vg0"; LogicalVolume := "lv0" |}.

Definition onVolume (path fs : string) : ClientMountInfo :=
  entry path fs (lvmDevice "vg0" "lv0").

Definition onLustre (path : string) : ClientMountInfo :=
  entry path "lustre" (lustreDevice "10.0.0.1@tcp" "scratch").

Definition onUnknown (path : string) : ClientMountInfo :=
  entry path "nfs" {| DeviceType := "nfs"; Lustre := None; LVM := None |}.

Definition recorded (state : ClientMountState) (ready : bool) (message : string)
  : ClientMountInfoStatus :=
  {| State := state; Ready := ready; Message := message |}.

(** Three entries, the second with a device that cannot be resolved. *)
Definition threeMounts : ClientMount :=
  resource false [MountDaemon.finalizerClientMount] ClientMountStateMounted
    [onLustre "/mnt/a"; onUnknown "/mnt/b"; onLustre "/mnt/c"]
    [recorded ClientMountStateMounted false "";
     recorded ClientMountStateMounted true "";
     recorded ClientMountStateMounted false ""].

(** A resource whose desired state changed from mounted to unmounted. *)
Definition changed : ClientMount :=
  resource false [MountDaemon.finalizerClientMount] ClientMountStateUnmounted
    [onLustre "/mnt/a"; onLustre "/mnt/b"]
    [recorded ClientMountStateMounted true "old";
     recorded ClientMountStateMounted true "old"].


(** A resource without mounts. *)
Definition noMounts : ClientMount :=
  resource false [] ClientMountStateMounted [] [].

Definition request : NamespacedName :=
  {| ReqNamespace := "default"; ReqName := "cm" |}.

Definition holding (o : ClientMount) : Host :=
  {| outputs := []; failing := []; stored := Some o |}.

End Sim.

(** ** [pkg/utils/dwdparse/dwdparse.go]

    The parser of [#DW] directives.  The rule types of the API
    ([DWDirectiveRuleSpec], [DWDirectiveRuleDef]) are not among the
    sources: the records hold the fields the parser reads.  Go's [int] is
    taken as 64 bits wide.  A map is a [gmap]; the order in which Go ranges
    over a map is not specified, so the loop of [ValidateArgs] runs over
    the entries in an order given to it. *)

Module dwdparse.

(** The errors of the package: those it makes with [errors.New], and those
    the API client returns. *)
Inductive GoError : Type :=
  | errorsNew (text : string)
  | clientError (text : string).

Record DWDirectiveRuleDef : Type := {
  Key : string;
  RuleType : string;                    (* DWDirectiveRuleDef.Type *)
  Max : Z;
  Min : Z;
  Pattern : string
}.

Record DWDirectiveRuleSpec : Type := {
  Command : string;
  RuleDefs : list DWDirectiveRuleDef
}.

Definition validCommands : string :=
  "jobdw persistentdw stage_in stage-in stage_out stage-out create_persistent destroy_persistent".

Definition argsWithPath : string := "source destination".

(** [strings.Contains]: [substr] occurs in [s]. *)
Fixpoint Contains (s substr : string) : bool :=
  String.prefix substr s
  || match s with
     | EmptyString => false
     | String _ r => Contains r substr
     end.

(** [strings.SplitN(s, sep, 2)] for a separator of one byte: [s] cut at
    the first separator, or [s] alone. *)
Fixpoint SplitN2 (s : string) (sep : ascii) : list string :=
  match s with
  | EmptyString => [EmptyString]
  | String c r =>
      if Ascii.eqb c sep then [EmptyString; r]
      else match SplitN2 r sep with
           | x :: xs => String c x :: xs
           | [] => [String c EmptyString]
           end
  end.

(** The inner loop of [BuildRulesMap]. *)
Fixpoint insertDefs (defs : list DWDirectiveRuleDef)
    (rulesMap : gmap string DWDirectiveRuleDef) : gmap string DWDirectiveRuleDef :=
  match defs with
  | [] => rulesMap
  | rd :: rest => insertDefs rest (<[Key rd := rd]> rulesMap)
  end.

(** The outer loop of [BuildRulesMap]. *)
Fixpoint rulesLoop (rules : list DWDirectiveRuleSpec) (cmd : string)
    (rulesMap : gmap string DWDirectiveRuleDef) : gmap string DWDirectiveRuleDef :=
  match rules with
  | [] => rulesMap
  | r :: rest =>
      rulesLoop rest cmd
        (if String.eqb cmd (Command r) then insertDefs (RuleDefs r) rulesMap
         else rulesMap)
  end.

(** [BuildRulesMap] builds a map of the argument rules for the command. *)
Definition BuildRulesMap (rules : list DWDirectiveRuleSpec) (cmd : string)
  : gmap string DWDirectiveRuleDef + GoError :=
  let rulesMap := rulesLoop rules cmd ∅ in
  if (size rulesMap =? 0)%nat
  then inr (errorsNew ("Unsupported #DW command - " +:+ cmd))
  else inl rulesMap.

(** The loop of [BuildArgsMap] over the arguments, from the third field
    on. *)
Fixpoint argsLoop (dwdArgs : list string) (argsMap : gmap string string)
  : gmap string string + GoError :=
  match dwdArgs with
  | [] => inl argsMap
  | arg :: rest =>
      let keyValue := GoStrings.Split arg "="%char in
      if (length keyValue =? 1)%nat then
        argsLoop rest (<[nth 0 keyValue "" := "true"]> argsMap)
      else if (length keyValue =? 2)%nat then
        argsLoop rest (<[nth 0 keyValue "" := nth 1 keyValue ""]> argsMap)
      else if Contains argsWithPath (nth 0 keyValue "") then
        let keyValue := SplitN2 arg "="%char in
        argsLoop rest (<[nth 0 keyValue "" := nth 1 keyValue ""]> argsMap)
      else inr (errorsNew ("Malformed keyword[=value]: " +:+ arg))
  end.

(** [BuildArgsMap] builds a map of the arguments of a directive:
    [args["key"] = value].  The first two fields are read without a check
    of the number of fields. *)
Definition BuildArgsMap (dwd : string) : Outcome (gmap string string + GoError) :=
  let dwdArgs := GoStrings.Fields dwd in
  match dwdArgs !! 0%nat with
  | None => Panicked (IndexOutOfRange 0 (length dwdArgs))
  | Some first =>
      if String.eqb first "#DW" then
        match dwdArgs !! 1%nat with
        | None => Panicked (IndexOutOfRange 1 (length dwdArgs))
        | Some cmd =>
            if Contains validCommands cmd then
              Returned (argsLoop (drop 2 dwdArgs) (<["command" := cmd]> ∅))
            else Returned (inr (errorsNew ("Unsupported #DW command " +:+ cmd)))
        end
      else Returned (inr (errorsNew "Missing #DW in directive"))
  end.

(** [strconv.Atoi]: an optional sign and decimal digits, within the range
    of [int]. *)
Definition digitOf (c : ascii) : option Z :=
  let n := nat_of_ascii c in
  if (48 <=? n)%nat && (n <=? 57)%nat then Some (Z.of_nat (n - 48)) else None.

Fixpoint digitsValue (s : string) (acc : Z) : option Z :=
  match s with
  | EmptyString => Some acc
  | String c r =>
      match digitOf c with
      | Some d => digitsValue r (acc * 10 + d)
      | None => None
      end
  end.

Definition Atoi (s : string) : option Z :=
  match s with
  | EmptyString => None
  | String c r =>
      let neg := Ascii.eqb c "-"%char in
      let body := if neg || Ascii.eqb c "+"%char then r else s in
      match body with
      | EmptyString => None
      | _ =>
          match digitsValue body 0 with
          | Some n =>
              let i := if neg then (- n)%Z else n in
              if (- 2 ^ 63 <=? i)%Z && (i <=? 2 ^ 63 - 1)%Z then Some i else None
          | None => None
          end
      end
  end.

(** [strconv.Itoa] *)
Definition Itoa (i : Z) : string :=
  DecimalString.NilZero.string_of_int (Z.to_int i).

Section Validate.

(** [regexp.MatchString pattern s]: whether [s] matches, and the error of
    a pattern that does not compile. *)
Variable MatchString : string -> string -> bool * option GoError.

(** The check of one argument against its rule, the body of the [switch]
    of [ValidateArgs]. *)
Definition checkArg (rule : DWDirectiveRuleDef) (k v : string) : option GoError :=
  if String.eqb (RuleType rule) "integer" then
    match Atoi v with
    | None => Some (errorsNew ("Invalid integer argument: " +:+ k +:+ "=" +:+ v))
    | Some i =>
        if negb (Max rule =? 0)%Z && (Max rule <? i)%Z then
          Some (errorsNew ("Specified integer exceeds maximum "
                           +:+ Itoa (Max rule) +:+ ": " +:+ k +:+ "=" +:+ v))
        else if negb (Min rule =? 0)%Z && (i <? Min rule)%Z then
          Some (errorsNew ("Specified integer smaller than minimum "
                           +:+ Itoa (Min rule) +:+ ": " +:+ k +:+ "=" +:+ v))
        else None
    end
  else if String.eqb (RuleType rule) "bool" then
    if negb (String.eqb (Pattern rule) "") then
      let (isok, err) :=
        MatchString "^(true|false|True|False|TRUE|FALSE)$" v in
      if negb isok then
        match err with
        | Some _ => Some (errorsNew ("Invalid regexp in rule: " +:+ Pattern rule))
        | None => Some (errorsNew ("Invalid bool argument: " +:+ k +:+ "=" +:+ v))
        end
      else None
    else None
  else if String.eqb (RuleType rule) "string" then
    if negb (String.eqb (Pattern rule) "") then
      let (isok, err) := MatchString (Pattern rule) v in
      if negb isok then
        match err with
        | Some _ => Some (errorsNew ("Invalid regexp in rule: " +:+ Pattern rule))
        | None => Some (errorsNew ("Invalid argument: " +:+ k +:+ "=" +:+ v))
        end
      else None
    else None
  else Some (errorsNew ("Unsupported value type: " +:+ RuleType rule)).

(** What the loop of [ValidateArgs] makes of one entry of the map. *)
Definition checkEntry (rulesMap : gmap string DWDirectiveRuleDef) (k v : string)
  : option GoError :=
  if negb (String.eqb k "command") then
    match rulesMap !! k with
    | None => Some (errorsNew ("Unsupported argument - " +:+ k))
    | Some rule => checkArg rule k v
    end
  else None.

(** The loop of [ValidateArgs], over the entries of the map in the order
    the [range] yields them. *)
Fixpoint validateLoop (rulesMap : gmap string DWDirectiveRuleDef)
    (entries : list (string * string)) : option GoError :=
  match entries with
  | [] => None
  | (k, v) :: rest =>
      match checkEntry rulesMap k v with
      | Some e => Some e
      | None => validateLoop rulesMap rest
      end
  end.

(** [ValidateArgs] validates a map of arguments against the rules. *)
Definition ValidateArgs (entries : list (string * string))
    (args : gmap string string) (rules : list DWDirectiveRuleSpec)
  : option GoError :=
  let command := default "" (args !! "command") in
  match BuildRulesMap rules command with
  | inr e => Some e
  | inl rulesMap => validateLoop rulesMap entries
  end.

End Validate.

(** The key and the value of an argument with at most one [=]. *)
Definition argPair (arg : string) : string * string :=
  match GoStrings.Split arg "="%char with
  | [k] => (k, "true")
  | k :: v :: _ => (k, v)
  | [] => (arg, "true")
  end.

(** The number of [=] in an argument. *)
Fixpoint countByte (c : ascii) (s : string) : nat :=
  match s with
  | EmptyString => 0
  | String a r => (if Ascii.eqb a c then 1 else 0) + countByte c r
  end.

(** An argument with at most one [=]. *)
Definition simpleArg (arg : string) : bool := (countByte "=" arg <=? 1)%nat.

(** The value the arguments give to the key [k], scanning them in order
    from the value [current]: the last one that names the key decides. *)
Fixpoint valueOf (k : string) (args : list string) (current : option string)
  : option string :=
  match args with
  | [] => current
  | arg :: rest =>
      valueOf k rest
        (if String.eqb (fst (argPair arg)) k then Some (snd (argPair arg))
         else current)
  end.

(** The rule definitions of the rules for the command [cmd], in order. *)
Definition matchingDefs (rules : list DWDirectiveRuleSpec) (cmd : string)
  : list DWDirectiveRuleDef :=
  flat_map (fun r => if String.eqb cmd (Command r) then RuleDefs r else []) rules.

Section ValidateAll.

Variable MatchString : string -> string -> bool * option GoError.

(** [GetParserRules] reads the rule set from the API server: the [Spec] of
    the rule set, or the error of the client. *)
Variable GetParserRules : string -> string -> list DWDirectiveRuleSpec + GoError.

(** The order in which the [range] of [ValidateArgs] yields the entries of
    the map, for the directive at the given position. *)
Variable rangeOf : nat -> gmap string string -> list (string * string).

(** The loop of [ValidateDWDirectives], from the directive at position
    [i]. *)
Fixpoint directivesLoop (i : nat) (rules : list DWDirectiveRuleSpec)
    (directives : list string) : Outcome (option GoError) :=
  match directives with
  | [] => Returned None
  | dwd :: rest =>
      match BuildArgsMap dwd with
      | Panicked q => Panicked q
      | Returned (inr err) => Returned (Some err)
      | Returned (inl argsMap) =>
          match ValidateArgs MatchString (rangeOf i argsMap) argsMap rules with
          | Some err => Returned (Some err)
          | None => directivesLoop (S i) rules rest
          end
      end
  end.

(** [ValidateDWDirectives] validates a set of directives against a rule
    set. *)
Definition ValidateDWDirectives (directives : list string)
    (ruleSetName namespace : string) : Outcome (option GoError) :=
  match GetParserRules ruleSetName namespace with
  | inr err => Returned (Some err)
  | inl dwdRules => directivesLoop 0 dwdRules directives
  end.

(** A directive that yields a map of arguments which the rules accept. *)
Definition validDirective (rules : list DWDirectiveRuleSpec) (dwd : string) : Prop :=
  exists argsMap rulesMap,
    BuildArgsMap dwd = Returned (inl argsMap)
    /\ BuildRulesMap rules (default "" (argsMap !! "command")) = inl rulesMap
    /\ forall k v, argsMap !! k = Some v ->
         checkEntry MatchString rulesMap k v = None.

End ValidateAll.

(** A matcher that accepts every value. *)
Definition anyMatch : string -> string -> bool * option GoError :=
  fun _ _ => (true, None).

(** Rules at hand: a capacity for [jobdw], and an integer rule with a
    minimum and without a maximum. *)
Definition unboundedAbove : DWDirectiveRuleDef :=
  {| Key := "capacity"; RuleType := "integer"; Max := 0; Min := (-5)%Z;
     Pattern := "" |}.

Definition needsCapacity : list DWDirectiveRuleSpec :=
  [{| Command := "jobdw"; RuleDefs := [unboundedAbove] |}].

End dwdparse.

(** ** More vocabulary *)

Section MoreVocabulary.
Context {Host : Type} `{HostOps Host}.

(** A computation that leaves the host as it is and adds nothing but log
    lines to the trace. *)
Definition quiet {A : Type} (m : M (World Host) A) : Prop :=
  forall w,
    host (snd (m w)) = host w
    /\ effects (trace (snd (m w))) = effects (trace w).



(** What [r.Update] makes of a pass. *)
Definition afterUpdate (o : ClientMount) (w : World Host)
  : option error * Pass Host :=
  let '((o', err), h) := apiUpdate o (host w) in
  (err, {| obj := o';
           world := {| host := h; trace := trace w ++ [EvUpdate o] |} |}).

(** What [r.Status().Update] makes of a pass. *)
Definition afterStatusUpdate (o : ClientMount) (w : World Host)
  : option error * Pass Host :=
  let '((o', err), h) := apiStatusUpdate o (host w) in
  (err, {| obj := o';
           world := {| host := h; trace := trace w ++ [EvStatusUpdate o] |} |}).

End MoreVocabulary.

(** ** More hosts and resources *)

Module Cases.

Import Sim.

(** A host whose mount table cannot be read. *)
Definition hostProbeFails : Host :=
  {| outputs := [("mount", "mount: permission denied" +:+ nl)];
     failing := ["mount"];
     stored := None |}.

(** A host with nothing mounted where [/mnt/a] cannot be created. *)
Definition hostNoDir : Host :=
  {| outputs := [("mount", "/dev/sda1 on / type ext4 (rw)" +:+ nl)];
     failing := ["/mnt/a"];
     stored := None |}.

(** A host with [/mnt/a] mounted and busy. *)
Definition hostBusy : Host :=
  {| outputs :=
       [("mount", "/dev/vg0/lv0 on /mnt/a type xfs (rw)" +:+ nl);
        ("umount /mnt/a", "umount: /mnt/a: target is busy." +:+ nl);
        (MountDaemon.lvsCommand, "  lv0 vg0 -wi-ao---- 46.59g" +:+ nl)];
     failing := ["umount /mnt/a"];
     stored := None |}.

(** A host with nothing mounted, the volume active, and a volume group
    that cannot be deactivated. *)
Definition hostHeld : Host :=
  {| outputs :=
       [("mount", "/dev/sda1 on / type ext4 (rw)" +:+ nl);
        (MountDaemon.lvsCommand, "  lv0 vg0 -wi-a----- 46.59g" +:+ nl);
        ("vgchange --activate n vg0", "  Can't deactivate volume group" +:+ nl)];
     failing := ["vgchange --activate n vg0"];
     stored := None |}.

(** A host whose volume listing fails. *)
Definition hostNoLvs : Host :=
  {| outputs := [("mount", "/dev/sda1 on / type ext4 (rw)" +:+ nl)];
     failing := [MountDaemon.lvsCommand];
     stored := None |}.

(** A host whose listing does not have the volume. *)
Definition hostOtherVolume : Host :=
  {| outputs :=
       [("mount", "/dev/sda1 on / type ext4 (rw)" +:+ nl);
        (MountDaemon.lvsCommand, "  lv1 vg0 -wi-a----- 46.59g" +:+ nl)];
     failing := [];
     stored := None |}.

Definition mock : MountDaemon.ClientMountReconciler := {| MountDaemon.Mock := true |}.

(** An entry mounted on a file. *)
Definition onFile (path : string) : ClientMountInfo :=
  {| MountPath := path; Options := "ro";
     Device := lustreDevice "10.0.0.1@tcp" "scratch";
     FsType := "lustre"; TargetType := "file" |}.


(** A resource being deleted that carries another controller's finalizer
    only. *)
Definition deletedForeign : ClientMount :=
  resource true ["example.com/other"] ClientMountStateMounted
    [onVolume "/mnt/a" "xfs"]
    [recorded ClientMountStateMounted true ""].

(** A resource whose status was reset to the desired state and that has
    no finalizer yet. *)
Definition accepted : ClientMount :=
  resource false [] ClientMountStateMounted
    [onLustre "/mnt/a"]
    [recorded ClientMountStateMounted false ""].

(** A resource with a desired state that is neither mounted nor
    unmounted. *)
Definition paused : ClientMount :=
  resource false [MountDaemon.finalizerClientMount] "paused"
    [onLustre "/mnt/a"]
    [recorded "paused" true ""].

(** A new resource: two mounts and no status. *)
Definition unsized : ClientMount :=
  resource false [] ClientMountStateMounted
    [onLustre "/mnt/a"; onLustre "/mnt/b"] [].

End Cases.

(** * Theorems *)

(** ** The Go library functions on the inputs of the specification *)

Example Fields_lvs_line :
  GoStrings.Fields " default-mattr2-0-xfs-0-1_lv default-mattr2-0-xfs-0-1_vg -wi-------  46.59g"
  = ["default-mattr2-0-xfs-0-1_lv"; "default-mattr2-0-xfs-0-1_vg"; "-wi-------"; "46.59g"].
Proof. reflexivity. Qed.

Example Join_dev : filepath.Join ["/dev"; "vg0"; "lv0"] = "/dev/vg0/lv0".
Proof. reflexivity. Qed.

Example Join_dev_dotdot : filepath.Join ["/dev"; ".."; "lv0"] = "/lv0".
Proof. reflexivity. Qed.

Example Dir_file : filepath.Dir "/mnt/a/file" = "/mnt/a".
Proof. reflexivity. Qed.

Lemma mounted_not_unmounted : ClientMountStateMounted <> ClientMountStateUnmounted.
Proof. discriminate. Qed.

(** ** The monad *)

Section MonadLaws.
Context {S A B : Type}.

Lemma bind_returned (m : M S A) (k : A -> M S B) (s s' : S) (a : A) :
  m s = (Returned a, s') -> bind m k s = k a s'.
Proof. intros E. unfold bind. now rewrite E. Qed.

Lemma bind_panicked (m : M S A) (k : A -> M S B) (s s' : S) (p : PanicReason) :
  m s = (Panicked p, s') -> bind m k s = (Panicked p, s').
Proof. intros E. unfold bind. now rewrite E. Qed.

Lemma bind_ret (a : A) (k : A -> M S B) (s : S) : bind (ret a) k s = k a s.
Proof. reflexivity. Qed.

End MonadLaws.

Section Proofs.
Context {Host : Type} `{HostOps Host}.

Import MountDaemon.

Implicit Types (w : World Host) (r : ClientMountReconciler).

(** *** [run] and the file-system helpers never panic and leave one event *)

Lemma run_returns r c w :
  exists output err h,
    run r c w
    = (Returned (output, err), {| host := h; trace := trace w ++ [runEvent r c] |}).
Proof.
  unfold run, runEvent. destruct (Mock r).
  - now exists "", None, (host w).
  - unfold hostCall. destruct (execBash c (host w)) as [[o e] h]. now exists o, e, h.
Qed.

Lemma run_trace r c w res w1 :
  run r c w = (Returned res, w1) -> trace w1 = trace w ++ [runEvent r c].
Proof.
  intros E. destruct (run_returns r c w) as (o & e & h & E'). rewrite E' in E.
  now inversion E.
Qed.

Lemma run_never_panics r c w p w1 : run r c w <> (Panicked p, w1).
Proof.
  destruct (run_returns r c w) as (o & e & h & E'). rewrite E'. discriminate.
Qed.

Lemma run_mock r c w :
  Mock r = true ->
  run r c w = (Returned ("", None),
               {| host := host w;
                  trace := trace w ++ [EvLogInfo (Lit "Run") [("Command", c)]] |}).
Proof. intros E. unfold run. now rewrite E. Qed.

(** *** [checkMount] *)

Lemma third_field (fields : list string) (p : string) :
  (3 <=? length fields)%nat && String.eqb (nth 2 fields "") p = true
  <-> (3 <= length fields)%nat /\ fields !! 2%nat = Some p.
Proof.
  rewrite andb_true_iff, Nat.leb_le, String.eqb_eq. split.
  - intros [L E]. split; [exact L|].
    destruct (lookup_lt_is_Some_2 fields 2 ltac:(lia)) as [x Hx].
    rewrite nth_lookup, Hx in E. simpl in E. now subst.
  - intros [L E]. split; [exact L|]. now rewrite nth_lookup, E.
Qed.

Lemma checkMountLoop_values lines p :
  checkMountLoop lines p = ClientMountStateMounted
  \/ checkMountLoop lines p = ClientMountStateUnmounted.
Proof.
  induction lines as [|l ls IH]; cbn [checkMountLoop]; [now right|].
  destruct (_ && _); [now left|exact IH].
Qed.

Lemma checkMountLoop_mounted lines p :
  checkMountLoop lines p = ClientMountStateMounted
  <-> exists line, In line lines
        /\ (3 <= length (GoStrings.Fields line))%nat
        /\ GoStrings.Fields line !! 2%nat = Some p.
Proof.
  induction lines as [|l ls IH]; cbn [checkMountLoop In].
  - split; [discriminate|]. now intros (x & [] & _).
  - destruct ((3 <=? length (GoStrings.Fields l))%nat
              && String.eqb (nth 2 (GoStrings.Fields l) "") p) eqn:E.
    + split; [|reflexivity]. intros _. exists l. split; [now left|].
      now apply third_field.
    + rewrite IH. split.
      * intros (x & I & P). exists x. split; [now right|exact P].
      * intros (x & [->|I] & P).
        -- apply third_field in P. congruence.
        -- now exists x.
Qed.

(** C5: [checkMount] answers [Mounted] exactly when the query succeeded
    and some line of its output, split into fields at white space, has
    three fields or more and the queried path as its third; it answers
    [Unmounted] otherwise, without an error when the query succeeded, and
    with an error exactly when the query command failed. *)
Theorem checkMount_exact r mountPath w :
  match run r "mount" w with
  | (Returned (output, err), w1) =>
      exists state,
        checkMount r mountPath w
        = (Returned (state,
                     match err with
                     | Some e => Some (NewResourceError output (Some e))
                     | None => None
                     end), w1)
        /\ (state = ClientMountStateMounted
            <-> err = None /\ listedAt output mountPath)
        /\ (state = ClientMountStateUnmounted
            <-> ~ (err = None /\ listedAt output mountPath))
  | (Panicked _, _) => False
  end.
Proof.
  destruct (run_returns r "mount" w) as (o & e & h & E).
  rewrite E. unfold checkMount. rewrite (bind_returned _ _ _ _ _ E).
  destruct e as [e|]; simpl.
  - exists ClientMountStateUnmounted. split; [reflexivity|]. split.
    + split; [discriminate|]. now intros [? _].
    + split; [|reflexivity]. now intros _ [? _].
  - exists (checkMountLoop (GoStrings.Split o "010"%char) mountPath).
    split; [reflexivity|]. unfold listedAt. split.
    + rewrite checkMountLoop_mounted. tauto.
    + destruct (checkMountLoop_values (GoStrings.Split o "010"%char) mountPath) as [V|V].
      * rewrite V. split; [discriminate|]. intros N. exfalso. apply N.
        split; [reflexivity|]. now apply checkMountLoop_mounted.
      * split; [|intros _; exact V]. intros _ [_ L].
        apply checkMountLoop_mounted in L. rewrite V in L. discriminate.
Qed.

(** *** Traces *)

Lemma commands_app (t u : list Event) : commands (t ++ u) = commands t ++ commands u.
Proof. apply omap_app. Qed.

Lemma commands_runEvent r c : commands [runEvent r c] = [c].
Proof. unfold runEvent. now destruct (Mock r). Qed.

Lemma commands_run_cons r c t : commands (runEvent r c :: t) = c :: commands t.
Proof. change (runEvent r c :: t) with ([runEvent r c] ++ t).
  now rewrite commands_app, commands_runEvent. Qed.

(** *** Bytes of a string *)

Lemma byteAt_Some_lt (s : string) (i : nat) (c : ascii) :
  GoStrings.byteAt s i = Some c -> (i < String.length s)%nat.
Proof.
  revert i. induction s as [|a s IH]; intros [|i]; simpl; try discriminate; try lia.
  intros E. apply IH in E. lia.
Qed.

Lemma byteAt_None_ge (s : string) (i : nat) :
  GoStrings.byteAt s i = None <-> (String.length s <= i)%nat.
Proof.
  revert i. induction s as [|a s IH]; intros [|i]; simpl.
  - split; [lia | reflexivity].
  - split; [lia | reflexivity].
  - split; [discriminate | lia].
  - rewrite IH. lia.
Qed.

Lemma indexByte_in (s : string) (i : nat) (c : ascii) w :
  GoStrings.byteAt s i = Some c -> indexByte s i w = (Returned c, w).
Proof. intros E. unfold indexByte. now rewrite E. Qed.

Lemma indexByte_out (s : string) (i : nat) w :
  (String.length s <= i)%nat ->
  indexByte s i w = (Panicked (IndexOutOfRange i (String.length s)), w).
Proof. intros L. apply byteAt_None_ge in L. unfold indexByte. now rewrite L. Qed.

(** *** The loop over the volume listing *)

Lemma matchedLine_fields (l : ClientMountDeviceLVM) lines fields :
  matchedLine l lines = Some fields ->
  (3 <= length fields)%nat
  /\ nth 0 fields "" = LogicalVolume l /\ nth 1 fields "" = VolumeGroup l.
Proof.
  induction lines as [|x xs IH]; cbn [matchedLine]; [discriminate|].
  destruct (_ && _ && _) eqn:E; [|exact IH].
  intros [= <-]. apply andb_true_iff in E as [E E3].
  apply andb_true_iff in E as [E1 E2].
  apply Nat.leb_le in E1. apply String.eqb_eq in E2, E3. auto.
Qed.

Lemma matchedAttr_nth (l : ClientMountDeviceLVM) output attr :
  matchedAttr l output = Some attr ->
  exists fields, matchedLine l (lvsLines output) = Some fields
                 /\ nth 2 fields "" = attr.
Proof.
  unfold matchedAttr. destruct (matchedLine l (lvsLines output)) as [f|] eqn:E;
    [|discriminate].
  intros E2. exists f. split; [reflexivity|]. now rewrite nth_lookup, E2.
Qed.

Lemma lvsLoop_matched r (l : ClientMountDeviceLVM) act sh out lines fields w :
  matchedLine l lines = Some fields ->
  lvsLoop r (Some l) act sh out lines w
  = bind (indexByte (nth 2 fields "") 4)
         (fun c => changeActivation r l act sh (Ascii.eqb c "a"%char)) w.
Proof.
  induction lines as [|x xs IH]; cbn [matchedLine lvsLoop]; [discriminate|].
  destruct (Nat.ltb_spec (length (GoStrings.Fields x)) 3) as [L|L].
  - replace (3 <=? length (GoStrings.Fields x))%nat with false
      by (symmetry; apply Nat.leb_gt; lia).
    exact IH.
  - replace (3 <=? length (GoStrings.Fields x))%nat with true
      by (symmetry; apply Nat.leb_le; lia).
    cbn [andb deref]. rewrite bind_ret.
    destruct (String.eqb (nth 0 (GoStrings.Fields x) "") (LogicalVolume l));
      cbn [negb andb]; [|exact IH].
    destruct (String.eqb (nth 1 (GoStrings.Fields x) "") (VolumeGroup l));
      cbn [negb]; [|exact IH].
    now intros [= <-].
Qed.

Lemma lvsLoop_unmatched r (l : ClientMountDeviceLVM) act sh out lines w :
  matchedLine l lines = None ->
  lvsLoop r (Some l) act sh out lines w
  = (Returned (Some (notFoundError l out)),
     {| host := host w;
        trace := trace w ++ [EvLogInfo (ErrorOf (notFoundError l out)) []] |}).
Proof.
  induction lines as [|x xs IH]; cbn [matchedLine lvsLoop]; [reflexivity|].
  destruct (Nat.ltb_spec (length (GoStrings.Fields x)) 3) as [L|L].
  - replace (3 <=? length (GoStrings.Fields x))%nat with false
      by (symmetry; apply Nat.leb_gt; lia).
    exact IH.
  - replace (3 <=? length (GoStrings.Fields x))%nat with true
      by (symmetry; apply Nat.leb_le; lia).
    cbn [andb deref]. rewrite bind_ret.
    destruct (String.eqb (nth 0 (GoStrings.Fields x) "") (LogicalVolume l));
      cbn [negb andb]; [|exact IH].
    destruct (String.eqb (nth 1 (GoStrings.Fields x) "") (VolumeGroup l));
      cbn [negb]; [discriminate|exact IH].
Qed.

(** With a nil volume pointer the loop panics or, on a listing without a
    line of three fields, panics at the end: no command is run. *)
Lemma lvsLoop_nil r act sh out lines w :
  lvsLoop r None act sh out lines w = (Panicked NilDereference, w).
Proof.
  induction lines as [|x xs IH]; cbn [lvsLoop]; [reflexivity|].
  destruct (length (GoStrings.Fields x) <? 3)%nat; [exact IH|reflexivity].
Qed.

(** [configureLVMDevice] on a real host whose listing succeeds. *)
Lemma configureLVMDevice_listed r lvm act sh w output h1 :
  Mock r = false ->
  execBash lvsCommand (host w) = ((output, None), h1) ->
  configureLVMDevice r lvm act sh w
  = lvsLoop r lvm act sh output (lvsLines output)
      {| host := h1; trace := trace w ++ [EvExec lvsCommand] |}.
Proof.
  intros Hm He. unfold configureLVMDevice, bind, run, hostCall.
  rewrite Hm, He. reflexivity.
Qed.

(** *** The activation step *)

Ltac run_step :=
  match goal with
  | |- context [run ?r ?c ?w] =>
      let o := fresh "o" in
      let e := fresh "e" in
      let h := fresh "h" in
      let E := fresh "E" in
      destruct (run_returns r c w) as (o & [e|] & h & E);
      rewrite E; clear E; unfold ret; cbv beta iota; cbn [fst snd trace host]
  end.

(** The activation step returns, and the commands it runs are in order:
    lock start before activation, deactivation before lock stop. *)
Lemma changeActivation_commands r (l : ClientMountDeviceLVM) act sh isActive w :
  exists res t h,
    changeActivation r l act sh isActive w
    = (Returned res, {| host := h; trace := trace w ++ t |})
    /\ match act, isActive with
       | true, false =>
           if sh
           then (commands t = [lockStart l] /\ res <> None)
                \/ commands t = [lockStart l; activateCmd true l]
           else commands t = [activateCmd false l]
       | false, true =>
           (commands t = [deactivateCmd l] /\ (sh = true -> res <> None))
           \/ (sh = true /\ commands t = [deactivateCmd l; lockStop l])
       | _, _ => t = [] /\ res = None
       end.
Proof.
  unfold changeActivation.
  destruct act, isActive; cbn [andb negb].
  - exists None, [], (host w). rewrite app_nil_r. destruct w. now split.
  - destruct sh; unfold bind, ret; cbv beta iota; repeat run_step;
      do 3 eexists; (split; [rewrite <- ?app_assoc; reflexivity|]);
      cbn [app]; rewrite ?commands_run_cons; cbn [commands];
      unfold lockStart, activateCmd; try (left; split; [reflexivity|discriminate]);
      try (right; reflexivity); try reflexivity.
  - unfold bind, ret; cbv beta iota; run_step; [|destruct sh; [run_step|]];
      do 3 eexists; (split; [rewrite <- ?app_assoc; reflexivity|]);
      cbn [app]; rewrite ?commands_run_cons; cbn [commands];
      unfold lockStop, deactivateCmd;
      try (left; split; [reflexivity|]; first [discriminate | intros; discriminate]);
      try (right; split; reflexivity).
  - exists None, [], (host w). rewrite app_nil_r. destruct w. now split.
Qed.

(** *** [configureLVMDevice] *)

(** What the loop over the listing adds to the trace. *)
Lemma lvsLoop_commands r lvm act sh out lines w :
  exists t,
    trace (snd (lvsLoop r lvm act sh out lines w)) = trace w ++ t
    /\ (commands t = []
        \/ exists l isActive, lvm = Some l /\
             match act, isActive with
             | true, false =>
                 if sh
                 then commands t = [lockStart l]
                      \/ commands t = [lockStart l; activateCmd true l]
                 else commands t = [activateCmd false l]
             | false, true =>
                 commands t = [deactivateCmd l]
                 \/ (sh = true /\ commands t = [deactivateCmd l; lockStop l])
             | _, _ => False
             end).
Proof.
  destruct lvm as [l|].
  2:{ rewrite lvsLoop_nil. exists []. cbn [snd]. rewrite app_nil_r. now split; [|left]. }
  destruct (matchedLine l lines) as [fields|] eqn:Em.
  2:{ rewrite (lvsLoop_unmatched _ _ _ _ _ _ _ Em). eexists. cbn [snd trace].
      split; [reflexivity|]. now left. }
  rewrite (lvsLoop_matched _ _ _ _ _ _ _ _ Em).
  destruct (GoStrings.byteAt (nth 2 fields "") 4) as [c|] eqn:Eb.
  2:{ apply byteAt_None_ge in Eb.
      rewrite (bind_panicked _ _ _ _ _ (indexByte_out _ _ w Eb)).
      exists []. cbn [snd]. rewrite app_nil_r. now split; [|left]. }
  rewrite (bind_returned _ _ _ _ _ (indexByte_in _ _ _ w Eb)).
  destruct (changeActivation_commands r l act sh (Ascii.eqb c "a"%char) w)
    as (res & t & h & E & S).
  rewrite E. exists t. cbn [snd trace]. split; [reflexivity|].
  destruct act, (Ascii.eqb c "a"%char) eqn:Ea.
  - left. now destruct S as [-> _].
  - right. exists l, false. split; [reflexivity|].
    destruct sh; [destruct S as [[S _]|S]; [now left|now right] | exact S].
  - right. exists l, true. split; [reflexivity|].
    destruct S as [[S _]|S]; [now left|now right].
  - left. now destruct S as [-> _].
Qed.

(** C3: on every run of [configureLVMDevice] the commands passed to
    [run] are the listing followed by nothing, by the lock start and then
    (if it succeeded) the shared activation, by the plain activation, or
    by the deactivation and then (for a shared volume, if it succeeded)
    the lock stop: never another order.  And where a shared volume is
    found in the state opposite to the requested one, the lock start is
    run first and the activation after it, the deactivation first and the
    lock stop after it. *)
Theorem configureLVMDevice_lock_order r lvm activate shared w :
  (exists t,
      trace (snd (configureLVMDevice r lvm activate shared w)) = trace w ++ t
      /\ admissible lvm activate shared (commands t))
  /\ (forall l output h1 attr c,
        Mock r = false -> lvm = Some l -> shared = true ->
        execBash lvsCommand (host w) = ((output, None), h1) ->
        matchedAttr l output = Some attr ->
        GoStrings.byteAt attr 4 = Some c ->
        Ascii.eqb c "a"%char = negb activate ->
        exists res t w',
          configureLVMDevice r lvm activate shared w = (Returned res, w')
          /\ trace w' = trace w ++ t
          /\ if activate
             then (commands t = [lvsCommand; lockStart l] /\ res <> None)
                  \/ commands t = [lvsCommand; lockStart l; activateCmd true l]
             else (commands t = [lvsCommand; deactivateCmd l] /\ res <> None)
                  \/ commands t = [lvsCommand; deactivateCmd l; lockStop l]).
Proof.
  split.
  - unfold configureLVMDevice, bind. run_step.
    + exists [runEvent r lvsCommand]. split; [reflexivity|].
      left. apply commands_runEvent.
    + destruct (Mock r) eqn:Hm.
      * exists [runEvent r lvsCommand]. split; [reflexivity|].
        left. apply commands_runEvent.
      * match goal with
        | |- context [lvsLoop r lvm activate shared o ?ls ?w1] =>
            destruct (lvsLoop_commands r lvm activate shared o ls w1)
              as (t & Et & S)
        end.
        exists (runEvent r lvsCommand :: t). rewrite Et. cbn [trace].
        split; [now rewrite <- app_assoc|].
        rewrite commands_run_cons. unfold admissible.
        destruct S as [->|(l & isActive & -> & S)]; [now left|]. right.
        exists l. split; [reflexivity|].
        destruct activate, isActive; try contradiction.
        -- destruct shared.
           ++ left. repeat split. destruct S as [->| ->]; [now left|now right].
           ++ right; left. repeat split. now rewrite S.
        -- destruct shared.
           ++ right; right; left. repeat split.
              destruct S as [->|[_ ->]]; [now left|now right].
           ++ right; right; right. repeat split.
              destruct S as [->|[? _]]; [reflexivity|discriminate].
  - intros l output h1 attr c Hm -> -> He Ha Hb Hc.
    rewrite (configureLVMDevice_listed _ _ _ _ _ _ _ Hm He).
    destruct (matchedAttr_nth _ _ _ Ha) as (fields & Em & <-).
    rewrite (lvsLoop_matched _ _ _ _ _ _ _ _ Em).
    rewrite (bind_returned _ _ _ _ _ (indexByte_in _ _ _ _ Hb)).
    match goal with
    | |- context [changeActivation r l activate true ?a ?w1] =>
        destruct (changeActivation_commands r l activate true a w1)
          as (res & t & h & E & S)
    end.
    rewrite E, Hc in *. exists res, (EvExec lvsCommand :: t). eexists.
    split; [reflexivity|]. cbn [trace]. split; [now rewrite <- app_assoc|].
    change (EvExec lvsCommand :: t) with ([EvExec lvsCommand] ++ t).
    rewrite commands_app. cbn [commands app].
    destruct activate; cbn [negb] in S.
    + destruct S as [[-> S]| ->]; [now left|now right].
    + destruct S as [[-> S]|[_ ->]]; [left; split; auto|now right].
Qed.

(** C4: when the matched line of the listing already shows the requested
    activation state (byte 4 of its attributes is [a] exactly when
    activation is requested), [configureLVMDevice] returns no error and
    has run the listing and nothing else; called a second time on a
    listing that still shows that state, it again runs the listing
    only. *)
Theorem configureLVMDevice_idempotent r (l : ClientMountDeviceLVM)
    activate shared w output h1 attr c :
  Mock r = false ->
  execBash lvsCommand (host w) = ((output, None), h1) ->
  matchedAttr l output = Some attr ->
  GoStrings.byteAt attr 4 = Some c ->
  Ascii.eqb c "a"%char = activate ->
  configureLVMDevice r (Some l) activate shared w
  = (Returned None, {| host := h1; trace := trace w ++ [EvExec lvsCommand] |})
  /\ (forall output' h2 attr' c',
        execBash lvsCommand h1 = ((output', None), h2) ->
        matchedAttr l output' = Some attr' ->
        GoStrings.byteAt attr' 4 = Some c' ->
        Ascii.eqb c' "a"%char = activate ->
        bind (configureLVMDevice r (Some l) activate shared)
             (fun _ => configureLVMDevice r (Some l) activate shared) w
        = (Returned None,
           {| host := h2;
              trace := trace w ++ [EvExec lvsCommand; EvExec lvsCommand] |})).
Proof.
  assert (once : forall w output h1 attr c,
    Mock r = false ->
    execBash lvsCommand (host w) = ((output, None), h1) ->
    matchedAttr l output = Some attr ->
    GoStrings.byteAt attr 4 = Some c ->
    Ascii.eqb c "a"%char = activate ->
    configureLVMDevice r (Some l) activate shared w
    = (Returned None, {| host := h1; trace := trace w ++ [EvExec lvsCommand] |})).
  { clear. intros w output h1 attr c Hm He Ha Hb Hc.
    rewrite (configureLVMDevice_listed _ _ _ _ _ _ _ Hm He).
    destruct (matchedAttr_nth _ _ _ Ha) as (fields & Em & <-).
    rewrite (lvsLoop_matched _ _ _ _ _ _ _ _ Em).
    rewrite (bind_returned _ _ _ _ _ (indexByte_in _ _ _ _ Hb)).
    rewrite Hc. unfold changeActivation.
    now destruct activate. }
  intros Hm He Ha Hb Hc. split; [now apply (once w output h1 attr c)|].
  intros output' h2 attr' c' He' Ha' Hb' Hc'.
  rewrite (bind_returned _ _ _ _ _ (once w output h1 attr c Hm He Ha Hb Hc)).
  rewrite (once {| host := h1; trace := trace w ++ [EvExec lvsCommand] |}
                output' h2 attr' c' Hm He' Ha' Hb' Hc').
  cbn [trace]. now rewrite <- app_assoc.
Qed.

(** C10: the line is matched on its first two fields once it has three;
    byte 4 of the third is then read whatever its length.  With an
    attributes token shorter than five bytes the read is out of range and
    [configureLVMDevice] panics, having run the listing only; with five
    bytes or more it returns. *)
Theorem configureLVMDevice_attr_index r (l : ClientMountDeviceLVM)
    activate shared w output h1 attr :
  Mock r = false ->
  execBash lvsCommand (host w) = ((output, None), h1) ->
  matchedAttr l output = Some attr ->
  ((String.length attr < 5)%nat ->
     configureLVMDevice r (Some l) activate shared w
     = (Panicked (IndexOutOfRange 4 (String.length attr)),
        {| host := h1; trace := trace w ++ [EvExec lvsCommand] |}))
  /\ ((5 <= String.length attr)%nat ->
      exists res w',
        configureLVMDevice r (Some l) activate shared w = (Returned res, w')).
Proof.
  intros Hm He Ha.
  rewrite (configureLVMDevice_listed _ _ _ _ _ _ _ Hm He).
  destruct (matchedAttr_nth _ _ _ Ha) as (fields & Em & <-).
  rewrite (lvsLoop_matched _ _ _ _ _ _ _ _ Em). split; intros L.
  - apply bind_panicked, indexByte_out. lia.
  - destruct (GoStrings.byteAt (nth 2 fields "") 4) as [c|] eqn:Eb.
    2:{ apply byteAt_None_ge in Eb. lia. }
    rewrite (bind_returned _ _ _ _ _ (indexByte_in _ _ _ _ Eb)).
    match goal with
    | |- context [changeActivation r l activate shared ?a ?w1] =>
        destruct (changeActivation_commands r l activate shared a w1)
          as (res & t & h & E & _)
    end.
    rewrite E. eauto.
Qed.

(** *** Paths of plain names *)

Lemma append_empty (s : string) : "" +:+ s = s.
Proof. reflexivity. Qed.

Lemma append_String (c : ascii) (a b : string) :
  String c a +:+ b = String c (a +:+ b).
Proof. reflexivity. Qed.

Lemma Split_plain (a : string) (sep : ascii) :
  hasByte sep a = false -> GoStrings.Split a sep = [a].
Proof.
  induction a as [|c a IH]; [reflexivity|]. cbn [hasByte GoStrings.Split].
  intros E. apply orb_false_iff in E as [E1 E2]. rewrite E1, (IH E2). reflexivity.
Qed.

Lemma Split_plain_app (a b : string) (sep : ascii) :
  hasByte sep a = false ->
  GoStrings.Split (a +:+ String sep b) sep = a :: GoStrings.Split b sep.
Proof.
  induction a as [|c a IH]; intros E.
  - rewrite append_empty. cbn [GoStrings.Split]. now rewrite Ascii.eqb_refl.
  - cbn [hasByte] in E. apply orb_false_iff in E as [E1 E2].
    rewrite append_String. cbn [GoStrings.Split]. rewrite E1, (IH E2). reflexivity.
Qed.

Lemma cleanStep_plain (rooted : bool) (kept : list string) (s : string) :
  plainName s = true -> filepath.cleanStep rooted kept s = s :: kept.
Proof.
  unfold plainName, filepath.cleanStep. intros E.
  apply andb_true_iff in E as [E _]. apply andb_true_iff in E as [E E3].
  apply andb_true_iff in E as [E1 E2].
  apply negb_true_iff in E1, E2, E3. now rewrite E1, E2, E3.
Qed.

Lemma plainName_noSep (s : string) :
  plainName s = true -> hasByte filepath.Separator s = false.
Proof.
  unfold plainName. intros E. apply andb_true_iff in E as [_ E].
  now apply negb_true_iff in E.
Qed.

(** The device path of a volume whose two names are plain. *)
Lemma Join_dev_plain (vg lv : string) :
  plainName vg = true -> plainName lv = true ->
  filepath.Join ["/dev"; vg; lv] = "/dev/" +:+ vg +:+ "/" +:+ lv.
Proof.
  intros Hv Hl. cbn [filepath.Join GoStrings.Join].
  change ("/dev" +:+ String filepath.Separator (vg +:+ String filepath.Separator lv))
    with (String "/" ("dev" +:+ String "/" (vg +:+ String "/" lv))).
  unfold filepath.Clean. rewrite Ascii.eqb_refl.
  change (String "/"%char ("dev" +:+ String "/" (vg +:+ String "/" lv)))
    with ("" +:+ String filepath.Separator
             ("dev" +:+ String filepath.Separator
                (vg +:+ String filepath.Separator lv))).
  rewrite (Split_plain_app "" _ filepath.Separator eq_refl).
  rewrite (Split_plain_app "dev" _ filepath.Separator eq_refl).
  rewrite (Split_plain_app vg _ _ (plainName_noSep _ Hv)).
  rewrite (Split_plain _ _ (plainName_noSep _ Hl)).
  cbn [fold_left]. change (filepath.cleanStep true [] "") with (@nil string).
  change (filepath.cleanStep true [] "dev") with ["dev"].
  rewrite (cleanStep_plain _ _ _ Hv), (cleanStep_plain _ _ _ Hl).
  destruct lv as [|c lv]; [discriminate|].
  destruct vg as [|d vg]; [discriminate|]. reflexivity.
Qed.

(** *** [getDevice] *)

(** C6, as the code has it: for a Lustre device [getDevice] returns
    [<mgsAddresses>:/<fileSystemName>] and leaves the world alone; for an
    LVM device it activates the volume, shared exactly when the file
    system type is [gfs2], and returns the activation's error, or with
    none the path [filepath.Join("/dev", volumeGroup, logicalVolume)],
    which is [/dev/<volumeGroup>/<logicalVolume>] when both names are
    plain path elements; for any other device type it returns the error
    [Invalid device type]. *)
Theorem getDevice_cases r (info : ClientMountInfo) w :
  (forall l,
      DeviceType (Device info) = ClientMountDeviceTypeLustre ->
      Lustre (Device info) = Some l ->
      getDevice r info w
      = (Returned (MgsAddresses l +:+ ":/" +:+ FileSystemName l, None), w))
  /\ (forall l,
        DeviceType (Device info) = ClientMountDeviceTypeLVM ->
        LVM (Device info) = Some l ->
        (match configureLVMDevice r (Some l) true
                 (String.eqb (FsType info) "gfs2") w with
         | (Returned None, w1) =>
             getDevice r info w
             = (Returned (filepath.Join ["/dev"; VolumeGroup l; LogicalVolume l],
                          None), w1)
         | (Returned (Some e), w1) =>
             getDevice r info w = (Returned ("", Some e), w1)
         | (Panicked p, w1) => getDevice r info w = (Panicked p, w1)
         end)
        /\ (plainName (VolumeGroup l) = true ->
            plainName (LogicalVolume l) = true ->
            filepath.Join ["/dev"; VolumeGroup l; LogicalVolume l]
            = "/dev/" +:+ VolumeGroup l +:+ "/" +:+ LogicalVolume l))
  /\ (DeviceType (Device info) <> ClientMountDeviceTypeLustre ->
      DeviceType (Device info) <> ClientMountDeviceTypeLVM ->
      getDevice r info w
      = (Returned ("", Some (FmtError "Invalid device type")), w)).
Proof.
  split; [|split].
  - intros l Ht Hl. unfold getDevice. now rewrite Ht, Hl.
  - intros l Ht Hl. split; [|apply Join_dev_plain].
    unfold getDevice. rewrite Ht, Hl. cbn [String.eqb Ascii.eqb Bool.eqb].
    change (String.eqb ClientMountDeviceTypeLVM ClientMountDeviceTypeLustre)
      with false.
    change (String.eqb ClientMountDeviceTypeLVM ClientMountDeviceTypeLVM)
      with true.
    cbv iota. unfold bind.
    destruct (configureLVMDevice r (Some l) true (String.eqb (FsType info) "gfs2") w)
      as [[[e|]|p] w1]; reflexivity.
  - intros N1 N2. unfold getDevice.
    apply String.eqb_neq in N1, N2. now rewrite N1, N2.
Qed.

(** *** [mount] on a path that is already mounted *)

Lemma checkMount_mock r p w :
  Mock r = true ->
  checkMount r p w
  = (Returned (ClientMountStateUnmounted, None),
     {| host := host w;
        trace := trace w ++ [EvLogInfo (Lit "Run") [("Command", "mount")]] |}).
Proof.
  intros Hm. unfold checkMount. now rewrite (bind_returned _ _ _ _ _ (run_mock _ _ _ Hm)).
Qed.

Lemma checkMount_real r p w :
  Mock r = false ->
  exists st e,
    checkMount r p w
    = (Returned (st, e),
       {| host := snd (execBash "mount" (host w));
          trace := trace w ++ [EvExec "mount"] |}).
Proof.
  intros Hm. unfold checkMount, bind, run, hostCall. rewrite Hm.
  destruct (execBash "mount" (host w)) as [[o [e|]] h]; cbn [snd]; eauto.
Qed.

(** C7: when the prober reports the mount path as mounted, [mount]
    returns no error; the one thing it did to the host is the prober's
    single query of the mount table, and it logged that the path is
    mounted: no device was resolved, no volume activated, no directory or
    file created, no mount command run. *)
Theorem mount_already_mounted r (info : ClientMountInfo) w w1 :
  checkMount r (MountPath info) w
  = (Returned (ClientMountStateMounted, None), w1) ->
  mount r info w
  = (Returned None,
     {| host := snd (execBash "mount" (host w));
        trace := trace w ++ [EvExec "mount";
                             EvLogInfo (Lit "Already mounted") []] |}).
Proof.
  intros E. unfold mount. rewrite (bind_returned _ _ _ _ _ E).
  change (String.eqb ClientMountStateMounted ClientMountStateMounted) with true.
  cbv iota. unfold bind, logInfo, emit, ret.
  destruct (Mock r) eqn:Hm.
  - rewrite (checkMount_mock _ _ _ Hm) in E. discriminate.
  - destruct (checkMount_real r (MountPath info) w Hm) as (st & e & E').
    rewrite E' in E. injection E as _ _ <-. cbn [host trace].
    now rewrite <- app_assoc.
Qed.

(** *** [unmount] and the removal of the mount directory *)

Lemma rmdir_returns r p w :
  exists e h t, rmdir r p w = (Returned e, {| host := h; trace := trace w ++ [t] |}).
Proof.
  unfold rmdir. destruct (Mock r).
  - now exists None, (host w), (EvLogInfo (Lit "rmdir") [("Path", p)]).
  - unfold hostCall. destruct (osRemove p (host w)) as [e h].
    now exists e, h, (EvRemove p).
Qed.

(** Once the unmounting and the deactivation are through, [unmount]
    returns no error whatever the removal of the directory returns. *)
Lemma unmount_tail r (info : ClientMountInfo) w st w1 w2 w3 :
  checkMount r (MountPath info) w = (Returned (st, None), w1) ->
  (if String.eqb st ClientMountStateMounted
   then exists output,
          run r ("umount " +:+ MountPath info) w1 = (Returned (output, None), w2)
   else w2 = w1) ->
  (if String.eqb (DeviceType (Device info)) ClientMountDeviceTypeLVM
   then configureLVMDevice r (LVM (Device info)) false
          (String.eqb (FsType info) "gfs2") w2 = (Returned None, w3)
   else w3 = w2) ->
  unmount r info w
  = (let (removed, w3') := rmdir r (MountPath info) w3 in
     (Returned None,
      {| host := host w3';
         trace :=
           trace w3'
           ++ match removed with
              | Returned (Some e) =>
                  [EvLogError e "Unable to remove mount directory"
                              [("Path", MountPath info)]]
              | _ => []
              end
           ++ [EvLogInfo (Lit "Unmounted file system")
                         [("mount path", MountPath info)]] |})).
Proof.
  intros Ec Eu Ed. unfold unmount. rewrite (bind_returned _ _ _ _ _ Ec).
  cbv beta iota.
  assert (Eu' :
    (if String.eqb st ClientMountStateMounted
     then bind (run r ("umount " +:+ MountPath info))
            (fun res' =>
               let (output, err') := res' in
               match err' with
               | Some e =>
                   bind (logInfo (Lit "Could not unmount file system")
                           [("mount path", MountPath info);
                            ("Error output", output)])
                        (fun _ => ret (Some e))
               | None => ret None
               end)
     else ret None) w1 = (Returned (@None error), w2)).
  { destruct (String.eqb st ClientMountStateMounted).
    - destruct Eu as [output Eu]. now rewrite (bind_returned _ _ _ _ _ Eu).
    - now subst. }
  rewrite (bind_returned _ _ _ _ _ Eu'). cbv beta iota.
  assert (Ed' :
    (if String.eqb (DeviceType (Device info)) ClientMountDeviceTypeLVM
     then bind (configureLVMDevice r (LVM (Device info)) false
                  (String.eqb (FsType info) "gfs2"))
            (fun err' =>
               match err' with
               | Some e =>
                   bind (logError e "Could not deactivate LVM volume"
                           [("mount path", MountPath info)])
                        (fun _ => ret (Some e))
               | None => ret None
               end)
     else ret None) w2 = (Returned (@None error), w3)).
  { destruct (String.eqb (DeviceType (Device info)) ClientMountDeviceTypeLVM).
    - now rewrite (bind_returned _ _ _ _ _ Ed).
    - now subst. }
  rewrite (bind_returned _ _ _ _ _ Ed'). cbv beta iota.
  destruct (rmdir_returns r (MountPath info) w3) as (e & h & t & Er).
  rewrite (bind_returned _ _ _ _ _ Er), Er.
  destruct e as [e|]; unfold bind, logError, logInfo, emit, ret; cbn [host trace].
  - now rewrite <- !app_assoc.
  - now rewrite <- !app_assoc.
Qed.

Lemma setReady_in (i : nat) (v : bool) (o : ClientMount) w s :
  StatusMounts (Status o) !! i = Some s ->
  setReady i v {| obj := o; world := w |}
  = (Returned tt,
     {| obj := setStatusMounts o (<[i := withReady s v]> (StatusMounts (Status o)));
        world := w |}).
Proof.
  intros E. unfold setReady, bind, statusAt, modifyObj. cbn [obj world].
  now rewrite E.
Qed.

Lemma setReady_out (i : nat) (v : bool) (o : ClientMount) w :
  StatusMounts (Status o) !! i = None ->
  setReady i v {| obj := o; world := w |}
  = (Panicked (IndexOutOfRange i (length (StatusMounts (Status o)))),
     {| obj := o; world := w |}).
Proof.
  intros E. unfold setReady, bind, statusAt. cbn [obj world]. now rewrite E.
Qed.

(** C8: when the probe succeeds, the unmount command (run if the path
    was mounted) succeeds and the deactivation (run if the device is a
    volume) succeeds, [unmount] returns no error whether or not the
    removal of the mount directory fails; a failed removal leaves a line
    in the log and nothing in the result, and the entry is marked ready
    by the pass. *)
Theorem unmount_ignores_rmdir_failure r (info : ClientMountInfo) w st w1 w2 w3 :
  checkMount r (MountPath info) w = (Returned (st, None), w1) ->
  (if String.eqb st ClientMountStateMounted
   then exists output,
          run r ("umount " +:+ MountPath info) w1 = (Returned (output, None), w2)
   else w2 = w1) ->
  (if String.eqb (DeviceType (Device info)) ClientMountDeviceTypeLVM
   then configureLVMDevice r (LVM (Device info)) false
          (String.eqb (FsType info) "gfs2") w2 = (Returned None, w3)
   else w3 = w2) ->
  exists w4,
    unmount r info w = (Returned None, w4)
    /\ (forall e w3',
          rmdir r (MountPath info) w3 = (Returned (Some e), w3') ->
          host w4 = host w3'
          /\ trace w4
             = trace w3'
               ++ [EvLogError e "Unable to remove mount directory"
                              [("Path", MountPath info)];
                   EvLogInfo (Lit "Unmounted file system")
                             [("mount path", MountPath info)]])
    /\ (forall o i s,
          StatusMounts (Status o) !! i = Some s ->
          unmountAllLoop r i [info] None {| obj := o; world := w |}
          = (Returned None,
             {| obj := setStatusMounts o
                         (<[i := withReady s true]> (StatusMounts (Status o)));
                world := w4 |})).
Proof.
  intros Ec Eu Ed. pose proof (unmount_tail r info w st w1 w2 w3 Ec Eu Ed) as E.
  destruct (rmdir r (MountPath info) w3) as [removed w3'] eqn:Er.
  eexists. split; [exact E|]. split.
  - intros e w' [= -> ->]. cbn [host trace]. now split.
  - intros o i s Hs. cbn [unmountAllLoop]. unfold liftWorld.
    unfold bind at 1. cbn [world obj]. rewrite E.
    unfold bind. rewrite (setReady_in _ _ _ _ _ Hs). reflexivity.
Qed.

(** *** The aggregations *)


(** Entry [i] is run in the world the entries before it left, whatever
    they returned, and its result is [errs !! i]. *)
Lemma runEntries_split (op : ClientMountInfo -> M (World Host) (option error))
    before m after w errs w' :
  runEntries op (before ++ m :: after) w = Some (errs, w') ->
  exists es1 w1 e w2 es2,
    runEntries op before w = Some (es1, w1)
    /\ op m w1 = (Returned e, w2)
    /\ runEntries op after w2 = Some (es2, w')
    /\ errs = es1 ++ e :: es2
    /\ errs !! length before = Some e.
Proof.
  revert w errs. induction before as [|b bs IH]; intros w errs; cbn [app runEntries].
  - destruct (op m w) as [[e|p] w1] eqn:Eo; [|discriminate].
    destruct (runEntries op after w1) as [[es w2]|] eqn:E; [|discriminate].
    intros [= <- <-]. now exists [], w, e, w1, es.
  - destruct (op b w) as [[e|p] w1] eqn:Eo; [|discriminate].
    destruct (runEntries op (bs ++ m :: after) w1) as [[es w2]|] eqn:E;
      [|discriminate].
    intros [= <- <-]. destruct (IH _ _ E) as (es1 & w3 & e' & w4 & es2 & A & B & C & D & F).
    exists (e :: es1), w3, e', w4, es2. rewrite A. repeat split; try assumption.
    now rewrite D.
Qed.







Lemma firstFrom_cons first e es :
  firstFrom (firstOf first e) es = firstFrom first (e :: es).
Proof. now destruct first, e. Qed.

Lemma mountAllLoop_returns r mounts i first (o : ClientMount) w errs w' :
  (i + length mounts <= length (StatusMounts (Status o)))%nat ->
  runEntries (mount r) mounts w = Some (errs, w') ->
  mountAllLoop r i mounts first {| obj := o; world := w |}
  = (Returned (firstFrom first errs),
     {| obj := setStatusMounts o (markReady i errs (StatusMounts (Status o)));
        world := w' |}).
Proof.
  revert i first o w errs.
  induction mounts as [|m ms IH]; intros i first o w errs; cbn [mountAllLoop].
  - intros _ [= <- <-]. destruct first, o as [? ? ? ? ? []]; reflexivity.
  - intros L E; cbn [runEntries] in E.
    destruct (mount r m w) as [[e|?] w1] eqn:Eo; [|discriminate].
    destruct (runEntries (mount r) ms w1) as [[es w2]|] eqn:Er; [|discriminate].
    injection E as <- <-; cbn [length] in L.
    destruct (lookup_lt_is_Some_2 (StatusMounts (Status o)) i ltac:(lia))
      as [s Es].
    unfold liftWorld; unfold bind at 1; cbn [world obj]; rewrite Eo.
    unfold bind at 1.
    match goal with
    | |- context [match e with Some _ => ?a | None => ?b end] =>
        replace (match e with Some _ => a | None => b end)
          with (setReady (Host:=Host) i (succeeded e)) by now destruct e
    end.
    rewrite (setReady_in _ _ _ _ _ Es).
    rewrite (IH (S i) (firstOf first e) _ w1 es);
      [|cbn [StatusMounts Status setStatusMounts setStatus];
        rewrite length_insert; lia|exact Er].
    rewrite firstFrom_cons.
    cbn [markReady StatusMounts Status setStatusMounts setStatus].
    rewrite Es. reflexivity.
Qed.

Lemma unmountAllLoop_returns r mounts i first (o : ClientMount) w errs w' :
  (i + length mounts <= length (StatusMounts (Status o)))%nat ->
  runEntries (unmount r) mounts w = Some (errs, w') ->
  unmountAllLoop r i mounts first {| obj := o; world := w |}
  = (Returned (firstFrom first errs),
     {| obj := setStatusMounts o (markReady i errs (StatusMounts (Status o)));
        world := w' |}).
Proof.
  revert i first o w errs.
  induction mounts as [|m ms IH]; intros i first o w errs; cbn [unmountAllLoop].
  - intros _ [= <- <-]. destruct first, o as [? ? ? ? ? []]; reflexivity.
  - intros L E; cbn [runEntries] in E.
    destruct (unmount r m w) as [[e|?] w1] eqn:Eo; [|discriminate].
    destruct (runEntries (unmount r) ms w1) as [[es w2]|] eqn:Er; [|discriminate].
    injection E as <- <-; cbn [length] in L.
    destruct (lookup_lt_is_Some_2 (StatusMounts (Status o)) i ltac:(lia))
      as [s Es].
    unfold liftWorld; unfold bind at 1; cbn [world obj]; rewrite Eo.
    unfold bind at 1.
    match goal with
    | |- context [match e with Some _ => ?a | None => ?b end] =>
        replace (match e with Some _ => a | None => b end)
          with (setReady (Host:=Host) i (succeeded e)) by now destruct e
    end.
    rewrite (setReady_in _ _ _ _ _ Es).
    rewrite (IH (S i) (firstOf first e) _ w1 es);
      [|cbn [StatusMounts Status setStatusMounts setStatus];
        rewrite length_insert; lia|exact Er].
    rewrite firstFrom_cons.
    cbn [markReady StatusMounts Status setStatusMounts setStatus].
    rewrite Es. reflexivity.
Qed.


(** A pass stops at the first per-entry operation that panics: the
    entries after it are not run. *)
Lemma mountAllLoop_panics r mounts i first (o : ClientMount) w :
  (i + length mounts <= length (StatusMounts (Status o)))%nat ->
  runEntries (mount r) mounts w = None ->
  exists q p, mountAllLoop r i mounts first {| obj := o; world := w |}
              = (Panicked q, p).
Proof.
  revert i first o w.
  induction mounts as [|m ms IH]; intros i first o w L E; cbn [runEntries] in E;
    [discriminate|].
  cbn [mountAllLoop length] in *.
  unfold liftWorld; unfold bind at 1; cbn [world obj].
  destruct (mount r m w) as [[e|q] w1] eqn:Eo; [|eauto].
  destruct (runEntries (mount r) ms w1) as [[es w2]|] eqn:Er; [discriminate|].
  destruct (lookup_lt_is_Some_2 (StatusMounts (Status o)) i ltac:(lia)) as [s Es].
  unfold bind at 1.
  match goal with
  | |- context [match e with Some _ => ?a | None => ?b end] =>
      replace (match e with Some _ => a | None => b end)
        with (setReady (Host:=Host) i (succeeded e)) by now destruct e
  end.
  rewrite (setReady_in _ _ _ _ _ Es).
  apply IH; [|exact Er].
  cbn [StatusMounts Status setStatusMounts setStatus]. rewrite length_insert. lia.
Qed.

Lemma unmountAllLoop_panics r mounts i first (o : ClientMount) w :
  (i + length mounts <= length (StatusMounts (Status o)))%nat ->
  runEntries (unmount r) mounts w = None ->
  exists q p, unmountAllLoop r i mounts first {| obj := o; world := w |}
              = (Panicked q, p).
Proof.
  revert i first o w.
  induction mounts as [|m ms IH]; intros i first o w L E; cbn [runEntries] in E;
    [discriminate|].
  cbn [unmountAllLoop length] in *.
  unfold liftWorld; unfold bind at 1; cbn [world obj].
  destruct (unmount r m w) as [[e|q] w1] eqn:Eo; [|eauto].
  destruct (runEntries (unmount r) ms w1) as [[es w2]|] eqn:Er; [discriminate|].
  destruct (lookup_lt_is_Some_2 (StatusMounts (Status o)) i ltac:(lia)) as [s Es].
  unfold bind at 1.
  match goal with
  | |- context [match e with Some _ => ?a | None => ?b end] =>
      replace (match e with Some _ => a | None => b end)
        with (setReady (Host:=Host) i (succeeded e)) by now destruct e
  end.
  rewrite (setReady_in _ _ _ _ _ Es).
  apply IH; [|exact Er].
  cbn [StatusMounts Status setStatusMounts setStatus]. rewrite length_insert. lia.
Qed.

(** On a status list with an entry per mount, a pass returns exactly when
    every per-entry operation does. *)
Lemma pass_returns_iff r (k : Operation) (o : ClientMount) w :
  (length (Mounts (Spec o)) <= length (StatusMounts (Status o)))%nat ->
  (exists res p, passOp r k {| obj := o; world := w |} = (Returned res, p))
  <-> exists errs w', runEntries (entryOp r k) (Mounts (Spec o)) w = Some (errs, w').
Proof.
  intros L. split.
  - intros (res & p & E).
    destruct (runEntries (entryOp r k) (Mounts (Spec o)) w) as [[errs w']|] eqn:Er;
      [eauto|exfalso].
    destruct k; cbn [passOp entryOp] in *.
    + destruct (mountAllLoop_panics r _ 0 None o w L Er) as (q & p' & E').
      unfold mountAll, getObj in E. unfold bind at 1 in E. cbn [obj] in E. congruence.
    + destruct (unmountAllLoop_panics r _ 0 None o w L Er) as (q & p' & E').
      unfold unmountAll, getObj in E. unfold bind at 1 in E. cbn [obj] in E.
      congruence.
  - intros (errs & w' & Er).
    destruct k; cbn [passOp entryOp] in *.
    + unfold mountAll, getObj. unfold bind at 1. cbn [obj].
      rewrite (mountAllLoop_returns r _ 0 None o w errs w' L Er). eauto.
    + unfold unmountAll, getObj. unfold bind at 1. cbn [obj].
      rewrite (unmountAllLoop_returns r _ 0 None o w errs w' L Er). eauto.
Qed.

(** A status list shorter than the list of mounts makes the pass panic at
    the first entry without a status: its operation has been run, its
    result is not recorded, and the entries after it are not run. *)
Lemma mountAllLoop_short_status r m ms i first (o : ClientMount) w e w1 :
  (length (StatusMounts (Status o)) <= i)%nat ->
  mount r m w = (Returned e, w1) ->
  mountAllLoop r i (m :: ms) first {| obj := o; world := w |}
  = (Panicked (IndexOutOfRange i (length (StatusMounts (Status o)))),
     {| obj := o; world := w1 |}).
Proof.
  intros L Eo. cbn [mountAllLoop].
  unfold liftWorld; unfold bind at 1; cbn [world obj]. rewrite Eo.
  unfold bind at 1.
  match goal with
  | |- context [match e with Some _ => ?a | None => ?b end] =>
      replace (match e with Some _ => a | None => b end)
        with (setReady (Host:=Host) i (succeeded e)) by now destruct e
  end.
  rewrite (setReady_out _ _ _ _ (proj2 (lookup_ge_None _ _) L)). reflexivity.
Qed.

(** *** The reconciliation pass: status re-creation and reset *)

Lemma createStatus_length (o : ClientMount) :
  length (StatusMounts (Status (createStatus o))) = length (Mounts (Spec o)).
Proof.
  unfold createStatus.
  destruct (Nat.eqb_spec (length (StatusMounts (Status o))) (length (Mounts (Spec o))))
    as [E|N]; cbn [negb]; [exact E|].
  cbn [StatusMounts Status setStatusMounts setStatus]. apply repeat_length.
Qed.

Lemma createStatus_spec (o : ClientMount) : Spec (createStatus o) = Spec o.
Proof. unfold createStatus. now destruct (negb _). Qed.

Lemma Dws_createStatus (o : ClientMount) : Dws.createStatus o = createStatus o.
Proof. reflexivity. Qed.

Lemma recordedState_first (o : ClientMount) st :
  recordedState o = Some st ->
  exists first,
    StatusMounts (Status (createStatus o)) !! 0%nat = Some first
    /\ State first = st.
Proof.
  unfold recordedState.
  destruct (StatusMounts (Status (createStatus o))) as [|f l]; [discriminate|].
  intros [= <-]. now exists f.
Qed.

Lemma recordedState_none (o : ClientMount) :
  recordedState o = None <-> Mounts (Spec o) = [].
Proof.
  unfold recordedState. pose proof (createStatus_length o) as L.
  destruct (StatusMounts (Status (createStatus o))) as [|f l];
    destruct (Mounts (Spec o)); try discriminate; split; congruence.
Qed.



(** *** Where a pass can panic *)

Lemma bind_panic_inv {S A B : Type} (m : M S A) (k : A -> M S B) s q s' :
  bind m k s = (Panicked q, s') ->
  m s = (Panicked q, s')
  \/ exists a s1, m s = (Returned a, s1) /\ k a s1 = (Panicked q, s').
Proof.
  unfold bind. destruct (m s) as [[a|p] s1]; intros E; [right|left].
  - now exists a, s1.
  - now injection E as <- <-.
Qed.

Lemma avoids_ret {S A : Type} (a : A) : avoidsRead0 (@ret S A a).
Proof. intros s q s'. discriminate. Qed.

Lemma avoids_bind {S A B : Type} (m : M S A) (k : A -> M S B) :
  avoidsRead0 m -> (forall a, avoidsRead0 (k a)) -> avoidsRead0 (bind m k).
Proof.
  intros Hm Hk s q s' E. apply bind_panic_inv in E as [E|(a & s1 & _ & E)].
  - exact (Hm _ _ _ E).
  - exact (Hk _ _ _ _ E).
Qed.

Lemma avoids_emit (e : Event) : avoidsRead0 (emit (Host:=Host) e).
Proof. intros s q s'. discriminate. Qed.

Lemma avoids_hostCall {A : Type} (e : Event) (f : Host -> A * Host) :
  avoidsRead0 (hostCall e f).
Proof. intros s q s'. unfold hostCall. destruct (f (host s)). discriminate. Qed.

Lemma avoids_run r c : avoidsRead0 (run r c).
Proof. intros s q s' E. now apply run_never_panics in E. Qed.

Lemma avoids_deref {S A : Type} (p : option A) : avoidsRead0 (@deref S A p).
Proof. intros s q s'. destruct p; cbn; [discriminate|]. now intros [= <- _]. Qed.

Lemma avoids_indexByte4 {S : Type} (x : string) : avoidsRead0 (@indexByte S x 4).
Proof.
  intros s q s'. unfold indexByte. destruct (GoStrings.byteAt x 4); cbn;
    [discriminate|]. now intros [= <- _].
Qed.

Ltac avoid :=
  repeat first
    [ apply avoids_ret
    | apply avoids_emit
    | apply avoids_hostCall
    | apply avoids_run
    | apply avoids_deref
    | apply avoids_indexByte4
    | apply avoids_bind; [|intros ?]
    | match goal with
      | |- avoidsRead0 (if ?b then _ else _) => destruct b
      | |- avoidsRead0 (match ?x with _ => _ end) => destruct x
      end ].

Lemma avoids_changeActivation r l act sh isActive :
  avoidsRead0 (changeActivation r l act sh isActive).
Proof. unfold changeActivation. avoid. Qed.

Lemma avoids_lvsLoop r lvm act sh out lines :
  avoidsRead0 (lvsLoop r lvm act sh out lines).
Proof.
  induction lines as [|x xs IH]; cbn [lvsLoop]; unfold logInfo.
  - avoid.
  - destruct (length (GoStrings.Fields x) <? 3)%nat; [exact IH|].
    apply avoids_bind; [avoid|]. intros l.
    destruct (negb _); [exact IH|]. destruct (negb _); [exact IH|].
    apply avoids_bind; [avoid|]. intros c. apply avoids_changeActivation.
Qed.

Lemma avoids_configureLVMDevice r lvm act sh :
  avoidsRead0 (configureLVMDevice r lvm act sh).
Proof.
  unfold configureLVMDevice. apply avoids_bind; [avoid|]. intros [o [e|]]; [avoid|].
  destruct (Mock r); [avoid|]. apply avoids_lvsLoop.
Qed.

Lemma avoids_checkMount r p : avoidsRead0 (checkMount r p).
Proof. unfold checkMount. avoid. Qed.

Lemma avoids_getDevice r info : avoidsRead0 (getDevice r info).
Proof.
  unfold getDevice.
  destruct (String.eqb _ ClientMountDeviceTypeLustre); [avoid|].
  destruct (String.eqb _ ClientMountDeviceTypeLVM); [|avoid].
  apply avoids_bind; [apply avoids_configureLVMDevice|]. intros [e|]; avoid.
Qed.

Lemma avoids_createTarget r info device : avoidsRead0 (createTarget r info device).
Proof. unfold createTarget, mkdir, createFile, logError, logInfo. avoid. Qed.

Lemma avoids_mount r info : avoidsRead0 (mount r info).
Proof.
  unfold mount. apply avoids_bind; [apply avoids_checkMount|].
  intros [st [e|]]; [avoid|]. unfold logInfo.
  destruct (String.eqb st ClientMountStateMounted); [avoid|].
  apply avoids_bind; [apply avoids_getDevice|]. intros [device [e|]]; [avoid|].
  apply avoids_bind; [apply avoids_createTarget|]. intros [e|]; avoid.
Qed.

Lemma avoids_unmount r info : avoidsRead0 (unmount r info).
Proof.
  unfold unmount. apply avoids_bind; [apply avoids_checkMount|].
  intros [st [e|]]; [avoid|]. unfold logInfo, logError, rmdir.
  apply avoids_bind; [avoid|]. intros [e|]; [avoid|].
  apply avoids_bind.
  - destruct (String.eqb _ ClientMountDeviceTypeLVM); [|avoid].
    apply avoids_bind; [apply avoids_configureLVMDevice|]. intros [e|]; avoid.
  - intros [e|]; avoid.
Qed.

Lemma setReady_panic_reason (i : nat) (v : bool) (p : Pass Host) q p' :
  setReady i v p = (Panicked q, p') ->
  q = IndexOutOfRange i (length (StatusMounts (Status (obj p)))).
Proof.
  unfold setReady, bind, statusAt, modifyObj.
  destruct (StatusMounts (Status (obj p)) !! i); [discriminate|].
  now intros [= <- _].
Qed.

Lemma setReady_keeps_length (i : nat) (v : bool) (p p' : Pass Host) :
  setReady i v p = (Returned tt, p') ->
  length (StatusMounts (Status (obj p'))) = length (StatusMounts (Status (obj p))).
Proof.
  unfold setReady, bind, statusAt, modifyObj.
  destruct (StatusMounts (Status (obj p)) !! i); [|discriminate].
  intros [= <-]. cbn. apply length_insert.
Qed.

Lemma mountAllLoop_avoids r mounts i first (p : Pass Host) q p' :
  (1 <= length (StatusMounts (Status (obj p))))%nat ->
  mountAllLoop r i mounts first p = (Panicked q, p') ->
  q <> IndexOutOfRange 0 0.
Proof.
  revert i first p. induction mounts as [|m ms IH]; intros i first p L;
    cbn [mountAllLoop]; [discriminate|].
  intros E. apply bind_panic_inv in E as [E|(e & p1 & E1 & E)].
  - unfold liftWorld in E. destruct (mount r m (world p)) as [o w1] eqn:Em.
    injection E as -> _. exact (avoids_mount _ _ _ _ _ Em).
  - assert (Lp : length (StatusMounts (Status (obj p1)))
                 = length (StatusMounts (Status (obj p)))).
    { unfold liftWorld in E1. destruct (mount r m (world p)).
      now injection E1 as _ <-. }
    apply bind_panic_inv in E as [E|([] & p2 & E2 & E)].
    + assert (Eq : q = IndexOutOfRange i (length (StatusMounts (Status (obj p1)))))
        by (destruct e; exact (setReady_panic_reason _ _ _ _ _ E)).
      rewrite Eq, Lp. intros [= _ Z]. lia.
    + apply (IH (S i) (firstOf first e) p2); [|exact E].
      assert (L2 : length (StatusMounts (Status (obj p2)))
                   = length (StatusMounts (Status (obj p1))))
        by (destruct e; exact (setReady_keeps_length _ _ _ _ E2)).
      lia.
Qed.

Lemma unmountAllLoop_avoids r mounts i first (p : Pass Host) q p' :
  (1 <= length (StatusMounts (Status (obj p))))%nat ->
  unmountAllLoop r i mounts first p = (Panicked q, p') ->
  q <> IndexOutOfRange 0 0.
Proof.
  revert i first p. induction mounts as [|m ms IH]; intros i first p L;
    cbn [unmountAllLoop]; [discriminate|].
  intros E. apply bind_panic_inv in E as [E|(e & p1 & E1 & E)].
  - unfold liftWorld in E. destruct (unmount r m (world p)) as [o w1] eqn:Em.
    injection E as -> _. exact (avoids_unmount _ _ _ _ _ Em).
  - assert (Lp : length (StatusMounts (Status (obj p1)))
                 = length (StatusMounts (Status (obj p)))).
    { unfold liftWorld in E1. destruct (unmount r m (world p)).
      now injection E1 as _ <-. }
    apply bind_panic_inv in E as [E|([] & p2 & E2 & E)].
    + assert (Eq : q = IndexOutOfRange i (length (StatusMounts (Status (obj p1)))))
        by (destruct e; exact (setReady_panic_reason _ _ _ _ _ E)).
      rewrite Eq, Lp. intros [= _ Z]. lia.
    + apply (IH (S i) (firstOf first e) p2); [|exact E].
      assert (L2 : length (StatusMounts (Status (obj p2)))
                   = length (StatusMounts (Status (obj p1))))
        by (destruct e; exact (setReady_keeps_length _ _ _ _ E2)).
      lia.
Qed.

Lemma Update_returns (p : Pass Host) :
  exists e p', Update p = (Returned e, p').
Proof.
  unfold Update. destruct (apiUpdate (obj p) (host (world p))) as [[o e] h]. eauto.
Qed.

(** The read of [Status.Mounts[0]] of both controllers, on a resource that
    is not being deleted. *)
Lemma status_read (o : ClientMount) w :
  bind (modifyObj createStatus) (fun _ => statusAt 0) {| obj := o; world := w |}
  = match StatusMounts (Status (createStatus o)) with
    | first :: _ => (Returned first, {| obj := createStatus o; world := w |})
    | [] => (Panicked (IndexOutOfRange 0 0), {| obj := createStatus o; world := w |})
    end.
Proof.
  unfold bind, modifyObj, statusAt. cbn [obj world].
  now destruct (StatusMounts (Status (createStatus o))).
Qed.

Lemma mountAll_avoids r (p : Pass Host) q p' :
  (1 <= length (StatusMounts (Status (obj p))))%nat ->
  mountAll r p = (Panicked q, p') -> q <> IndexOutOfRange 0 0.
Proof. intros L E. exact (mountAllLoop_avoids _ _ _ _ _ _ _ L E). Qed.

Lemma unmountAll_avoids r (p : Pass Host) q p' :
  (1 <= length (StatusMounts (Status (obj p))))%nat ->
  unmountAll r p = (Panicked q, p') -> q <> IndexOutOfRange 0 0.
Proof. intros L E. exact (unmountAllLoop_avoids _ _ _ _ _ _ _ L E). Qed.

Ltac inv_bind E :=
  let E1 := fresh "E1" in
  apply bind_panic_inv in E as [E|(? & ? & E1 & E)].

Lemma modifyObj_inv (f : ClientMount -> ClientMount) (p : Pass Host) q p' :
  modifyObj f p <> (Panicked q, p').
Proof. discriminate. Qed.

(** With a mount or more, the daemon's pass does not panic on the read of
    [Status.Mounts[0]]. *)
Lemma reconcileBody_read_in_range r (o : ClientMount) w q p' :
  IsZero (DeletionTimestamp o) = true ->
  Mounts (Spec o) <> [] ->
  reconcileBody r {| obj := o; world := w |} = (Panicked q, p') ->
  q <> IndexOutOfRange 0 0.
Proof.
  intros Hz Hn E. unfold reconcileBody in E.
  unfold bind at 1, getObj in E. cbn [obj] in E. rewrite Hz in E. cbn [negb] in E.
  unfold bind at 1, modifyObj at 1 in E. cbn [obj world] in E.
  pose proof (createStatus_length o) as Lc.
  unfold bind at 1, statusAt in E. cbn [obj] in E.
  destruct (StatusMounts (Status (createStatus o))) as [|first l] eqn:Es.
  { destruct (Mounts (Spec o)); [congruence|discriminate]. }
  cbn [lookup list_lookup] in E.
  destruct (negb (String.eqb (State first) (DesiredState (Spec o))));
    [discriminate|].
  destruct (negb (ContainsFinalizer o finalizerClientMount)).
  - unfold bind at 1, modifyObj in E. unfold bind in E.
    match type of E with
    | context [Update ?p] => destruct (Update_returns p) as (e & p1 & Eu)
    end.
    rewrite Eu in E. destruct e; discriminate.
  - unfold bind at 1, modifyObj at 1 in E. cbn [obj world] in E.
    set (p0 := {| obj := setStatusError (createStatus o) None; world := w |})
      in E.
    assert (L0 : (1 <= length (StatusMounts (Status (obj p0))))%nat)
      by (cbn; rewrite Es; cbn; lia).
    clearbody p0.
    destruct (String.eqb _ ClientMountStateMounted).
    + inv_bind E.
      * exact (mountAll_avoids _ _ _ _ L0 E).
      * destruct x; discriminate.
    + destruct (String.eqb _ ClientMountStateUnmounted); [|discriminate].
      inv_bind E.
      * exact (unmountAll_avoids _ _ _ _ L0 E).
      * destruct x; discriminate.
Qed.

Lemma readyLoop_avoids mounts i (p : Pass Host) q p' :
  (1 <= length (StatusMounts (Status (obj p))))%nat ->
  Dws.readyLoop i mounts p = (Panicked q, p') ->
  q <> IndexOutOfRange 0 0.
Proof.
  revert i p. induction mounts as [|m ms IH]; intros i p L;
    cbn [Dws.readyLoop]; [discriminate|].
  unfold bind at 1, Dws.setReadyMessage. unfold bind at 1, statusAt, modifyObj.
  destruct (StatusMounts (Status (obj p)) !! i) as [s|] eqn:Es.
  - apply IH. cbn. rewrite length_insert. exact L.
  - intros [= <- _] [= _ Z]. lia.
Qed.

(** With a mount or more, the API controller's pass does not panic on the
    read of [Status.Mounts[0]]. *)
Lemma Dws_reconcileBody_read_in_range (o : ClientMount) w q p' :
  IsZero (DeletionTimestamp o) = true ->
  Mounts (Spec o) <> [] ->
  Dws.reconcileBody {| obj := o; world := w |} = (Panicked q, p') ->
  q <> IndexOutOfRange 0 0.
Proof.
  intros Hz Hn E. unfold Dws.reconcileBody in E.
  unfold bind at 1, getObj in E. cbn [obj] in E. rewrite Hz in E. cbn [negb] in E.
  unfold bind at 1, modifyObj at 1 in E. cbn [obj world] in E.
  rewrite Dws_createStatus in E.
  pose proof (createStatus_length o) as Lc.
  unfold bind at 1, statusAt in E. cbn [obj] in E.
  destruct (StatusMounts (Status (createStatus o))) as [|first l] eqn:Es.
  { destruct (Mounts (Spec o)); [congruence|discriminate]. }
  cbn [lookup list_lookup] in E.
  destruct (negb (String.eqb (State first) (DesiredState (Spec o))));
    [discriminate|].
  destruct (negb (ContainsFinalizer o Dws.finalizerClientMount)).
  - unfold bind at 1, modifyObj in E. unfold bind in E.
    match type of E with
    | context [Update ?p] => destruct (Update_returns p) as (e & p1 & Eu)
    end.
    rewrite Eu in E. destruct e; discriminate.
  - unfold bind at 1, getObj in E. cbn [obj] in E.
    inv_bind E; [|discriminate].
    revert E. apply readyLoop_avoids. cbn. rewrite Es. cbn. lia.
Qed.

(** C9: on a resource that is not being deleted, either controller reads
    [Status.Mounts[0]] right after giving the status list the length of
    the list of mounts.  The pass panics with an index 0 out of range for
    length 0 exactly when the resource has no mount: without a mount the
    read panics, with one or more it is in range, and nothing else in the
    pass panics that way.  [Reconcile] as a whole, on fetching a resource
    without mounts, panics too, whatever its deferred status update
    does. *)
Theorem reconcile_needs_a_mount r (o : ClientMount) w :
  IsZero (DeletionTimestamp o) = true ->
  (Mounts (Spec o) = []
   <-> exists p, reconcileBody r {| obj := o; world := w |}
                 = (Panicked (IndexOutOfRange 0 0), p))
  /\ (Mounts (Spec o) = []
      <-> exists p, Dws.reconcileBody {| obj := o; world := w |}
                    = (Panicked (IndexOutOfRange 0 0), p))
  /\ (Mounts (Spec o) = [] ->
      forall closeUpdater req w0,
        apiGet req (host w0) = (inl o, host w) ->
        trace w = trace w0 ++ [EvGet req] ->
        (exists q w', Reconcile closeUpdater r req w0 = (Panicked q, w'))
        /\ (exists q w', Dws.Reconcile req w0 = (Panicked q, w'))).
Proof.
  intros Hz.
  assert (Empty : Mounts (Spec o) = [] ->
                  StatusMounts (Status (createStatus o)) = []).
  { intros E. pose proof (createStatus_length o) as Lc. rewrite E in Lc.
    now destruct (StatusMounts (Status (createStatus o))). }
  assert (Pd : Mounts (Spec o) = [] ->
               reconcileBody r {| obj := o; world := w |}
               = (Panicked (IndexOutOfRange 0 0),
                  {| obj := createStatus o; world := w |})).
  { intros E. unfold reconcileBody. unfold bind at 1, getObj. cbn [obj].
    rewrite Hz. cbn [negb]. unfold bind at 1, modifyObj at 1. cbn [obj world].
    unfold bind at 1, statusAt. cbn [obj]. now rewrite (Empty E). }
  assert (Pw : Mounts (Spec o) = [] ->
               Dws.reconcileBody {| obj := o; world := w |}
               = (Panicked (IndexOutOfRange 0 0),
                  {| obj := createStatus o; world := w |})).
  { intros E. unfold Dws.reconcileBody. unfold bind at 1, getObj. cbn [obj].
    rewrite Hz. cbn [negb]. unfold bind at 1, modifyObj at 1. cbn [obj world].
    rewrite Dws_createStatus.
    unfold bind at 1, statusAt. cbn [obj]. now rewrite (Empty E). }
  split; [|split].
  - split; [eauto|]. intros (p & E).
    destruct (Mounts (Spec o)) as [|m ms] eqn:Em; [reflexivity|exfalso].
    refine (reconcileBody_read_in_range r o w _ _ Hz _ E eq_refl).
    rewrite Em. discriminate.
  - split; [eauto|]. intros (p & E).
    destruct (Mounts (Spec o)) as [|m ms] eqn:Em; [reflexivity|exfalso].
    refine (Dws_reconcileBody_read_in_range o w _ _ Hz _ E eq_refl).
    rewrite Em. discriminate.
  - intros E closeUpdater req w0 Hg Ht.
    assert (Ew : {| host := host w; trace := trace w0 ++ [EvGet req] |} = w)
      by (destruct w; cbn in *; now subst).
    split.
    + unfold Reconcile, bind, hostCall. rewrite Hg, Ew, (Pd E).
      destruct (closeUpdater (Status o) None {| obj := createStatus o; world := w |})
        as [[e|q] p']; eauto.
    + unfold Dws.Reconcile, bind at 1, hostCall. rewrite Hg, Ew, (Pw E).
      destruct (Dws.close (Status o) {| obj := createStatus o; world := w |})
        as [[e|q] p']; eauto.
Qed.

(** In mock mode [configureLVMDevice] logs the listing and returns. *)
Lemma configureLVMDevice_mock r lvm act sh w :
  Mock r = true ->
  configureLVMDevice r lvm act sh w
  = (Returned None,
     {| host := host w;
        trace := trace w ++ [EvLogInfo (Lit "Run") [("Command", lvsCommand)]] |}).
Proof.
  intros Hm. unfold configureLVMDevice.
  rewrite (bind_returned _ _ _ _ _ (run_mock _ _ _ Hm)). now rewrite Hm.
Qed.

End Proofs.

(** ** The theorems on concrete hosts and resources *)

Section Scenarios.
Import MountDaemon.
Import Sim.

Local Abbreviation pass o h := {| obj := o; world := start h |}.




(** The daemon's reset leaves the message of an entry as it was; the API
    controller's reset clears it. *)
Example reset_message :
  map Message (StatusMounts (Status (obj (snd
    (reconcileBody real (pass changed hostMounted)))))) = ["old"; "old"]
  /\ map Message (StatusMounts (Status (obj (snd
       (Dws.reconcileBody (pass changed hostMounted)))))) = [""; ""].
Proof. split; reflexivity. Qed.

(** The shared volume [vg0/lv0] is inactive on [hostIdle] and active on
    [hostMounted]. *)
Lemma configureLVMDevice_lock_order_witness :
  (Mock real = false /\ Some lv0 = Some lv0 /\ true = true
   /\ execBash lvsCommand (host (start hostIdle))
      = ((outputOf lvsCommand hostIdle, None), hostIdle)
   /\ matchedAttr lv0 (outputOf lvsCommand hostIdle) = Some "-wi-------"
   /\ GoStrings.byteAt "-wi-------" 4 = Some "-"%char
   /\ Ascii.eqb "-" "a" = negb true)
  /\ exists res t w',
       configureLVMDevice real (Some lv0) true true (start hostIdle)
       = (Returned res, w')
       /\ trace w' = trace (start hostIdle) ++ t
       /\ ((commands t = [lvsCommand; lockStart lv0] /\ res <> None)
           \/ commands t = [lvsCommand; lockStart lv0; activateCmd true lv0]).
Proof.
  split; [repeat split|].
  exact (proj2 (configureLVMDevice_lock_order (H:=ops) real (Some lv0) true true
                  (start hostIdle))
               lv0 (outputOf lvsCommand hostIdle) hostIdle "-wi-------" "-"%char
               eq_refl eq_refl eq_refl eq_refl eq_refl eq_refl eq_refl).
Defined.

(** The scenarios of the specification for a clustered file system: lock
    start, then activation; deactivation, then lock stop. *)
Example clustered_activation :
  commands (trace (snd (configureLVMDevice real (Some lv0) true true
                          (start hostIdle))))
  = [lvsCommand; "vgchange --lockstart vg0"; "vgchange --activate sy vg0"]
  /\ commands (trace (snd (configureLVMDevice real (Some lv0) false true
                             (start hostMounted))))
     = [lvsCommand; "vgchange --activate n vg0"; "vgchange --lockstop vg0"].
Proof. split; reflexivity. Qed.

(** The volume is active on [hostMounted]: activating it runs the listing
    and nothing more, the first time and the second. *)
Lemma configureLVMDevice_idempotent_witness :
  (Mock real = false
   /\ execBash lvsCommand (host (start hostMounted))
      = ((outputOf lvsCommand hostMounted, None), hostMounted)
   /\ matchedAttr lv0 (outputOf lvsCommand hostMounted) = Some "-wi-a-----"
   /\ GoStrings.byteAt "-wi-a-----" 4 = Some "a"%char
   /\ Ascii.eqb "a" "a" = true)
  /\ configureLVMDevice real (Some lv0) true true (start hostMounted)
     = (Returned None, {| host := hostMounted; trace := [EvExec lvsCommand] |})
  /\ bind (configureLVMDevice real (Some lv0) true true)
          (fun _ => configureLVMDevice real (Some lv0) true true)
          (start hostMounted)
     = (Returned None,
        {| host := hostMounted;
           trace := [EvExec lvsCommand; EvExec lvsCommand] |}).
Proof.
  split; [repeat split|].
  destruct (configureLVMDevice_idempotent (H:=ops) real lv0 true true (start hostMounted)
              (outputOf lvsCommand hostMounted) hostMounted "-wi-a-----" "a"%char
              eq_refl eq_refl eq_refl eq_refl eq_refl) as [A B].
  split; [exact A|].
  exact (B (outputOf lvsCommand hostMounted) hostMounted "-wi-a-----" "a"%char
           eq_refl eq_refl eq_refl eq_refl).
Defined.

(** The listing of [hostShortAttr] has the line [lv0 vg0 -wi]: three
    fields, the third of three bytes. *)
Lemma configureLVMDevice_attr_index_witness :
  (Mock real = false
   /\ execBash lvsCommand (host (start hostShortAttr))
      = ((outputOf lvsCommand hostShortAttr, None), hostShortAttr)
   /\ matchedAttr lv0 (outputOf lvsCommand hostShortAttr) = Some "-wi"
   /\ (String.length "-wi" < 5)%nat)
  /\ configureLVMDevice real (Some lv0) true false (start hostShortAttr)
     = (Panicked (IndexOutOfRange 4 3),
        {| host := hostShortAttr; trace := [EvExec lvsCommand] |}).
Proof.
  split; [repeat split; cbn; lia|].
  refine (proj1 (configureLVMDevice_attr_index (H:=ops) real lv0 true false
                   (start hostShortAttr) (outputOf lvsCommand hostShortAttr)
                   hostShortAttr "-wi" eq_refl eq_refl eq_refl) _).
  cbn. lia.
Defined.

(** The three kinds of device. *)
Lemma getDevice_cases_witness :
  (DeviceType (Device (onLustre "/mnt/a")) = ClientMountDeviceTypeLustre
   /\ DeviceType (Device (onVolume "/mnt/a" "gfs2")) = ClientMountDeviceTypeLVM
   /\ plainName "vg0" = true /\ plainName "lv0" = true
   /\ DeviceType (Device (onUnknown "/mnt/a")) <> ClientMountDeviceTypeLustre
   /\ DeviceType (Device (onUnknown "/mnt/a")) <> ClientMountDeviceTypeLVM)
  /\ getDevice real (onLustre "/mnt/a") (start hostIdle)
     = (Returned ("10.0.0.1@tcp:/scratch", None), start hostIdle)
  /\ filepath.Join ["/dev"; "vg0"; "lv0"] = "/dev/vg0/lv0"
  /\ getDevice real (onUnknown "/mnt/a") (start hostIdle)
     = (Returned ("", Some (FmtError "Invalid device type")), start hostIdle).
Proof.
  split; [repeat split; discriminate|].
  split; [|split].
  - exact (proj1 (getDevice_cases (H:=ops) real (onLustre "/mnt/a") (start hostIdle))
             _ eq_refl eq_refl).
  - exact (proj2 (proj1 (proj2 (getDevice_cases (H:=ops) real (onVolume "/mnt/a" "gfs2")
                                  (start hostIdle))) lv0 eq_refl eq_refl)
             eq_refl eq_refl).
  - refine (proj2 (proj2 (getDevice_cases (H:=ops) real (onUnknown "/mnt/a")
                            (start hostIdle))) _ _); discriminate.
Defined.

(** C6 as stated fails twice: the error for an unknown device type reads
    [Invalid device type], with a capital; and the path of a volume is
    cleaned, so that for the volume group [..] it is not
    [/dev/<volumeGroup>/<logicalVolume>]. *)
Lemma getDevice_counterexample :
  (fst (getDevice real (onUnknown "/mnt/a") (start hostIdle))
   = Returned ("", Some (FmtError "Invalid device type"))
   /\ FmtError "Invalid device type" <> FmtError "invalid device type")
  /\ (fst (getDevice real (entry "/mnt/a" "xfs" (lvmDevice ".." "lv0"))
             (start hostDotDot))
      = Returned ("/lv0", None)
      /\ "/lv0" <> "/dev/" +:+ ".." +:+ "/" +:+ "lv0").
Proof.
  split; (split; [vm_compute; reflexivity|discriminate]).
Qed.

(** [/mnt/a] is mounted on [hostMounted]. *)
Lemma mount_already_mounted_witness :
  checkMount real "/mnt/a" (start hostMounted)
  = (Returned (ClientMountStateMounted, None),
     {| host := hostMounted; trace := [EvExec "mount"] |})
  /\ mount real (onVolume "/mnt/a" "gfs2") (start hostMounted)
     = (Returned None,
        {| host := hostMounted;
           trace := [EvExec "mount"; EvLogInfo (Lit "Already mounted") []] |}).
Proof.
  assert (E : checkMount real "/mnt/a" (start hostMounted)
              = (Returned (ClientMountStateMounted, None),
                 {| host := hostMounted; trace := [EvExec "mount"] |}))
    by (vm_compute; reflexivity).
  split; [exact E|].
  exact (mount_already_mounted (H:=ops) real (onVolume "/mnt/a" "gfs2") (start hostMounted)
           _ E).
Defined.

(** The clustered unmount of the specification, on a host where the
    mount directory cannot be removed: unmount, deactivation, lock stop,
    the failed removal, and no error. *)
Lemma unmount_ignores_rmdir_failure_witness :
  exists w1 w2 w3 w4,
    checkMount real "/mnt/a" (start hostMounted)
    = (Returned (ClientMountStateMounted, None), w1)
    /\ run real "umount /mnt/a" w1 = (Returned ("", None), w2)
    /\ configureLVMDevice real (Some lv0) false true w2 = (Returned None, w3)
    /\ rmdir real "/mnt/a" w3
       = (Returned (Some (HostError "failed: /mnt/a")),
          {| host := hostMounted; trace := trace w3 ++ [EvRemove "/mnt/a"] |})
    /\ unmount real (onVolume "/mnt/a" "gfs2") (start hostMounted)
       = (Returned None, w4)
    /\ effects (trace w4)
       = [EvExec "mount"; EvExec "umount /mnt/a"; EvExec lvsCommand;
          EvExec "vgchange --activate n vg0"; EvExec "vgchange --lockstop vg0";
          EvRemove "/mnt/a"]
    /\ In (EvLogError (HostError "failed: /mnt/a")
                      "Unable to remove mount directory" [("Path", "/mnt/a")])
          (trace w4).
Proof.
  pose (w1 := {| host := hostMounted; trace := [EvExec "mount"] |}).
  pose (w2 := {| host := hostMounted;
                 trace := [EvExec "mount"; EvExec "umount /mnt/a"] |}).
  pose (w3 := {| host := hostMounted;
                 trace := [EvExec "mount"; EvExec "umount /mnt/a";
                           EvExec lvsCommand; EvExec "vgchange --activate n vg0";
                           EvExec "vgchange --lockstop vg0"] |}).
  assert (E1 : checkMount real "/mnt/a" (start hostMounted)
               = (Returned (ClientMountStateMounted, None), w1))
    by (vm_compute; reflexivity).
  assert (E2 : run real "umount /mnt/a" w1 = (Returned ("", None), w2))
    by (vm_compute; reflexivity).
  assert (E3 : configureLVMDevice real (Some lv0) false true w2
               = (Returned None, w3))
    by (vm_compute; reflexivity).
  destruct (unmount_ignores_rmdir_failure (H:=ops) real (onVolume "/mnt/a" "gfs2")
              (start hostMounted) _ w1 w2 w3 E1 (ex_intro _ _ E2) E3)
    as (w4 & U & R & _).
  exists w1, w2, w3, w4. split; [exact E1|]. split; [exact E2|]. split; [exact E3|].
  split; [vm_compute; reflexivity|]. split; [exact U|].
  destruct (R (HostError "failed: /mnt/a") _ ltac:(vm_compute; reflexivity))
    as [_ T].
  rewrite T. split; [vm_compute; reflexivity|].
  apply in_or_app. right. left. reflexivity.
Defined.

(** A resource without mounts makes both controllers panic. *)
Lemma reconcile_needs_a_mount_witness :
  IsZero (DeletionTimestamp noMounts) = true
  /\ (exists p, reconcileBody real (pass noMounts (holding noMounts))
                = (Panicked (IndexOutOfRange 0 0), p))
  /\ (exists p, Dws.reconcileBody (pass noMounts (holding noMounts))
                = (Panicked (IndexOutOfRange 0 0), p))
  /\ (exists q w', Dws.Reconcile request (start (holding noMounts))
                   = (Panicked q, w')).
Proof.
  split; [reflexivity|].
  destruct (reconcile_needs_a_mount (H:=ops) real noMounts
              (start (holding noMounts)) eq_refl) as (A & B & _).
  destruct (reconcile_needs_a_mount (H:=ops) real noMounts
              {| host := holding noMounts; trace := [EvGet request] |} eq_refl)
    as (_ & _ & C).
  split; [exact (proj1 A eq_refl)|]. split; [exact (proj1 B eq_refl)|].
  exact (proj2 (C eq_refl (fun existing _ => Dws.close existing) request
                  (start (holding noMounts)) eq_refl eq_refl)).
Defined.

(** The plain-volume scenario of the specification: the volume is
    activated without the shared option, the directory created, and the
    file system mounted. *)
Example scenario_plain_volume :
  mount real (onVolume "/mnt/a" "xfs") (start hostIdle)
  = (Returned None,
     {| host := hostIdle;
        trace := [EvExec "mount"; EvExec lvsCommand;
                  EvExec "vgchange --activate y vg0"; EvMkdirAll "/mnt/a";
                  EvExec "mount -t xfs /dev/vg0/lv0 /mnt/a";
                  EvLogInfo (Lit "Mounted file system")
                            [("Mount path", "/mnt/a");
                             ("device", "/dev/vg0/lv0")]] |}).
Proof. vm_compute. reflexivity. Qed.

(** An entry whose device cannot be resolved fails without touching the
    host beyond the probe. *)
Example scenario_unresolvable :
  mount real (onUnknown "/mnt/b") (start hostIdle)
  = (Returned (Some (FmtError "Invalid device type")),
     {| host := hostIdle; trace := [EvExec "mount"] |}).
Proof. vm_compute. reflexivity. Qed.

(** White space in the sense of [strings.Fields]: tabs, runs of blanks,
    a no-break space (U+00A0, two bytes). *)
Example Fields_white_space :
  GoStrings.Fields ("a" +:+ String "009"%char "b  c"
                    +:+ String "194"%char (String "160"%char "d"))
  = ["a"; "b"; "c"; "d"].
Proof. vm_compute. reflexivity. Qed.

End Scenarios.

(** * Further properties of the controllers *)

Section MoreProofs.
Context {Host : Type} `{HostOps Host}.

Import MountDaemon.

Implicit Types (w : World Host) (r : ClientMountReconciler).


Lemma str_app_assoc (a b c : string) : (a +:+ b) +:+ c = a +:+ (b +:+ c).
Proof.
  induction a as [|x a IH]; [reflexivity|].
  rewrite !append_String. now rewrite IH.
Qed.

Lemma str_app_nil_r (a : string) : a +:+ "" = a.
Proof.
  induction a as [|x a IH]; [reflexivity|]. rewrite append_String. now rewrite IH.
Qed.

(** ** [mount]: the first failure is returned, later steps are not run *)

(** X1: when the query of the mount table fails, [mount] and [unmount]
    both return the error of the query wrapped with its output, and the
    query is all that was run. *)
Theorem probe_failure_propagates r (info : ClientMountInfo) w output e w1 :
  run r "mount" w = (Returned (output, Some e), w1) ->
  mount r info w = (Returned (Some (NewResourceError output (Some e))), w1)
  /\ unmount r info w = (Returned (Some (NewResourceError output (Some e))), w1).
Proof.
  intros E.
  assert (Ec : checkMount r (MountPath info) w
               = (Returned (ClientMountStateUnmounted,
                            Some (NewResourceError output (Some e))), w1)).
  { unfold checkMount. now rewrite (bind_returned _ _ _ _ _ E). }
  split.
  - unfold mount. now rewrite (bind_returned _ _ _ _ _ Ec).
  - unfold unmount. now rewrite (bind_returned _ _ _ _ _ Ec).
Qed.

(** X2: when the path is not mounted and the device cannot be resolved
    (unknown device type, failed activation), [mount] returns the error of
    the resolution and stops there: no directory or file is created and no
    mount command is run. *)
Theorem mount_resolution_failure r (info : ClientMountInfo) w w1 device e w2 :
  checkMount r (MountPath info) w
  = (Returned (ClientMountStateUnmounted, None), w1) ->
  getDevice r info w1 = (Returned (device, Some e), w2) ->
  mount r info w = (Returned (Some e), w2).
Proof.
  intros Ec Eg. unfold mount. rewrite (bind_returned _ _ _ _ _ Ec).
  change (String.eqb ClientMountStateUnmounted ClientMountStateMounted) with false.
  cbv iota. now rewrite (bind_returned _ _ _ _ _ Eg).
Qed.

(** X3: when the mount directory cannot be created, [mount] logs and
    returns the error of the creation; the mount command is not run. *)
Theorem mount_directory_failure r (info : ClientMountInfo) w w1 device w2 e w3 :
  TargetType info = "directory" ->
  checkMount r (MountPath info) w
  = (Returned (ClientMountStateUnmounted, None), w1) ->
  getDevice r info w1 = (Returned (device, None), w2) ->
  mkdir r (MountPath info) w2 = (Returned (Some e), w3) ->
  mount r info w
  = (Returned (Some e),
     {| host := host w3;
        trace := trace w3
                 ++ [EvLogError e "Could not create mount directory"
                                [("mount path", MountPath info);
                                 ("device", device)]] |}).
Proof.
  intros Ht Ec Eg Em. unfold mount. rewrite (bind_returned _ _ _ _ _ Ec).
  change (String.eqb ClientMountStateUnmounted ClientMountStateMounted) with false.
  cbv iota. rewrite (bind_returned _ _ _ _ _ Eg). cbv iota.
  assert (Et : createTarget r info device w2
               = (Returned (Some e),
                  {| host := host w3;
                     trace := trace w3
                              ++ [EvLogError e "Could not create mount directory"
                                             [("mount path", MountPath info);
                                              ("device", device)]] |})).
  { unfold createTarget. rewrite Ht.
    change (String.eqb "directory" "directory") with true. cbv iota.
    now rewrite (bind_returned _ _ _ _ _ Em). }
  now rewrite (bind_returned _ _ _ _ _ Et).
Qed.

(** X4: for a target of type [file], [mount] creates the parent directory
    of the mount path, then the file, then runs
    [mount -t <type> <device> <path>], with [-o <options>] when there are
    options; what it returns is the error of that command, logged with
    the command's output, or no error. *)
Theorem mount_file_target r (info : ClientMountInfo) w w1 device w2 w3 w4
    output err w5 :
  TargetType info = "file" ->
  checkMount r (MountPath info) w
  = (Returned (ClientMountStateUnmounted, None), w1) ->
  getDevice r info w1 = (Returned (device, None), w2) ->
  mkdir r (filepath.Dir (MountPath info)) w2 = (Returned None, w3) ->
  createFile r (MountPath info) w3 = (Returned None, w4) ->
  run r ("mount -t " +:+ FsType info +:+ " " +:+ device +:+ " "
         +:+ MountPath info
         +:+ (if String.eqb (Options info) "" then ""
              else " -o " +:+ Options info)) w4
  = (Returned (output, err), w5) ->
  mount r info w
  = (Returned err,
     {| host := host w5;
        trace := trace w5
                 ++ [match err with
                     | Some _ =>
                         EvLogInfo (Lit "Could not mount file system")
                                   [("mount path", MountPath info);
                                    ("device", device);
                                    ("Error output", output)]
                     | None =>
                         EvLogInfo (Lit "Mounted file system")
                                   [("Mount path", MountPath info);
                                    ("device", device)]
                     end] |}).
Proof.
  intros Ht Ec Eg Em Ef Er. unfold mount. rewrite (bind_returned _ _ _ _ _ Ec).
  change (String.eqb ClientMountStateUnmounted ClientMountStateMounted) with false.
  cbv iota. rewrite (bind_returned _ _ _ _ _ Eg). cbv iota.
  assert (Et : createTarget r info device w2 = (Returned None, w4)).
  { unfold createTarget. rewrite Ht.
    change (String.eqb "file" "directory") with false.
    change (String.eqb "file" "file") with true. cbv iota.
    rewrite (bind_returned _ _ _ _ _ Em). cbv iota.
    now rewrite (bind_returned _ _ _ _ _ Ef). }
  rewrite (bind_returned _ _ _ _ _ Et). cbv iota.
  assert (Ecmd : mountCmd info device
                 = "mount -t " +:+ FsType info +:+ " " +:+ device +:+ " "
                   +:+ MountPath info
                   +:+ (if String.eqb (Options info) "" then ""
                        else " -o " +:+ Options info)).
  { unfold mountCmd. destruct (String.eqb (Options info) ""); cbn [negb].
    - now rewrite !str_app_nil_r.
    - now rewrite !str_app_assoc. }
  rewrite Ecmd, (bind_returned _ _ _ _ _ Er). cbv iota.
  destruct err; reflexivity.
Qed.

(** ** [unmount]: failures before the removal of the directory *)

(** X5: when the path is mounted and the unmount command fails,
    [unmount] logs the command's output and returns its error at once:
    the volume is not deactivated and the directory is not removed. *)
Theorem unmount_command_failure r (info : ClientMountInfo) w w1 output e w2 :
  checkMount r (MountPath info) w
  = (Returned (ClientMountStateMounted, None), w1) ->
  run r ("umount " +:+ MountPath info) w1 = (Returned (output, Some e), w2) ->
  unmount r info w
  = (Returned (Some e),
     {| host := host w2;
        trace := trace w2
                 ++ [EvLogInfo (Lit "Could not unmount file system")
                               [("mount path", MountPath info);
                                ("Error output", output)]] |}).
Proof.
  intros Ec Eu. unfold unmount. rewrite (bind_returned _ _ _ _ _ Ec).
  change (String.eqb ClientMountStateMounted ClientMountStateMounted) with true.
  cbv iota. unfold bind at 1. unfold bind at 1. rewrite Eu. reflexivity.
Qed.

(** X6: on a volume-backed entry whose path is not mounted, [unmount]
    runs no unmount command and still deactivates the volume, shared
    exactly for the file system type [gfs2].  A failed deactivation is
    logged and returned, and the directory is then not removed; after a
    successful one the directory is removed and no error returned. *)
Theorem unmount_deactivates_unmounted r (info : ClientMountInfo) w w1 :
  checkMount r (MountPath info) w
  = (Returned (ClientMountStateUnmounted, None), w1) ->
  DeviceType (Device info) = ClientMountDeviceTypeLVM ->
  match configureLVMDevice r (LVM (Device info)) false
          (String.eqb (FsType info) "gfs2") w1 with
  | (Returned (Some e), w2) =>
      unmount r info w
      = (Returned (Some e),
         {| host := host w2;
            trace := trace w2
                     ++ [EvLogError e "Could not deactivate LVM volume"
                                    [("mount path", MountPath info)]] |})
  | (Returned None, w2) =>
      exists removed h t,
        rmdir r (MountPath info) w2
        = (Returned removed, {| host := h; trace := trace w2 ++ [t] |})
        /\ exists logs,
             unmount r info w
             = (Returned None,
                {| host := h; trace := trace w2 ++ t :: logs |})
             /\ effects logs = []
  | (Panicked q, w2) => unmount r info w = (Panicked q, w2)
  end.
Proof.
  intros Ec Ed.
  destruct (configureLVMDevice r (LVM (Device info)) false
              (String.eqb (FsType info) "gfs2") w1) as [[[e|]|q] w2] eqn:El.
  - unfold unmount. rewrite (bind_returned _ _ _ _ _ Ec).
    change (String.eqb ClientMountStateUnmounted ClientMountStateMounted) with false.
    cbv iota. rewrite bind_ret. rewrite Ed.
    change (String.eqb ClientMountDeviceTypeLVM ClientMountDeviceTypeLVM) with true.
    cbv iota. unfold bind at 1. unfold bind at 1. rewrite El. reflexivity.
  - assert (T := unmount_tail r info w ClientMountStateUnmounted w1 w1 w2 Ec).
    change (String.eqb ClientMountStateUnmounted ClientMountStateMounted)
      with false in T.
    rewrite Ed in T.
    change (String.eqb ClientMountDeviceTypeLVM ClientMountDeviceTypeLVM)
      with true in T.
    specialize (T eq_refl El).
    destruct (rmdir_returns r (MountPath info) w2) as (removed & h & t & Er).
    rewrite Er in T. exists removed, h, t. split; [exact Er|].
    eexists. rewrite T. cbn [host trace]. split.
    + rewrite <- app_assoc. reflexivity.
    + destruct removed; reflexivity.
  - unfold unmount. rewrite (bind_returned _ _ _ _ _ Ec).
    change (String.eqb ClientMountStateUnmounted ClientMountStateMounted) with false.
    cbv iota. rewrite bind_ret. rewrite Ed.
    change (String.eqb ClientMountDeviceTypeLVM ClientMountDeviceTypeLVM) with true.
    cbv iota. unfold bind at 1. unfold bind at 1. rewrite El. reflexivity.
Qed.

(** ** [configureLVMDevice]: its errors *)

(** X7: when the listing of the volumes fails, [configureLVMDevice]
    returns the error of the listing as it is, and runs nothing else. *)
Theorem configureLVMDevice_listing_failure r lvm activate shared w output e w1 :
  run r lvsCommand w = (Returned (output, Some e), w1) ->
  configureLVMDevice r lvm activate shared w = (Returned (Some e), w1).
Proof.
  intros E. unfold configureLVMDevice. now rewrite (bind_returned _ _ _ _ _ E).
Qed.

(** X8: when no line of the listing has three fields or more with the
    logical volume and the volume group as its first two,
    [configureLVMDevice] returns a fatal error that names the pair and
    carries the listing; it logs that error and runs no [vgchange]. *)
Theorem configureLVMDevice_not_found r (l : ClientMountDeviceLVM)
    activate shared w output h1 :
  Mock r = false ->
  execBash lvsCommand (host w) = ((output, None), h1) ->
  matchedLine l (lvsLines output) = None ->
  let err :=
    ResourceError ("Could not find VG/LV pair " +:+ VolumeGroup l +:+ "/"
                   +:+ LogicalVolume l +:+ ": " +:+ output) None "" true in
  configureLVMDevice r (Some l) activate shared w
  = (Returned (Some err),
     {| host := h1;
        trace := trace w ++ [EvExec lvsCommand; EvLogInfo (ErrorOf err) []] |}).
Proof.
  intros Hm He Em. cbv zeta.
  rewrite (configureLVMDevice_listed _ _ _ _ _ _ _ Hm He).
  rewrite (lvsLoop_unmatched _ _ _ _ _ _ _ Em). cbn [host trace].
  rewrite <- app_assoc. reflexivity.
Qed.


(** ** Mock mode *)

Lemma effects_app (t u : list Event) : effects (t ++ u) = effects t ++ effects u.
Proof. unfold effects. apply List.filter_app. Qed.

Lemma quiet_ret {A : Type} (a : A) : quiet (Host:=Host) (ret a).
Proof. intros w. now split. Qed.

Lemma quiet_panic {A : Type} (q : PanicReason) : quiet (@panic (World Host) A q).
Proof. intros w. now split. Qed.

Lemma quiet_bind {A B : Type} (m : M (World Host) A) (k : A -> M (World Host) B) :
  quiet m -> (forall a, quiet (k a)) -> quiet (bind m k).
Proof.
  intros Hm Hk w. unfold bind. specialize (Hm w).
  destruct (m w) as [[a|q] w1]; cbn [snd] in *; [|exact Hm].
  destruct Hm as [Hh0 Ht0]. destruct (Hk a w1) as [Hh Ht].
  split; etransitivity; eassumption.
Qed.

Lemma quiet_logInfo msg kv : quiet (Host:=Host) (logInfo msg kv).
Proof.
  intros w. unfold logInfo, emit. cbn [snd host trace]. split; [reflexivity|].
  rewrite effects_app. cbn. apply app_nil_r.
Qed.

Lemma quiet_logError e msg kv : quiet (Host:=Host) (logError e msg kv).
Proof.
  intros w. unfold logError, emit. cbn [snd host trace]. split; [reflexivity|].
  rewrite effects_app. cbn. apply app_nil_r.
Qed.

Lemma quiet_deref {A : Type} (p : option A) : quiet (Host:=Host) (deref p).
Proof. destruct p; [apply quiet_ret|apply quiet_panic]. Qed.

Section Mocked.
Variable r : ClientMountReconciler.
Hypothesis mocked : Mock r = true.

Lemma quiet_run c : quiet (run r c).
Proof. unfold run. rewrite mocked. apply quiet_bind; [apply quiet_logInfo|].
  intros _. apply quiet_ret. Qed.

Lemma quiet_mkdir p : quiet (mkdir r p).
Proof. unfold mkdir. rewrite mocked. apply quiet_bind; [apply quiet_logInfo|].
  intros _. apply quiet_ret. Qed.

Lemma quiet_createFile p : quiet (createFile r p).
Proof. unfold createFile. rewrite mocked. apply quiet_bind; [apply quiet_logInfo|].
  intros _. apply quiet_ret. Qed.

Lemma quiet_rmdir p : quiet (rmdir r p).
Proof. unfold rmdir. rewrite mocked. apply quiet_bind; [apply quiet_logInfo|].
  intros _. apply quiet_ret. Qed.

Ltac hush :=
  repeat first
    [ apply quiet_ret
    | apply quiet_logInfo
    | apply quiet_logError
    | apply quiet_deref
    | apply quiet_run
    | apply quiet_mkdir
    | apply quiet_createFile
    | apply quiet_rmdir
    | apply quiet_bind; [|intros ?]
    | match goal with
      | |- quiet (if ?b then _ else _) => destruct b
      | |- quiet (match ?x with _ => _ end) => destruct x
      end ].

Lemma quiet_configureLVMDevice lvm act sh : quiet (configureLVMDevice r lvm act sh).
Proof.
  unfold configureLVMDevice. apply quiet_bind; [apply quiet_run|].
  intros [o [e|]]; [apply quiet_ret|]. rewrite mocked. apply quiet_ret.
Qed.

Lemma quiet_checkMount p : quiet (checkMount r p).
Proof. unfold checkMount. hush. Qed.

Lemma quiet_getDevice info : quiet (getDevice r info).
Proof.
  unfold getDevice.
  destruct (String.eqb _ ClientMountDeviceTypeLustre); [hush|].
  destruct (String.eqb _ ClientMountDeviceTypeLVM); [|hush].
  apply quiet_bind; [apply quiet_configureLVMDevice|]. intros [e|]; hush.
Qed.

Lemma quiet_mount info : quiet (mount r info).
Proof.
  unfold mount. apply quiet_bind; [apply quiet_checkMount|].
  intros [st [e|]]; [hush|].
  destruct (String.eqb st ClientMountStateMounted); [hush|].
  apply quiet_bind; [apply quiet_getDevice|]. intros [device [e|]]; [hush|].
  unfold createTarget. hush.
Qed.

Lemma quiet_unmount info : quiet (unmount r info).
Proof.
  unfold unmount. apply quiet_bind; [apply quiet_checkMount|].
  intros [st [e|]]; [hush|].
  apply quiet_bind; [hush|]. intros [e|]; [hush|].
  apply quiet_bind.
  - destruct (String.eqb _ ClientMountDeviceTypeLVM); [|hush].
    apply quiet_bind; [apply quiet_configureLVMDevice|]. intros [e|]; hush.
  - intros [e|]; hush.
Qed.

End Mocked.

(** X10: in mock mode [mount] and [unmount] never touch the host: whatever
    the entry and whatever they return, the host is as before and the
    trace has gained log lines only (no command run, no directory or file
    created or removed). *)
Theorem mock_touches_nothing r (info : ClientMountInfo) w :
  Mock r = true ->
  (host (snd (mount r info w)) = host w
   /\ effects (trace (snd (mount r info w))) = effects (trace w))
  /\ (host (snd (unmount r info w)) = host w
      /\ effects (trace (snd (unmount r info w))) = effects (trace w)).
Proof.
  intros Hm. split.
  - exact (quiet_mount r Hm info w).
  - exact (quiet_unmount r Hm info w).
Qed.

(** X11: in mock mode every path is taken as not mounted and every
    operation as successful: [unmount] returns no error for every entry,
    and [mount] returns no error for every entry with a Lustre or a volume
    device, having logged the mount command it would run. *)
Theorem mock_succeeds r (info : ClientMountInfo) w :
  Mock r = true ->
  (exists w', unmount r info w = (Returned None, w'))
  /\ (forall device,
        (DeviceType (Device info) = ClientMountDeviceTypeLustre
         /\ exists l, Lustre (Device info) = Some l
                      /\ device = MgsAddresses l +:+ ":/" +:+ FileSystemName l)
        \/ (DeviceType (Device info) = ClientMountDeviceTypeLVM
            /\ exists l, LVM (Device info) = Some l
                         /\ device = filepath.Join ["/dev"; VolumeGroup l;
                                                    LogicalVolume l]) ->
        exists w',
          mount r info w = (Returned None, w')
          /\ In (mountCmd info device) (commands (trace w'))).
Proof.
  intros Hm. split.
  - unfold unmount. rewrite (bind_returned _ _ _ _ _ (checkMount_mock _ _ _ Hm)).
    change (String.eqb ClientMountStateUnmounted ClientMountStateMounted) with false.
    cbv iota. rewrite bind_ret.
    destruct (String.eqb (DeviceType (Device info)) ClientMountDeviceTypeLVM).
    + unfold bind at 1. unfold bind at 1.
      rewrite (configureLVMDevice_mock _ _ _ _ _ Hm). unfold ret at 1.
      cbv beta iota. unfold rmdir. rewrite Hm. eexists. reflexivity.
    + rewrite bind_ret. unfold rmdir. rewrite Hm. eexists. reflexivity.
  - intros device Hd.
    assert (Eg : exists w1,
               getDevice r info
                 {| host := host w;
                    trace := trace w ++ [EvLogInfo (Lit "Run") [("Command", "mount")]] |}
               = (Returned (device, None), w1)).
    { unfold getDevice. destruct Hd as [[Ht (l & El & ->)]|[Ht (l & El & ->)]].
      - rewrite Ht, El.
        change (String.eqb ClientMountDeviceTypeLustre ClientMountDeviceTypeLustre)
          with true. cbv iota. eexists. reflexivity.
      - rewrite Ht, El.
        change (String.eqb ClientMountDeviceTypeLVM ClientMountDeviceTypeLustre)
          with false.
        change (String.eqb ClientMountDeviceTypeLVM ClientMountDeviceTypeLVM)
          with true. cbv iota.
        rewrite (bind_returned _ _ _ _ _ (configureLVMDevice_mock _ _ _ _ _ Hm)).
        eexists. reflexivity. }
    destruct Eg as [w1 Eg].
    unfold mount. rewrite (bind_returned _ _ _ _ _ (checkMount_mock _ _ _ Hm)).
    change (String.eqb ClientMountStateUnmounted ClientMountStateMounted) with false.
    cbv iota. rewrite (bind_returned _ _ _ _ _ Eg). cbv iota.
    assert (Et : exists w2, createTarget r info device w1 = (Returned None, w2)).
    { unfold createTarget, mkdir, createFile. rewrite Hm.
      destruct (String.eqb (TargetType info) "directory"); [eexists; reflexivity|].
      destruct (String.eqb (TargetType info) "file"); eexists; reflexivity. }
    destruct Et as [w2 Et]. rewrite (bind_returned _ _ _ _ _ Et). cbv iota.
    rewrite (bind_returned _ _ _ _ _ (run_mock _ _ _ Hm)). cbv iota.
    eexists. split; [reflexivity|]. cbn [trace].
    rewrite !commands_app. apply in_or_app. left. apply in_or_app. right.
    cbn. now left.
Qed.

(** ** The daemon's pass: teardown, finalizer, outcome *)

Lemma Update_afterUpdate (p : Pass Host) :
  Update p = (Returned (fst (afterUpdate (obj p) (world p))),
              snd (afterUpdate (obj p) (world p))).
Proof.
  unfold Update, afterUpdate.
  now destruct (apiUpdate (obj p) (host (world p))) as [[o e] h].
Qed.


Lemma contains_after_add (o : ClientMount) (f : string) :
  ContainsFinalizer (AddFinalizer o f) f = true.
Proof.
  unfold AddFinalizer. destruct (ContainsFinalizer o f) eqn:E; [exact E|].
  unfold ContainsFinalizer. cbn [Finalizers setFinalizers].
  rewrite existsb_app. cbn. rewrite String.eqb_refl. apply orb_true_r.
Qed.


(** X13: a resource that is being deleted and does not carry the
    finalizer is left alone by both controllers: nothing is unmounted,
    nothing updated, nothing logged. *)
Theorem deleted_without_finalizer r (p : Pass Host) :
  IsZero (DeletionTimestamp (obj p)) = false ->
  ContainsFinalizer (obj p) finalizerClientMount = false ->
  reconcileBody r p = (Returned (emptyResult, None), p)
  /\ Dws.reconcileBody p = (Returned (emptyResult, None), p).
Proof.
  intros Hz Hf. split.
  - unfold reconcileBody. unfold bind, getObj. now rewrite Hz, Hf.
  - unfold Dws.reconcileBody. unfold bind, getObj. rewrite Hz.
    change Dws.finalizerClientMount with finalizerClientMount. now rewrite Hf.
Qed.

(** X14: on a resource that is not being deleted, whose recorded state is
    the desired one and that does not carry the finalizer yet, the pass of
    either controller adds the finalizer, updates the object and returns:
    no entry is mounted or unmounted before the finalizer is in place.  A
    failed update asks for a requeue and is not returned as an error. *)
Theorem finalizer_before_mount_work r (o : ClientMount) w :
  IsZero (DeletionTimestamp o) = true ->
  recordedState o = Some (DesiredState (Spec o)) ->
  ContainsFinalizer o finalizerClientMount = false ->
  let o1 := AddFinalizer (createStatus o) finalizerClientMount in
  let result :=
    (Returned ({| Requeue := negb (succeeded (fst (afterUpdate o1 w)));
                  RequeueAfter := 0 |}, None),
     snd (afterUpdate o1 w)) in
  ContainsFinalizer o1 finalizerClientMount = true
  /\ reconcileBody r {| obj := o; world := w |} = result
  /\ Dws.reconcileBody {| obj := o; world := w |} = result.
Proof.
  intros Hz Hr Hf o1 result. split; [apply contains_after_add|].
  destruct (recordedState_first _ _ Hr) as (first & Hs & Hst).
  assert (Eq : String.eqb (State first) (DesiredState (Spec o)) = true)
    by (apply String.eqb_eq; exact Hst).
  split.
  - unfold reconcileBody. unfold bind at 1, getObj. cbn [obj]. rewrite Hz.
    cbn [negb]. unfold bind at 1, modifyObj at 1. cbn [obj world].
    unfold bind at 1, statusAt. cbn [obj]. rewrite Hs, Eq, Hf. cbn [negb].
    unfold bind at 1, modifyObj. cbn [obj world]. unfold bind.
    rewrite Update_afterUpdate. cbn [obj world]. fold o1. subst result.
    now destruct (fst (afterUpdate o1 w)).
  - unfold Dws.reconcileBody. unfold bind at 1, getObj. cbn [obj]. rewrite Hz.
    cbn [negb]. unfold bind at 1, modifyObj at 1. cbn [obj world].
    rewrite Dws_createStatus.
    unfold bind at 1, statusAt. cbn [obj]. rewrite Hs, Eq.
    change Dws.finalizerClientMount with finalizerClientMount. rewrite Hf.
    cbn [negb]. unfold bind at 1, modifyObj. cbn [obj world]. unfold bind.
    rewrite Update_afterUpdate. cbn [obj world]. fold o1. subst result.
    now destruct (fst (afterUpdate o1 w)).
Qed.


(** X16: with a desired state that is neither mounted nor unmounted (and
    recorded as such), a steady pass of the daemon clears the error of the
    status and does nothing else: no entry is touched, and the result is
    empty. *)
Theorem steady_other_state r (o : ClientMount) w :
  IsZero (DeletionTimestamp o) = true ->
  recordedState o = Some (DesiredState (Spec o)) ->
  ContainsFinalizer o finalizerClientMount = true ->
  DesiredState (Spec o) <> ClientMountStateMounted ->
  DesiredState (Spec o) <> ClientMountStateUnmounted ->
  reconcileBody r {| obj := o; world := w |}
  = (Returned (emptyResult, None),
     {| obj := setStatusError (createStatus o) None; world := w |}).
Proof.
  intros Hz Hr Hf N1 N2.
  destruct (recordedState_first _ _ Hr) as (first & Hs & Hst).
  assert (Eq : String.eqb (State first) (DesiredState (Spec o)) = true)
    by (apply String.eqb_eq; exact Hst).
  apply String.eqb_neq in N1, N2.
  unfold reconcileBody. unfold bind at 1, getObj. cbn [obj]. rewrite Hz.
  cbn [negb]. unfold bind at 1, modifyObj at 1. cbn [obj world].
  unfold bind at 1, statusAt. cbn [obj]. rewrite Hs, Eq, Hf. cbn [negb].
  unfold bind at 1, modifyObj at 1. cbn [obj world]. now rewrite N1, N2.
Qed.

(** ** The API controller's pass *)

Lemma readyLoop_returns mounts i (o : ClientMount) w :
  (i + length mounts <= length (StatusMounts (Status o)))%nat ->
  exists st',
    Dws.readyLoop i mounts {| obj := o; world := w |}
    = (Returned tt, {| obj := setStatusMounts o st'; world := w |})
    /\ length st' = length (StatusMounts (Status o))
    /\ (forall j, (j < i \/ i + length mounts <= j)%nat ->
                  st' !! j = StatusMounts (Status o) !! j)
    /\ (forall j s, (i <= j < i + length mounts)%nat ->
                    StatusMounts (Status o) !! j = Some s ->
                    st' !! j = Some (withReady (withMessage s "") true)).
Proof.
  revert i o. induction mounts as [|m ms IH]; intros i o L; cbn [Dws.readyLoop].
  - exists (StatusMounts (Status o)). split; [|split; [reflexivity|split]].
    + now destruct o as [? ? ? ? ? []].
    + reflexivity.
    + intros j s Hj. simpl in Hj. lia.
  - cbn [length] in L.
    destruct (lookup_lt_is_Some_2 (StatusMounts (Status o)) i ltac:(lia)) as [s Es].
    unfold bind at 1, Dws.setReadyMessage. unfold bind at 1, statusAt, modifyObj.
    cbn [obj world]. rewrite Es.
    set (st1 := <[i:=withReady (withMessage s "") true]> (StatusMounts (Status o))).
    destruct (IH (S i) (setStatusMounts o st1) ltac:(cbn; unfold st1;
                                                       rewrite length_insert; lia))
      as (st' & E & Ln & Out & In').
    cbn [StatusMounts Status setStatusMounts setStatus] in *.
    exists st'. split; [exact E|]. split; [|split].
    + rewrite Ln. apply length_insert.
    + intros j Hj. cbn [length] in Hj. rewrite Out by lia.
      apply list_lookup_insert_ne. lia.
    + intros j s0 Hj Hs. cbn [length] in Hj.
      destruct (Nat.eq_dec j i) as [->|Ne].
      * rewrite Out by lia. rewrite Es in Hs. injection Hs as <-.
        apply list_lookup_insert_eq. now apply lookup_lt_Some in Es.
      * apply In'; [lia|]. unfold st1. rewrite list_lookup_insert_ne by lia.
        exact Hs.
Qed.

(** X17: a steady pass of the API controller (the resource is not being
    deleted, carries the finalizer, and its recorded state is the desired
    one) marks every entry ready with an empty message, keeps the state of
    each, and does nothing to the host: this controller mounts nothing. *)
Theorem Dws_steady_marks_ready (o : ClientMount) w :
  IsZero (DeletionTimestamp o) = true ->
  recordedState o = Some (DesiredState (Spec o)) ->
  ContainsFinalizer o Dws.finalizerClientMount = true ->
  exists o',
    Dws.reconcileBody {| obj := o; world := w |}
    = (Returned (emptyResult, None), {| obj := o'; world := w |})
    /\ Spec o' = Spec o
    /\ length (StatusMounts (Status o')) = length (Mounts (Spec o))
    /\ forall i s,
         StatusMounts (Status (createStatus o)) !! i = Some s ->
         StatusMounts (Status o') !! i
         = Some {| State := State s; Ready := true; Message := "" |}.
Proof.
  intros Hz Hr Hf.
  destruct (recordedState_first _ _ Hr) as (first & Hs & Hst).
  assert (Eq : String.eqb (State first) (DesiredState (Spec o)) = true)
    by (apply String.eqb_eq; exact Hst).
  pose proof (createStatus_length o) as Lc.
  destruct (readyLoop_returns (Mounts (Spec (createStatus o))) 0 (createStatus o) w)
    as (st' & E & Ln & _ & In').
  { rewrite createStatus_spec, Lc. cbn. lia. }
  exists (setStatusMounts (createStatus o) st').
  split; [|split; [|split]].
  - unfold Dws.reconcileBody. unfold bind at 1, getObj. cbn [obj]. rewrite Hz.
    cbn [negb]. unfold bind at 1, modifyObj at 1. cbn [obj world].
    rewrite Dws_createStatus.
    unfold bind at 1, statusAt. cbn [obj]. rewrite Hs, Eq, Hf. cbn [negb].
    unfold bind at 1, getObj. cbn [obj]. unfold bind. now rewrite E.
  - cbn. apply createStatus_spec.
  - cbn [StatusMounts Status setStatusMounts setStatus]. now rewrite Ln.
  - intros i s Hi. cbn [StatusMounts Status setStatusMounts setStatus].
    apply (In' i s); [|exact Hi]. apply lookup_lt_Some in Hi.
    rewrite createStatus_spec, <- Lc. lia.
Qed.

(** *** [reflect.DeepEqual] on statuses and the close of the updater *)

Lemma error_eqb_eq : forall a b : error, Dws.error_eqb a b = true <-> a = b.
Proof.
  fix IH 1. intros [s|x s|s|m c u f] [t|y t|t|m' c' u' f']; cbn [Dws.error_eqb];
    try (split; discriminate).
  - rewrite String.eqb_eq. split; congruence.
  - destruct x, y; try (split; discriminate);
      rewrite String.eqb_eq; split; congruence.
  - rewrite String.eqb_eq. split; congruence.
  - rewrite !andb_true_iff, !String.eqb_eq, Bool.eqb_true_iff.
    destruct c as [x|], c' as [y|].
    + rewrite (IH x y). split; [intros [[[-> ->] ->] ->]|intros [= -> -> -> ->]];
        auto.
    + split; [intros [[[_ ?] _] _]|]; discriminate.
    + split; [intros [[[_ ?] _] _]|]; discriminate.
    + split; [intros [[[-> _] ->] ->]|intros [= -> -> ->]]; auto.
Qed.

Lemma list_eqb_eq {A : Type} (eqb : A -> A -> bool) :
  (forall x y, eqb x y = true <-> x = y) ->
  forall l k, Dws.list_eqb eqb l k = true <-> l = k.
Proof.
  intros He. induction l as [|x l IH]; intros [|y k]; cbn [Dws.list_eqb];
    try (split; [discriminate|congruence]); [split; reflexivity|].
  rewrite andb_true_iff, He, IH. split; [intros [-> ->]|intros [= -> ->]]; auto.
Qed.

Lemma infoStatus_eqb_eq (a b : ClientMountInfoStatus) :
  Dws.infoStatus_eqb a b = true <-> a = b.
Proof.
  unfold Dws.infoStatus_eqb.
  rewrite !andb_true_iff, !String.eqb_eq, Bool.eqb_true_iff.
  destruct a, b; cbn. split; [intros [[-> ->] ->]|intros [= -> -> ->]]; auto.
Qed.

Lemma DeepEqual_eq (a b : ClientMountStatus) :
  Dws.DeepEqual a b = true <-> a = b.
Proof.
  unfold Dws.DeepEqual.
  rewrite andb_true_iff, (list_eqb_eq _ infoStatus_eqb_eq).
  destruct a as [la [x|]], b as [lb [y|]]; cbn [StatusMounts Error].
  - rewrite error_eqb_eq. split; [intros [-> ->]|intros [= -> ->]]; auto.
  - split; [intros [_ ?]|]; discriminate.
  - split; [intros [_ ?]|]; discriminate.
  - split; [intros [-> _]|intros [= ->]]; auto.
Qed.

Lemma StatusUpdate_after (p : Pass Host) :
  StatusUpdate p = (Returned (fst (afterStatusUpdate (obj p) (world p))),
                    snd (afterStatusUpdate (obj p) (world p))).
Proof.
  unfold StatusUpdate, afterStatusUpdate.
  now destruct (apiStatusUpdate (obj p) (host (world p))) as [[o e] h].
Qed.

Lemma close_unchanged (existingStatus : ClientMountStatus) (p : Pass Host) :
  Status (obj p) = existingStatus ->
  Dws.close existingStatus p = (Returned None, p).
Proof.
  intros E. unfold Dws.close. unfold bind at 1, getObj.
  apply DeepEqual_eq in E. now rewrite E.
Qed.

Lemma close_changed (existingStatus : ClientMountStatus) (p : Pass Host) :
  Status (obj p) <> existingStatus ->
  Dws.close existingStatus p
  = (Returned (if IsConflict (fst (afterStatusUpdate (obj p) (world p)))
               then None else fst (afterStatusUpdate (obj p) (world p))),
     snd (afterStatusUpdate (obj p) (world p))).
Proof.
  intros N. unfold Dws.close. unfold bind at 1, getObj.
  destruct (Dws.DeepEqual (Status (obj p)) existingStatus) eqn:E.
  - apply DeepEqual_eq in E. contradiction.
  - cbn [negb]. unfold bind. rewrite StatusUpdate_after.
    now destruct (IsConflict (fst (afterStatusUpdate (obj p) (world p)))).
Qed.

(** X18: the close of the API controller's status updater writes the
    status exactly when it differs from the one the pass started with: an
    unchanged status makes no call to the API server; a changed one makes
    one status update, whose error is returned unless it is a conflict,
    which is dropped. *)
Theorem close_writes_changes (existingStatus : ClientMountStatus) (p : Pass Host) :
  (Status (obj p) = existingStatus ->
   Dws.close existingStatus p = (Returned None, p))
  /\ (Status (obj p) <> existingStatus ->
      let written := afterStatusUpdate (obj p) (world p) in
      Dws.close existingStatus p
      = (Returned (if IsConflict (fst written) then None else fst written),
         snd written)).
Proof.
  split.
  - apply close_unchanged.
  - intros N written. now apply close_changed.
Qed.

(** ** [Reconcile] as a whole *)

(** X19: when the resource cannot be fetched, [Reconcile] of either
    controller does nothing more: it returns an empty result and the
    error of the fetch, or no error when the resource was not found. *)
Theorem reconcile_get_failure closeUpdater r (req : NamespacedName) w e h :
  apiGet req (host w) = (inr e, h) ->
  let w1 := {| host := h; trace := trace w ++ [EvGet req] |} in
  Reconcile closeUpdater r req w
  = (Returned (emptyResult, IgnoreNotFound (Some e)), w1)
  /\ Dws.Reconcile req w = (Returned (emptyResult, IgnoreNotFound (Some e)), w1)
  /\ (IgnoreNotFound (Some e) = None <-> exists text, e = ApiError NotFound text)
  /\ (IgnoreNotFound (Some e) <> None -> IgnoreNotFound (Some e) = Some e).
Proof.
  intros Hg w1. split; [|split; [|split]].
  - unfold Reconcile, bind, hostCall. now rewrite Hg.
  - unfold Dws.Reconcile, bind, hostCall. now rewrite Hg.
  - unfold IgnoreNotFound, IsNotFound. destruct e as [s|[] s|s|m c u f];
      (split; [try discriminate; eauto|intros [t Ht]; try discriminate; reflexivity]).
  - unfold IgnoreNotFound. destruct (IsNotFound (Some e)); [congruence|reflexivity].
Qed.

Lemma reset_body r (o : ClientMount) w st :
  IsZero (DeletionTimestamp o) = true ->
  recordedState o = Some st ->
  st <> DesiredState (Spec o) ->
  reconcileBody r {| obj := o; world := w |}
  = (Returned (emptyResult, None),
     {| obj := resetStatus (createStatus o); world := w |})
  /\ Dws.reconcileBody {| obj := o; world := w |}
     = (Returned (emptyResult, None),
        {| obj := Dws.resetStatus (createStatus o); world := w |}).
Proof.
  intros Hz Hr Hn.
  destruct (recordedState_first _ _ Hr) as (first & Hf & <-).
  apply String.eqb_neq in Hn. split.
  - unfold reconcileBody, getObj. unfold bind at 1. cbn [obj]. rewrite Hz.
    cbn [negb]. unfold modifyObj at 1. unfold bind at 1. cbn [obj world].
    unfold bind at 1, statusAt. cbn [obj]. rewrite Hf, Hn. reflexivity.
  - unfold Dws.reconcileBody, getObj. unfold bind at 1. cbn [obj]. rewrite Hz.
    cbn [negb]. unfold modifyObj at 1. unfold bind at 1. cbn [obj world].
    rewrite Dws_createStatus.
    unfold bind at 1, statusAt. cbn [obj]. rewrite Hf, Hn. reflexivity.
Qed.

Lemma createStatus_same (o : ClientMount) :
  length (StatusMounts (Status o)) = length (Mounts (Spec o)) ->
  createStatus o = o.
Proof.
  intros E. unfold createStatus. apply Nat.eqb_eq in E. now rewrite E.
Qed.

(** The status after a reset is not the status before it. *)
Lemma reset_changes_status (o : ClientMount) st :
  recordedState o = Some st ->
  st <> DesiredState (Spec o) ->
  Status (Dws.resetStatus (createStatus o)) <> Status o.
Proof.
  intros Hr Hn E.
  destruct (recordedState_first _ _ Hr) as (first & Hf & <-).
  assert (El : StatusMounts (Status (Dws.resetStatus (createStatus o)))
               = StatusMounts (Status o)) by now rewrite E.
  cbn [Dws.resetStatus StatusMounts Status setStatusMounts setStatus] in El.
  assert (Ln : length (StatusMounts (Status o)) = length (Mounts (Spec o))).
  { rewrite <- El, length_map. apply createStatus_length. }
  rewrite (createStatus_same _ Ln) in *.
  rewrite <- El in Hf. destruct (StatusMounts (Status o)) as [|x l];
    [discriminate|].
  cbn in Hf. injection Hf as <-. now cbn in Hn.
Qed.

(** X20: end to end, when the API controller fetches a resource that is
    not being deleted and whose recorded state is not the desired one, it
    resets the status and writes it with exactly one status update, its
    only call after the fetch; it returns the error of that update unless
    it is a conflict, which is dropped. *)
Theorem Dws_reconcile_writes_reset (req : NamespacedName) w (o : ClientMount) h1 st :
  apiGet req (host w) = (inl o, h1) ->
  IsZero (DeletionTimestamp o) = true ->
  recordedState o = Some st ->
  st <> DesiredState (Spec o) ->
  let w1 := {| host := h1; trace := trace w ++ [EvGet req] |} in
  let o1 := Dws.resetStatus (createStatus o) in
  let written := afterStatusUpdate o1 w1 in
  Dws.Reconcile req w
  = (Returned (emptyResult, if IsConflict (fst written) then None else fst written),
     world (snd written))
  /\ trace (world (snd written)) = trace w ++ [EvGet req; EvStatusUpdate o1].
Proof.
  intros Hg Hz Hr Hn w1 o1 written. split.
  - unfold Dws.Reconcile. unfold bind at 1, hostCall. rewrite Hg. fold w1.
    rewrite (proj2 (reset_body {| Mock := false |} o w1 st Hz Hr Hn)). fold o1.
    rewrite (close_changed (Status o) {| obj := o1; world := w1 |}
               (reset_changes_status o st Hr Hn)).
    reflexivity.
  - subst written. unfold afterStatusUpdate.
    destruct (apiStatusUpdate o1 (host w1)) as [[o2 e] h2]. cbn [snd world trace].
    subst w1. cbn [trace]. now rewrite <- app_assoc.
Qed.

(** X21: when the status list of a resource that is not being deleted has
    not the length of its list of mounts (one mount or more, and a desired
    state that is not the empty string), the pass of either controller
    replaces it by one entry per mount, each with the desired state, not
    ready and without message, and does nothing else. *)
Theorem status_created_on_length_mismatch r (o : ClientMount) w :
  IsZero (DeletionTimestamp o) = true ->
  Mounts (Spec o) <> [] ->
  length (StatusMounts (Status o)) <> length (Mounts (Spec o)) ->
  DesiredState (Spec o) <> "" ->
  let o1 :=
    setStatusMounts o
      (repeat {| State := DesiredState (Spec o); Ready := false; Message := "" |}
              (length (Mounts (Spec o)))) in
  reconcileBody r {| obj := o; world := w |}
  = (Returned (emptyResult, None), {| obj := o1; world := w |})
  /\ Dws.reconcileBody {| obj := o; world := w |}
     = (Returned (emptyResult, None), {| obj := o1; world := w |}).
Proof.
  intros Hz Hm Hl Hd o1.
  assert (Ec : createStatus o
               = setStatusMounts o (repeat zeroInfoStatus (length (Mounts (Spec o))))).
  { unfold createStatus. apply Nat.eqb_neq in Hl. now rewrite Hl. }
  assert (Hr : recordedState o = Some "").
  { unfold recordedState. rewrite Ec.
    cbn [StatusMounts Status setStatusMounts setStatus].
    destruct (Mounts (Spec o)); [contradiction|reflexivity]. }
  assert (Hn : "" <> DesiredState (Spec o)) by congruence.
  destruct (reset_body r o w "" Hz Hr Hn) as [Bd Bw].
  assert (E1 : resetStatus (createStatus o) = o1).
  { rewrite Ec. unfold resetStatus, o1.
    cbn [StatusMounts Status setStatusMounts setStatus Spec Error].
    rewrite map_repeat. reflexivity. }
  assert (E2 : Dws.resetStatus (createStatus o) = o1).
  { rewrite Ec. unfold Dws.resetStatus, o1.
    cbn [StatusMounts Status setStatusMounts setStatus Spec Error].
    rewrite map_repeat. reflexivity. }
  now rewrite Bd, Bw, E1, E2.
Qed.

End MoreProofs.

(** ** The further properties on concrete hosts and resources *)

Section MoreScenarios.
Import MountDaemon.
Import Sim.
Import Cases.

Local Abbreviation pass o h := {| obj := o; world := start h |}.
Local Abbreviation after h t := {| host := h; trace := t |}.

Lemma probe_failure_propagates_witness :
  run real "mount" (start hostProbeFails)
  = (Returned ("mount: permission denied" +:+ nl, Some (HostError "failed: mount")),
     after hostProbeFails [EvExec "mount"])
  /\ mount real (onLustre "/mnt/a") (start hostProbeFails)
     = (Returned (Some (NewResourceError ("mount: permission denied" +:+ nl)
                          (Some (HostError "failed: mount")))),
        after hostProbeFails [EvExec "mount"])
  /\ unmount real (onLustre "/mnt/a") (start hostProbeFails)
     = (Returned (Some (NewResourceError ("mount: permission denied" +:+ nl)
                          (Some (HostError "failed: mount")))),
        after hostProbeFails [EvExec "mount"]).
Proof.
  assert (E : run real "mount" (start hostProbeFails)
              = (Returned ("mount: permission denied" +:+ nl,
                           Some (HostError "failed: mount")),
                 after hostProbeFails [EvExec "mount"])) by reflexivity.
  split; [exact E|].
  exact (probe_failure_propagates (H:=ops) real (onLustre "/mnt/a") _ _ _ _ E).
Defined.

Lemma mount_resolution_failure_witness :
  checkMount real "/mnt/b" (start hostIdle)
  = (Returned (ClientMountStateUnmounted, None), after hostIdle [EvExec "mount"])
  /\ getDevice real (onUnknown "/mnt/b") (after hostIdle [EvExec "mount"])
     = (Returned ("", Some (FmtError "Invalid device type")),
        after hostIdle [EvExec "mount"])
  /\ mount real (onUnknown "/mnt/b") (start hostIdle)
     = (Returned (Some (FmtError "Invalid device type")),
        after hostIdle [EvExec "mount"]).
Proof.
  assert (E1 : checkMount real "/mnt/b" (start hostIdle)
               = (Returned (ClientMountStateUnmounted, None),
                  after hostIdle [EvExec "mount"])) by (vm_compute; reflexivity).
  assert (E2 : getDevice real (onUnknown "/mnt/b") (after hostIdle [EvExec "mount"])
               = (Returned ("", Some (FmtError "Invalid device type")),
                  after hostIdle [EvExec "mount"])) by (vm_compute; reflexivity).
  split; [exact E1|]. split; [exact E2|].
  exact (mount_resolution_failure (H:=ops) real (onUnknown "/mnt/b") _ _ _ _ _ E1 E2).
Defined.

Lemma mount_directory_failure_witness :
  TargetType (onLustre "/mnt/a") = "directory"
  /\ checkMount real "/mnt/a" (start hostNoDir)
     = (Returned (ClientMountStateUnmounted, None), after hostNoDir [EvExec "mount"])
  /\ getDevice real (onLustre "/mnt/a") (after hostNoDir [EvExec "mount"])
     = (Returned ("10.0.0.1@tcp:/scratch", None), after hostNoDir [EvExec "mount"])
  /\ mkdir real "/mnt/a" (after hostNoDir [EvExec "mount"])
     = (Returned (Some (HostError "failed: /mnt/a")),
        after hostNoDir [EvExec "mount"; EvMkdirAll "/mnt/a"])
  /\ mount real (onLustre "/mnt/a") (start hostNoDir)
     = (Returned (Some (HostError "failed: /mnt/a")),
        after hostNoDir
          [EvExec "mount"; EvMkdirAll "/mnt/a";
           EvLogError (HostError "failed: /mnt/a")
                      "Could not create mount directory"
                      [("mount path", "/mnt/a");
                       ("device", "10.0.0.1@tcp:/scratch")]]).
Proof.
  assert (E1 : checkMount real "/mnt/a" (start hostNoDir)
               = (Returned (ClientMountStateUnmounted, None),
                  after hostNoDir [EvExec "mount"])) by (vm_compute; reflexivity).
  assert (E2 : getDevice real (onLustre "/mnt/a") (after hostNoDir [EvExec "mount"])
               = (Returned ("10.0.0.1@tcp:/scratch", None),
                  after hostNoDir [EvExec "mount"])) by (vm_compute; reflexivity).
  assert (E3 : mkdir real "/mnt/a" (after hostNoDir [EvExec "mount"])
               = (Returned (Some (HostError "failed: /mnt/a")),
                  after hostNoDir [EvExec "mount"; EvMkdirAll "/mnt/a"]))
    by (vm_compute; reflexivity).
  split; [reflexivity|]. split; [exact E1|]. split; [exact E2|]. split; [exact E3|].
  exact (mount_directory_failure (H:=ops) real (onLustre "/mnt/a") _ _ _ _ _ _
           eq_refl E1 E2 E3).
Defined.

Lemma mount_file_target_witness :
  TargetType (onFile "/mnt/f/data") = "file"
  /\ mkdir real (filepath.Dir "/mnt/f/data") (after hostIdle [EvExec "mount"])
     = (Returned None, after hostIdle [EvExec "mount"; EvMkdirAll "/mnt/f"])
  /\ mount real (onFile "/mnt/f/data") (start hostIdle)
     = (Returned None,
        after hostIdle
          [EvExec "mount"; EvMkdirAll "/mnt/f"; EvWriteFile "/mnt/f/data";
           EvExec "mount -t lustre 10.0.0.1@tcp:/scratch /mnt/f/data -o ro";
           EvLogInfo (Lit "Mounted file system")
                     [("Mount path", "/mnt/f/data");
                      ("device", "10.0.0.1@tcp:/scratch")]]).
Proof.
  assert (E3 : mkdir real (filepath.Dir "/mnt/f/data") (after hostIdle [EvExec "mount"])
               = (Returned None, after hostIdle [EvExec "mount"; EvMkdirAll "/mnt/f"]))
    by (vm_compute; reflexivity).
  split; [reflexivity|]. split; [exact E3|].
  exact (mount_file_target (H:=ops) real (onFile "/mnt/f/data") (start hostIdle)
           (after hostIdle [EvExec "mount"]) "10.0.0.1@tcp:/scratch"
           (after hostIdle [EvExec "mount"])
           (after hostIdle [EvExec "mount"; EvMkdirAll "/mnt/f"])
           (after hostIdle [EvExec "mount"; EvMkdirAll "/mnt/f";
                            EvWriteFile "/mnt/f/data"])
           "" None
           (after hostIdle
              [EvExec "mount"; EvMkdirAll "/mnt/f"; EvWriteFile "/mnt/f/data";
               EvExec "mount -t lustre 10.0.0.1@tcp:/scratch /mnt/f/data -o ro"])
           eq_refl eq_refl eq_refl E3 eq_refl eq_refl).
Defined.

Lemma unmount_command_failure_witness :
  checkMount real "/mnt/a" (start hostBusy)
  = (Returned (ClientMountStateMounted, None), after hostBusy [EvExec "mount"])
  /\ run real "umount /mnt/a" (after hostBusy [EvExec "mount"])
     = (Returned ("umount: /mnt/a: target is busy." +:+ nl,
                  Some (HostError "failed: umount /mnt/a")),
        after hostBusy [EvExec "mount"; EvExec "umount /mnt/a"])
  /\ unmount real (onVolume "/mnt/a" "xfs") (start hostBusy)
     = (Returned (Some (HostError "failed: umount /mnt/a")),
        after hostBusy
          [EvExec "mount"; EvExec "umount /mnt/a";
           EvLogInfo (Lit "Could not unmount file system")
                     [("mount path", "/mnt/a");
                      ("Error output", "umount: /mnt/a: target is busy." +:+ nl)]]).
Proof.
  assert (E1 : checkMount real "/mnt/a" (start hostBusy)
               = (Returned (ClientMountStateMounted, None),
                  after hostBusy [EvExec "mount"])) by (vm_compute; reflexivity).
  assert (E2 : run real "umount /mnt/a" (after hostBusy [EvExec "mount"])
               = (Returned ("umount: /mnt/a: target is busy." +:+ nl,
                            Some (HostError "failed: umount /mnt/a")),
                  after hostBusy [EvExec "mount"; EvExec "umount /mnt/a"]))
    by (vm_compute; reflexivity).
  split; [exact E1|]. split; [exact E2|].
  exact (unmount_command_failure (H:=ops) real (onVolume "/mnt/a" "xfs") _ _ _ _ _
           E1 E2).
Defined.

Lemma unmount_deactivates_unmounted_witness :
  checkMount real "/mnt/a" (start hostHeld)
  = (Returned (ClientMountStateUnmounted, None), after hostHeld [EvExec "mount"])
  /\ DeviceType (Device (onVolume "/mnt/a" "xfs")) = ClientMountDeviceTypeLVM
  /\ exists e,
       unmount real (onVolume "/mnt/a" "xfs") (start hostHeld)
       = (Returned (Some e),
          after hostHeld
            [EvExec "mount"; EvExec lvsCommand; EvExec "vgchange --activate n vg0";
             EvLogError e "Could not deactivate LVM volume"
                        [("mount path", "/mnt/a")]]).
Proof.
  assert (E1 : checkMount real "/mnt/a" (start hostHeld)
               = (Returned (ClientMountStateUnmounted, None),
                  after hostHeld [EvExec "mount"])) by (vm_compute; reflexivity).
  split; [exact E1|]. split; [reflexivity|].
  pose proof (unmount_deactivates_unmounted (H:=ops) real (onVolume "/mnt/a" "xfs")
                (start hostHeld) _ E1 eq_refl) as T.
  eassert (E2 : configureLVMDevice real (LVM (Device (onVolume "/mnt/a" "xfs"))) false
                  (String.eqb (FsType (onVolume "/mnt/a" "xfs")) "gfs2")
                  (after hostHeld [EvExec "mount"]) = (Returned (Some _), _))
    by (vm_compute; reflexivity).
  rewrite E2 in T. eexists. exact T.
Defined.

Lemma configureLVMDevice_listing_failure_witness :
  run real lvsCommand (start hostNoLvs)
  = (Returned ("", Some (HostError ("failed: " +:+ lvsCommand))),
     after hostNoLvs [EvExec lvsCommand])
  /\ configureLVMDevice real (Some lv0) true true (start hostNoLvs)
     = (Returned (Some (HostError ("failed: " +:+ lvsCommand))),
        after hostNoLvs [EvExec lvsCommand]).
Proof.
  assert (E : run real lvsCommand (start hostNoLvs)
              = (Returned ("", Some (HostError ("failed: " +:+ lvsCommand))),
                 after hostNoLvs [EvExec lvsCommand])) by reflexivity.
  split; [exact E|].
  exact (configureLVMDevice_listing_failure (H:=ops) real (Some lv0) true true
           _ _ _ _ E).
Defined.

Lemma configureLVMDevice_not_found_witness :
  Mock real = false
  /\ execBash lvsCommand (host (start hostOtherVolume))
     = ((outputOf lvsCommand hostOtherVolume, None), hostOtherVolume)
  /\ matchedLine lv0 (lvsLines (outputOf lvsCommand hostOtherVolume)) = None
  /\ fst (configureLVMDevice real (Some lv0) true false (start hostOtherVolume))
     = Returned (Some (ResourceError
                         ("Could not find VG/LV pair vg0/lv0: "
                          +:+ outputOf lvsCommand hostOtherVolume)
                         None "" true)).
Proof.
  split; [reflexivity|]. split; [reflexivity|]. split; [reflexivity|].
  rewrite (configureLVMDevice_not_found (H:=ops) real lv0 true false
             (start hostOtherVolume) (outputOf lvsCommand hostOtherVolume)
             hostOtherVolume eq_refl eq_refl eq_refl).
  reflexivity.
Defined.


Lemma mock_touches_nothing_witness :
  Mock mock = true
  /\ host (snd (mount mock (onVolume "/mnt/a" "gfs2") (start hostIdle))) = hostIdle
  /\ effects (trace (snd (mount mock (onVolume "/mnt/a" "gfs2") (start hostIdle))))
     = []
  /\ effects (trace (snd (unmount mock (onVolume "/mnt/a" "gfs2") (start hostIdle))))
     = [].
Proof.
  split; [reflexivity|].
  destruct (mock_touches_nothing (H:=ops) mock (onVolume "/mnt/a" "gfs2")
              (start hostIdle) eq_refl) as [[A B] [_ C]].
  split; [exact A|]. split; [exact B|exact C].
Defined.

Lemma mock_succeeds_witness :
  Mock mock = true
  /\ (exists w', unmount mock (onVolume "/mnt/a" "gfs2") (start hostBusy)
                 = (Returned None, w'))
  /\ (exists w',
        mount mock (onVolume "/mnt/a" "gfs2") (start hostBusy) = (Returned None, w')
        /\ In "mount -t gfs2 /dev/vg0/lv0 /mnt/a" (commands (trace w'))).
Proof.
  split; [reflexivity|].
  destruct (mock_succeeds (H:=ops) mock (onVolume "/mnt/a" "gfs2") (start hostBusy)
              eq_refl) as [A B].
  split; [exact A|].
  refine (B "/dev/vg0/lv0" _). right. split; [reflexivity|].
  exists lv0. split; reflexivity.
Defined.


Lemma deleted_without_finalizer_witness :
  IsZero (DeletionTimestamp deletedForeign) = false
  /\ ContainsFinalizer deletedForeign finalizerClientMount = false
  /\ reconcileBody real (pass deletedForeign hostBusy)
     = (Returned (emptyResult, None), pass deletedForeign hostBusy)
  /\ Dws.reconcileBody (pass deletedForeign hostBusy)
     = (Returned (emptyResult, None), pass deletedForeign hostBusy).
Proof.
  split; [reflexivity|]. split; [reflexivity|].
  exact (deleted_without_finalizer (H:=ops) real (pass deletedForeign hostBusy)
           eq_refl eq_refl).
Defined.

Lemma finalizer_before_mount_work_witness :
  IsZero (DeletionTimestamp accepted) = true
  /\ recordedState accepted = Some (DesiredState (Spec accepted))
  /\ ContainsFinalizer accepted finalizerClientMount = false
  /\ reconcileBody real (pass accepted hostIdle)
     = (Returned (emptyResult, None),
        {| obj := AddFinalizer accepted finalizerClientMount;
           world := after hostIdle
                      [EvUpdate (AddFinalizer accepted finalizerClientMount)] |}).
Proof.
  split; [reflexivity|]. split; [reflexivity|]. split; [reflexivity|].
  exact (proj1 (proj2 (finalizer_before_mount_work (H:=ops) real accepted
                         (start hostIdle) eq_refl eq_refl eq_refl))).
Defined.


Lemma steady_other_state_witness :
  IsZero (DeletionTimestamp paused) = true
  /\ recordedState paused = Some (DesiredState (Spec paused))
  /\ ContainsFinalizer paused finalizerClientMount = true
  /\ DesiredState (Spec paused) <> ClientMountStateMounted
  /\ DesiredState (Spec paused) <> ClientMountStateUnmounted
  /\ reconcileBody real (pass paused hostIdle)
     = (Returned (emptyResult, None), pass paused hostIdle).
Proof.
  split; [reflexivity|]. split; [reflexivity|]. split; [reflexivity|].
  split; [discriminate|]. split; [discriminate|].
  refine (steady_other_state (H:=ops) real paused (start hostIdle)
            eq_refl eq_refl eq_refl _ _); discriminate.
Defined.

Lemma Dws_steady_marks_ready_witness :
  IsZero (DeletionTimestamp threeMounts) = true
  /\ recordedState threeMounts = Some (DesiredState (Spec threeMounts))
  /\ ContainsFinalizer threeMounts Dws.finalizerClientMount = true
  /\ exists o',
       Dws.reconcileBody (pass threeMounts hostIdle)
       = (Returned (emptyResult, None), pass o' hostIdle)
       /\ StatusMounts (Status o') !! 1%nat
          = Some (recorded ClientMountStateMounted true "").
Proof.
  split; [reflexivity|]. split; [reflexivity|]. split; [reflexivity|].
  destruct (Dws_steady_marks_ready (H:=ops) threeMounts (start hostIdle)
              eq_refl eq_refl eq_refl) as (o' & B & _ & _ & P).
  exists o'. split; [exact B|].
  exact (P 1%nat (recorded ClientMountStateMounted true "") eq_refl).
Defined.

Lemma close_writes_changes_witness :
  Status (obj (pass accepted hostIdle)) = Status accepted
  /\ Dws.close (Status accepted) (pass accepted hostIdle)
     = (Returned None, pass accepted hostIdle)
  /\ Status (obj (pass changed hostIdle)) <> Status accepted
  /\ Dws.close (Status accepted) (pass changed hostIdle)
     = (Returned None,
        {| obj := changed; world := after hostIdle [EvStatusUpdate changed] |}).
Proof.
  destruct (close_writes_changes (H:=ops) (Status accepted) (pass accepted hostIdle))
    as [A _].
  destruct (close_writes_changes (H:=ops) (Status accepted) (pass changed hostIdle))
    as [_ B].
  split; [reflexivity|]. split; [exact (A eq_refl)|].
  assert (N : Status (obj (pass changed hostIdle)) <> Status accepted) by discriminate.
  split; [exact N|]. exact (B N).
Defined.

Lemma reconcile_get_failure_witness :
  apiGet request (host (start hostIdle))
  = (inr (ApiError NotFound "not found"), hostIdle)
  /\ Dws.Reconcile request (start hostIdle)
     = (Returned (emptyResult, None), after hostIdle [EvGet request])
  /\ Reconcile (fun existing _ => Dws.close existing) real request (start hostIdle)
     = (Returned (emptyResult, None), after hostIdle [EvGet request]).
Proof.
  split; [reflexivity|].
  destruct (reconcile_get_failure (H:=ops) (fun existing _ => Dws.close existing)
              real request (start hostIdle) (ApiError NotFound "not found") hostIdle
              eq_refl) as (A & B & _).
  split; [exact B|exact A].
Defined.

Lemma Dws_reconcile_writes_reset_witness :
  apiGet request (host (start (holding changed))) = (inl changed, holding changed)
  /\ IsZero (DeletionTimestamp changed) = true
  /\ recordedState changed = Some ClientMountStateMounted
  /\ ClientMountStateMounted <> DesiredState (Spec changed)
  /\ Dws.Reconcile request (start (holding changed))
     = (Returned (emptyResult, None),
        after (holding changed)
          [EvGet request;
           EvStatusUpdate (Dws.resetStatus (createStatus changed))]).
Proof.
  assert (N : ClientMountStateMounted <> DesiredState (Spec changed))
    by discriminate.
  split; [reflexivity|]. split; [reflexivity|]. split; [reflexivity|].
  split; [exact N|].
  exact (proj1 (Dws_reconcile_writes_reset (H:=ops) request (start (holding changed))
                  changed (holding changed) ClientMountStateMounted
                  eq_refl eq_refl eq_refl N)).
Defined.

Lemma status_created_on_length_mismatch_witness :
  IsZero (DeletionTimestamp unsized) = true
  /\ Mounts (Spec unsized) <> []
  /\ length (StatusMounts (Status unsized)) <> length (Mounts (Spec unsized))
  /\ DesiredState (Spec unsized) <> ""
  /\ reconcileBody real (pass unsized hostIdle)
     = (Returned (emptyResult, None),
        pass (setStatusMounts unsized
                [recorded ClientMountStateMounted false "";
                 recorded ClientMountStateMounted false ""]) hostIdle).
Proof.
  assert (A : Mounts (Spec unsized) <> []) by discriminate.
  assert (B : length (StatusMounts (Status unsized))
              <> length (Mounts (Spec unsized))) by discriminate.
  assert (C : DesiredState (Spec unsized) <> "") by discriminate.
  split; [reflexivity|]. split; [exact A|]. split; [exact B|]. split; [exact C|].
  exact (proj1 (status_created_on_length_mismatch (H:=ops) real unsized
                  (start hostIdle) eq_refl A B C)).
Defined.

End MoreScenarios.

(** * The directive parser *)

Section Directives.
Import dwdparse.

(** ** Strings *)

Lemma prefix_spec (p s : string) :
  String.prefix p s = true <-> exists post, s = p +:+ post.
Proof.
  revert s. induction p as [|c p IH]; intros s.
  - split; [intros _; now exists s|intros _; now destruct s].
  - destruct s as [|d s]; cbn [String.prefix].
    + split; [discriminate|]. intros [post E]. rewrite append_String in E.
      discriminate.
    + destruct (ascii_dec c d) as [->|N].
      * rewrite IH. split; intros [post E]; exists post.
        -- rewrite append_String. now f_equal.
        -- rewrite append_String in E. now injection E.
      * split; [discriminate|]. intros [post E]. rewrite append_String in E.
        injection E as E _. congruence.
Qed.

(** [strings.Contains] is the test for a substring. *)
Lemma Contains_spec (s substr : string) :
  Contains s substr = true <-> exists pre post, s = pre +:+ substr +:+ post.
Proof.
  induction s as [|c s IH]; cbn [Contains]; rewrite orb_true_iff, prefix_spec.
  - split.
    + intros [[post E]|?]; [|discriminate]. now exists "", post.
    + intros ([|d pre] & post & E); [left; now exists post|].
      rewrite append_String in E. discriminate.
  - rewrite IH. split.
    + intros [[post E]|(pre & post & E)].
      * now exists "", post.
      * exists (String c pre), post. rewrite append_String. now f_equal.
    + intros ([|d pre] & post & E).
      * left. now exists post.
      * right. rewrite append_String in E. injection E as _ E.
        now exists pre, post.
Qed.

Lemma Split_length (s : string) (c : ascii) :
  length (GoStrings.Split s c) = S (countByte c s).
Proof.
  induction s as [|a s IH]; [reflexivity|]. cbn [GoStrings.Split countByte].
  destruct (Ascii.eqb a c); cbn [length]; [now rewrite IH|].
  destruct (GoStrings.Split s c); cbn [length] in *; lia.
Qed.

Lemma countByte_hasByte (s : string) (c : ascii) :
  countByte c s = 0%nat <-> hasByte c s = false.
Proof.
  induction s as [|a s IH]; [split; reflexivity|]. cbn [countByte hasByte].
  destruct (Ascii.eqb a c); cbn [orb]; [split; [lia|discriminate]|exact IH].
Qed.

Lemma SplitN2_at_first (key value : string) (c : ascii) :
  hasByte c key = false ->
  SplitN2 (key +:+ String c value) c = [key; value].
Proof.
  induction key as [|a key IH]; intros E.
  - rewrite append_empty. cbn [SplitN2]. now rewrite Ascii.eqb_refl.
  - cbn [hasByte] in E. apply orb_false_iff in E as [E1 E2].
    rewrite append_String. cbn [SplitN2]. now rewrite E1, (IH E2).
Qed.

(** ** [BuildArgsMap] *)

(** X22: [BuildArgsMap] reads the first two fields of the directive
    without a check of their number: it panics exactly on a directive
    without fields (empty, or white space only), with an index 0 out of
    range, and on a directive that is [#DW] alone, with an index 1 out of
    range.  A directive whose first field is not [#DW] is an error,
    whatever follows. *)
Theorem BuildArgsMap_head (dwd : string) :
  (GoStrings.Fields dwd = [] <-> BuildArgsMap dwd = Panicked (IndexOutOfRange 0 0))
  /\ (GoStrings.Fields dwd = ["#DW"]
      <-> BuildArgsMap dwd = Panicked (IndexOutOfRange 1 1))
  /\ ((exists q, BuildArgsMap dwd = Panicked q) ->
      GoStrings.Fields dwd = [] \/ GoStrings.Fields dwd = ["#DW"])
  /\ (forall first rest,
        GoStrings.Fields dwd = first :: rest -> first <> "#DW" ->
        BuildArgsMap dwd = Returned (inr (errorsNew "Missing #DW in directive"))).
Proof.
  unfold BuildArgsMap. destruct (GoStrings.Fields dwd) as [|first [|cmd args]];
    cbn [lookup list_lookup length];
    [|destruct (String.eqb_spec first "#DW") as [->|N]
     |destruct (String.eqb_spec first "#DW") as [->|N];
      [destruct (Contains validCommands cmd)|]];
    repeat split; intros;
    repeat match goal with H : exists _, _ |- _ => destruct H end;
    try discriminate; try congruence; auto.
Qed.

Lemma argsLoop_error (args : list string) (m : gmap string string) (e : GoError) :
  argsLoop args m = inr e ->
  exists arg, In arg args /\ e = errorsNew ("Malformed keyword[=value]: " +:+ arg).
Proof.
  revert m. induction args as [|a args IH]; intros m; cbn [argsLoop];
    [discriminate|].
  assert (forall m', argsLoop args m' = inr e ->
            exists arg, In arg (a :: args)
                        /\ e = errorsNew ("Malformed keyword[=value]: " +:+ arg))
    as K by (intros m' A; destruct (IH m' A) as (arg & I & ->); exists arg;
             split; [now right|reflexivity]).
  repeat destruct (_ =? _)%nat; try apply K.
  destruct (Contains argsWithPath _); [apply K|].
  intros [= <-]. exists a. split; [now left|reflexivity].
Qed.

Lemma BuildArgsMap_accepted (dwd cmd : string) (args : list string) :
  GoStrings.Fields dwd = "#DW" :: cmd :: args ->
  Contains validCommands cmd = true ->
  BuildArgsMap dwd = Returned (argsLoop args (<["command" := cmd]> ∅)).
Proof.
  intros E A. unfold BuildArgsMap. rewrite E. cbn [lookup list_lookup].
  change (String.eqb "#DW" "#DW") with true. cbv iota. now rewrite A.
Qed.

Lemma BuildArgsMap_panic_cases (dwd : string) (q : PanicReason) :
  BuildArgsMap dwd = Panicked q ->
  GoStrings.Fields dwd = [] /\ q = IndexOutOfRange 0 0
  \/ GoStrings.Fields dwd = ["#DW"] /\ q = IndexOutOfRange 1 1.
Proof.
  unfold BuildArgsMap. destruct (GoStrings.Fields dwd) as [|first [|cmd args]];
    cbn [lookup list_lookup length].
  - intros [= <-]. now left.
  - destruct (String.eqb_spec first "#DW") as [->|N]; [|discriminate].
    intros [= <-]. now right.
  - destruct (String.eqb first "#DW"); [|discriminate].
    destruct (Contains validCommands cmd); discriminate.
Qed.

(** X23: the command of a directive is accepted exactly when it occurs
    somewhere in the string of valid commands, as a substring: part of a
    command name is accepted as well as a name. *)
Theorem BuildArgsMap_command (dwd cmd : string) (args : list string) :
  GoStrings.Fields dwd = "#DW" :: cmd :: args ->
  (BuildArgsMap dwd = Returned (inr (errorsNew ("Unsupported #DW command " +:+ cmd)))
   <-> ~ exists pre post, validCommands = pre +:+ cmd +:+ post)
  /\ ((exists pre post, validCommands = pre +:+ cmd +:+ post) ->
      BuildArgsMap dwd = Returned (argsLoop args (<["command" := cmd]> ∅))).
Proof.
  intros E. rewrite <- Contains_spec.
  destruct (Contains validCommands cmd) eqn:Ec.
  - rewrite (BuildArgsMap_accepted _ _ _ E Ec). split; [|reflexivity].
    split; [|intros N; now contradiction N].
    intros [= A]. apply argsLoop_error in A as (arg & _ & A). discriminate A.
  - unfold BuildArgsMap. rewrite E. cbn [lookup list_lookup].
    change (String.eqb "#DW" "#DW") with true. cbv iota. rewrite Ec.
    split; [|discriminate]. split; [discriminate|reflexivity].
Qed.

Lemma argsLoop_simple (arg : string) (rest : list string) (m : gmap string string) :
  simpleArg arg = true ->
  argsLoop (arg :: rest) m
  = argsLoop rest (<[fst (argPair arg) := snd (argPair arg)]> m).
Proof.
  unfold simpleArg. intros S%Nat.leb_le. cbn [argsLoop]. unfold argPair.
  pose proof (Split_length arg "=") as L.
  destruct (GoStrings.Split arg "=") as [|k [|v [|x l]]]; cbn [length] in L;
    try lia; reflexivity.
Qed.

Lemma argsLoop_lookup (args : list string) (m : gmap string string) :
  forallb simpleArg args = true ->
  exists m', argsLoop args m = inl m'
             /\ forall k, m' !! k = valueOf k args (m !! k).
Proof.
  revert m. induction args as [|a args IH]; intros m A.
  - exists m. split; reflexivity.
  - cbn [forallb] in A. apply andb_true_iff in A as [A1 A2].
    rewrite (argsLoop_simple _ _ _ A1).
    destruct (IH (<[fst (argPair a) := snd (argPair a)]> m) A2) as (m' & E & L).
    exists m'. split; [exact E|]. intros k. rewrite L. cbn [valueOf]. f_equal.
    destruct (String.eqb_spec (fst (argPair a)) k) as [->|N].
    + apply lookup_insert_eq.
    + now apply lookup_insert_ne.
Qed.

Lemma valueOf_app (k : string) (before after : list string) (current : option string) :
  valueOf k (before ++ after) current = valueOf k after (valueOf k before current).
Proof.
  revert current. induction before as [|a before IH]; intros current;
    [reflexivity|]. cbn [app valueOf]. apply IH.
Qed.

Lemma forallb_simple_app (before after : list string) :
  forallb simpleArg (before ++ after) = true
  <-> forallb simpleArg before = true /\ forallb simpleArg after = true.
Proof. rewrite forallb_app. apply andb_true_iff. Qed.

(** X24: for a directive with an accepted command whose arguments each
    hold at most one [=], [BuildArgsMap] returns a map in which every key
    has the value of the last argument that names it ([true] for a bare
    keyword); the key [command] has the command unless an argument is named
    [command], which then replaces it; and no other key is present. *)
Theorem BuildArgsMap_arguments (dwd cmd : string) (args : list string) :
  GoStrings.Fields dwd = "#DW" :: cmd :: args ->
  Contains validCommands cmd = true ->
  forallb simpleArg args = true ->
  exists m,
    BuildArgsMap dwd = Returned (inl m)
    /\ (forall k, m !! k
                  = valueOf k args (if String.eqb k "command" then Some cmd else None))
    /\ (forall before arg,
          args = before ++ [arg] -> m !! fst (argPair arg) = Some (snd (argPair arg)))
    /\ (forall k, k <> "command" ->
          (forall arg, In arg args -> fst (argPair arg) <> k) -> m !! k = None)
    /\ ((forall arg, In arg args -> fst (argPair arg) <> "command") ->
        m !! "command" = Some cmd).
Proof.
  intros E A S. rewrite (BuildArgsMap_accepted _ _ _ E A).
  destruct (argsLoop_lookup args (<["command" := cmd]> ∅) S) as (m & -> & L).
  assert (forall k, m !! k
                    = valueOf k args (if String.eqb k "command" then Some cmd else None))
    as L'.
  { intros k. rewrite L. f_equal. destruct (String.eqb_spec k "command") as [->|N].
    - apply lookup_insert_eq.
    - rewrite lookup_insert_ne by congruence. apply lookup_empty. }
  assert (forall k current, (forall arg, In arg args -> fst (argPair arg) <> k) ->
            valueOf k args current = current) as Keep.
  { intros k. clear. induction args as [|a args IH]; intros current N;
      [reflexivity|]. cbn [valueOf].
    destruct (String.eqb_spec (fst (argPair a)) k) as [Ek|_].
    - exfalso. apply (N a); [now left|exact Ek].
    - apply IH. intros arg I. apply N. now right. }
  exists m. split; [reflexivity|]. split; [exact L'|]. split; [|split].
  - intros before arg ->. rewrite L', valueOf_app. cbn [valueOf].
    now rewrite String.eqb_refl.
  - intros k N None. rewrite L', (Keep _ _ None).
    now destruct (String.eqb_spec k "command").
  - intros None. now rewrite L', (Keep _ _ None).
Qed.

Lemma argsLoop_app_simple (before after : list string) (m : gmap string string) :
  forallb simpleArg before = true ->
  exists m', argsLoop (before ++ after) m = argsLoop after m'
             /\ forall k, m' !! k = valueOf k before (m !! k).
Proof.
  revert m. induction before as [|a before IH]; intros m A.
  - exists m. split; reflexivity.
  - cbn [forallb] in A. apply andb_true_iff in A as [A1 A2].
    cbn [app]. rewrite (argsLoop_simple _ _ _ A1).
    destruct (IH (<[fst (argPair a) := snd (argPair a)]> m) A2) as (m' & E & L).
    exists m'. split; [exact E|]. intros k. rewrite L. cbn [valueOf]. f_equal.
    destruct (String.eqb_spec (fst (argPair a)) k) as [->|N].
    + apply lookup_insert_eq.
    + now apply lookup_insert_ne.
Qed.

Lemma Split_three (key value : string) :
  hasByte "=" key = false -> hasByte "=" value = true ->
  exists v rest, GoStrings.Split (key +:+ String "=" value) "=" = key :: v :: rest
                 /\ rest <> [].
Proof.
  intros K V. rewrite (Split_plain_app _ _ _ K).
  pose proof (Split_length value "=") as L.
  assert (countByte "=" value <> 0)%nat as N
    by (rewrite countByte_hasByte; congruence).
  destruct (GoStrings.Split value "=") as [|v [|x rest]]; cbn [length] in L;
    try lia.
  now exists v, (x :: rest).
Qed.

Lemma argsLoop_path (key value : string) (rest : list string)
    (m : gmap string string) :
  hasByte "=" key = false -> hasByte "=" value = true ->
  argsLoop ((key +:+ String "=" value) :: rest) m
  = if Contains argsWithPath key then argsLoop rest (<[key := value]> m)
    else inr (errorsNew ("Malformed keyword[=value]: " +:+ key +:+ String "=" value)).
Proof.
  intros K V. cbn [argsLoop].
  destruct (Split_three _ _ K V) as (v & more & -> & N).
  destruct more as [|x more]; [contradiction|]. cbn [length Nat.eqb nth].
  now rewrite (SplitN2_at_first _ _ _ K).
Qed.

(** X25: an argument [key=value] whose value holds a further [=] is
    refused unless its key occurs in the string [source destination]: the
    first such argument, after arguments with at most one [=], makes
    [BuildArgsMap] return the error that names it, whatever follows. *)
Theorem BuildArgsMap_malformed (dwd cmd key value : string)
    (before rest : list string) :
  GoStrings.Fields dwd = "#DW" :: cmd :: before ++ (key +:+ String "=" value) :: rest ->
  Contains validCommands cmd = true ->
  forallb simpleArg before = true ->
  hasByte "=" key = false -> hasByte "=" value = true ->
  Contains argsWithPath key = false ->
  BuildArgsMap dwd
  = Returned (inr (errorsNew ("Malformed keyword[=value]: "
                              +:+ key +:+ String "=" value))).
Proof.
  intros E A S K V P. rewrite (BuildArgsMap_accepted _ _ _ E A).
  destruct (argsLoop_app_simple before ((key +:+ String "=" value) :: rest)
              (<["command" := cmd]> ∅) S) as (m & -> & _).
  now rewrite (argsLoop_path _ _ _ _ K V), P.
Qed.

(** X26: an argument [key=value] whose key holds no [=] and occurs in the
    string [source destination] (as [source], [destination], or a part of
    them) keeps as its value all the text after the first [=], with the
    further [=] in it. *)
Theorem BuildArgsMap_path_value (dwd cmd key value : string) (before : list string) :
  GoStrings.Fields dwd = "#DW" :: cmd :: before ++ [key +:+ String "=" value] ->
  Contains validCommands cmd = true ->
  forallb simpleArg before = true ->
  hasByte "=" key = false -> hasByte "=" value = true ->
  (exists pre post, argsWithPath = pre +:+ key +:+ post) ->
  exists m,
    BuildArgsMap dwd = Returned (inl m)
    /\ m !! key = Some value
    /\ forall k, k <> key ->
         m !! k = valueOf k before (if String.eqb k "command" then Some cmd else None).
Proof.
  intros E A S K V P%Contains_spec. rewrite (BuildArgsMap_accepted _ _ _ E A).
  destruct (argsLoop_app_simple before [key +:+ String "=" value]
              (<["command" := cmd]> ∅) S) as (m & -> & L).
  rewrite (argsLoop_path _ _ _ _ K V), P. cbn [argsLoop].
  exists (<[key := value]> m). split; [reflexivity|]. split.
  - apply lookup_insert_eq.
  - intros k N. rewrite lookup_insert_ne by congruence. rewrite L. f_equal.
    destruct (String.eqb_spec k "command") as [->|N'].
    + apply lookup_insert_eq.
    + rewrite lookup_insert_ne by congruence. apply lookup_empty.
Qed.

(** ** [BuildRulesMap] *)

Lemma insertDefs_app (defs more : list DWDirectiveRuleDef)
    (m : gmap string DWDirectiveRuleDef) :
  insertDefs (defs ++ more) m = insertDefs more (insertDefs defs m).
Proof.
  revert m. induction defs as [|rd defs IH]; intros m; [reflexivity|].
  cbn [app insertDefs]. apply IH.
Qed.

Lemma rulesLoop_matchingDefs (rules : list DWDirectiveRuleSpec) (cmd : string)
    (m : gmap string DWDirectiveRuleDef) :
  rulesLoop rules cmd m = insertDefs (matchingDefs rules cmd) m.
Proof.
  revert m. induction rules as [|r rules IH]; intros m; [reflexivity|].
  cbn [rulesLoop]. unfold matchingDefs. cbn [flat_map]. fold (matchingDefs rules cmd).
  rewrite insertDefs_app, IH. now destruct (String.eqb cmd (Command r)).
Qed.

Lemma insertDefs_other (defs : list DWDirectiveRuleDef)
    (m : gmap string DWDirectiveRuleDef) (k : string) :
  Forall (fun x => Key x <> k) defs -> insertDefs defs m !! k = m !! k.
Proof.
  revert m. induction defs as [|rd defs IH]; intros m F; [reflexivity|].
  cbn [insertDefs]. apply Forall_cons in F as [F1 F2]. rewrite (IH _ F2).
  now apply lookup_insert_ne.
Qed.

Lemma insertDefs_origin (defs : list DWDirectiveRuleDef)
    (m : gmap string DWDirectiveRuleDef) (k : string) (rd : DWDirectiveRuleDef) :
  insertDefs defs m !! k = Some rd -> (In rd defs /\ Key rd = k) \/ m !! k = Some rd.
Proof.
  revert m. induction defs as [|x defs IH]; intros m E; [now right|].
  cbn [insertDefs] in E. destruct (IH _ E) as [[I K]|L].
  - left. split; [now right|exact K].
  - destruct (decide (Key x = k)) as [<-|N].
    + rewrite lookup_insert_eq in L. injection L as <-. left. split; [now left|reflexivity].
    + rewrite lookup_insert_ne in L by exact N. now right.
Qed.

Lemma insertDefs_keeps (defs : list DWDirectiveRuleDef)
    (m : gmap string DWDirectiveRuleDef) (k : string) :
  m !! k <> None -> insertDefs defs m !! k <> None.
Proof.
  revert m. induction defs as [|x defs IH]; intros m I; cbn [insertDefs];
    [exact I|].
  apply IH. destruct (decide (Key x = k)) as [<-|N].
  - rewrite lookup_insert_eq. discriminate.
  - now rewrite lookup_insert_ne.
Qed.

(** X27: [BuildRulesMap] collects the rule definitions of every rule
    whose command is the given one, a later definition replacing an earlier
    one with the same key; it returns the error exactly when there is no
    such definition, so that a command whose rules define no argument is
    reported as unsupported. *)
Theorem BuildRulesMap_spec (rules : list DWDirectiveRuleSpec) (cmd : string) :
  (BuildRulesMap rules cmd = inr (errorsNew ("Unsupported #DW command - " +:+ cmd))
   <-> matchingDefs rules cmd = [])
  /\ (forall e, BuildRulesMap rules cmd = inr e ->
        e = errorsNew ("Unsupported #DW command - " +:+ cmd))
  /\ (forall m, BuildRulesMap rules cmd = inl m ->
        (forall k rd, m !! k = Some rd -> Key rd = k /\ In rd (matchingDefs rules cmd))
        /\ (forall pre rd post,
              matchingDefs rules cmd = pre ++ rd :: post ->
              Forall (fun x => Key x <> Key rd) post ->
              m !! Key rd = Some rd)).
Proof.
  unfold BuildRulesMap. rewrite rulesLoop_matchingDefs.
  destruct (Nat.eqb_spec (size (insertDefs (matchingDefs rules cmd) ∅)) 0) as [Z|N].
  - apply map_size_empty_iff in Z.
    assert (matchingDefs rules cmd = []) as ->.
    { destruct (matchingDefs rules cmd) as [|rd defs] eqn:D; [reflexivity|].
      exfalso. cbn [insertDefs] in Z.
      assert (insertDefs defs (<[Key rd := rd]> ∅) !! Key rd <> None) as S.
      { apply insertDefs_keeps. rewrite lookup_insert_eq. discriminate. }
      apply S. rewrite Z. apply lookup_empty. }
    repeat split; try discriminate. now intros e [= <-].
  - split; [|split].
    + split; [discriminate|]. intros D. rewrite D in N. cbn [insertDefs] in N.
      now rewrite map_size_empty in N.
    + discriminate.
    + intros m [= <-]. split.
      * intros k rd L. destruct (insertDefs_origin _ _ _ _ L) as [[I K]|L'].
        -- now split.
        -- now rewrite lookup_empty in L'.
      * intros pre rd post -> F. rewrite insertDefs_app. cbn [insertDefs].
        rewrite (insertDefs_other _ _ _ F). apply lookup_insert_eq.
Qed.

(** ** [ValidateArgs] *)

Section Validation.

Variable MatchString : string -> string -> bool * option GoError.

Lemma validateLoop_None (rulesMap : gmap string DWDirectiveRuleDef)
    (entries : list (string * string)) :
  validateLoop MatchString rulesMap entries = None
  <-> forall k v, In (k, v) entries -> checkEntry MatchString rulesMap k v = None.
Proof.
  induction entries as [|[k v] entries IH]; cbn [validateLoop].
  - split; [intros _ k v []|reflexivity].
  - destruct (checkEntry MatchString rulesMap k v) eqn:C.
    + split; [discriminate|]. intros A. rewrite <- C. apply A. now left.
    + rewrite IH. split.
      * intros A k' v' [[= <- <-]|I]; [exact C|now apply A].
      * intros A k' v' I. apply A. now right.
Qed.

Lemma validateLoop_Some (rulesMap : gmap string DWDirectiveRuleDef)
    (entries : list (string * string)) (e : GoError) :
  validateLoop MatchString rulesMap entries = Some e ->
  exists k v, In (k, v) entries /\ checkEntry MatchString rulesMap k v = Some e.
Proof.
  induction entries as [|[k v] entries IH]; cbn [validateLoop]; [discriminate|].
  destruct (checkEntry MatchString rulesMap k v) eqn:C.
  - intros [= <-]. exists k, v. split; [now left|exact C].
  - intros A. destruct (IH A) as (k' & v' & I & C'). exists k', v'.
    split; [now right|exact C'].
Qed.

Lemma In_entries (entries : list (string * string)) (args : gmap string string)
    (k v : string) :
  entries ≡ₚ map_to_list args -> (In (k, v) entries <-> args !! k = Some v).
Proof.
  intros P. rewrite <- list_elem_of_In, P. apply elem_of_map_to_list.
Qed.

(** X28: the result of [ValidateArgs] is nil exactly when the rules of
    the command (the value of [command] in the map, the empty string when
    there is none) define at least one argument and every entry of the map
    other than [command] has a rule of its key that its value satisfies:
    this holds in whatever order the [range] yields the entries of the
    map.  An error returned is the error of the rules map or that of one
    of the entries. *)
Theorem ValidateArgs_any_order (entries : list (string * string))
    (args : gmap string string) (rules : list DWDirectiveRuleSpec) :
  entries ≡ₚ map_to_list args ->
  (ValidateArgs MatchString entries args rules = None
   <-> exists rulesMap,
         BuildRulesMap rules (default "" (args !! "command")) = inl rulesMap
         /\ forall k v, args !! k = Some v ->
              checkEntry MatchString rulesMap k v = None)
  /\ (forall e, ValidateArgs MatchString entries args rules = Some e ->
        BuildRulesMap rules (default "" (args !! "command")) = inr e
        \/ exists rulesMap k v,
             BuildRulesMap rules (default "" (args !! "command")) = inl rulesMap
             /\ args !! k = Some v
             /\ checkEntry MatchString rulesMap k v = Some e).
Proof.
  intros P. unfold ValidateArgs.
  destruct (BuildRulesMap rules (default "" (args !! "command"))) as [rulesMap|e0].
  - split.
    + rewrite validateLoop_None. split.
      * intros A. exists rulesMap. split; [reflexivity|]. intros k v L.
        apply A. now apply (In_entries _ _ _ _ P).
      * intros (rm & [= <-] & A) k v I. apply A. now apply (In_entries _ _ _ _ P).
    + intros e A. right. destruct (validateLoop_Some _ _ _ A) as (k & v & I & C).
      exists rulesMap, k, v. split; [reflexivity|]. split; [|exact C].
      now apply (In_entries _ _ _ _ P).
  - split.
    + split; [discriminate|]. intros (rm & E & _). discriminate.
    + intros e [= <-]. now left.
Qed.

(** X29: an integer rule accepts a value exactly when it is a decimal
    integer in the range of [int] that respects the bounds, where a bound
    of 0 is no bound: a rule cannot ask for a maximum or a minimum of 0. *)
Theorem checkArg_integer (rule : DWDirectiveRuleDef) (k v : string) :
  RuleType rule = "integer" ->
  (checkArg MatchString rule k v = None
   <-> exists i, Atoi v = Some i
                 /\ (Max rule = 0 \/ i <= Max rule)%Z
                 /\ (Min rule = 0 \/ Min rule <= i)%Z).
Proof.
  intros T. unfold checkArg. rewrite T. change (String.eqb "integer" "integer") with true.
  cbv iota. destruct (Atoi v) as [i|].
  - destruct (Z.eqb_spec (Max rule) 0) as [M0|M0]; cbn [negb andb].
    + destruct (Z.eqb_spec (Min rule) 0) as [N0|N0]; cbn [negb andb].
      * split; [|reflexivity]. intros _. exists i. auto.
      * destruct (Z.ltb_spec i (Min rule)).
        -- split; [discriminate|]. intros (j & [= <-] & _ & [?|?]); [contradiction|lia].
        -- split; [|reflexivity]. intros _. exists i.
           split; [reflexivity|]. split; [now left|now right].
    + destruct (Z.ltb_spec (Max rule) i).
      * split; [discriminate|]. intros (j & [= <-] & [?|?] & _); [contradiction|lia].
      * destruct (Z.eqb_spec (Min rule) 0) as [N0|N0]; cbn [negb andb].
        -- split; [|reflexivity]. intros _. exists i.
           split; [reflexivity|]. split; [now right|now left].
        -- destruct (Z.ltb_spec i (Min rule)).
           ++ split; [discriminate|].
              intros (j & [= <-] & _ & [?|?]); [contradiction|lia].
           ++ split; [|reflexivity]. intros _. exists i.
              split; [reflexivity|]. split; now right.
  - split; [discriminate|]. intros (i & E & _). discriminate.
Qed.

End Validation.

(** ** [ValidateDWDirectives] *)

Section AllDirectives.

Variable MatchString : string -> string -> bool * option GoError.
Variable GetParserRules : string -> string -> list DWDirectiveRuleSpec + GoError.
Variable rangeOf : nat -> gmap string string -> list (string * string).
Hypothesis rangeOf_entries : forall i m, rangeOf i m ≡ₚ map_to_list m.

Lemma directivesLoop_nil (i : nat) (rules : list DWDirectiveRuleSpec)
    (directives : list string) :
  directivesLoop MatchString rangeOf i rules directives = Returned None
  <-> Forall (validDirective MatchString rules) directives.
Proof.
  revert i. induction directives as [|dwd rest IH]; intros i; cbn [directivesLoop].
  - split; [constructor|reflexivity].
  - rewrite Forall_cons. unfold validDirective at 1.
    destruct (BuildArgsMap dwd) as [[m|e]|q].
    + pose proof (ValidateArgs_any_order MatchString _ m rules (rangeOf_entries i m))
        as [V _].
      destruct (ValidateArgs MatchString (rangeOf i m) m rules) as [e|].
      * split; [discriminate|]. intros [(m' & rm & [= <-] & B & C) _].
        assert (Some e = None) as X by (apply V; eauto). discriminate.
      * rewrite IH. split; [|now intros [_ F]]. intros F. split; [|exact F].
        destruct V as [V _]. destruct (V eq_refl) as (rm & B & C).
        now exists m, rm.
    + split; [discriminate|]. intros [(m' & rm & [=] & _) _].
    + split; [discriminate|]. intros [(m' & rm & [=] & _) _].
Qed.

Lemma directivesLoop_panics (i : nat) (rules : list DWDirectiveRuleSpec)
    (directives : list string) (q : PanicReason) :
  directivesLoop MatchString rangeOf i rules directives = Panicked q
  <-> exists before dwd after,
        directives = before ++ dwd :: after
        /\ Forall (validDirective MatchString rules) before
        /\ BuildArgsMap dwd = Panicked q.
Proof.
  revert i. induction directives as [|dwd rest IH]; intros i.
  - cbn [directivesLoop]. split; [discriminate|].
    intros ([|] & ? & ? & [=] & _).
  - split.
    + cbn [directivesLoop]. destruct (BuildArgsMap dwd) as [[m|e]|q'] eqn:B.
      * pose proof (directivesLoop_nil i rules [dwd]) as One.
        cbn [directivesLoop] in One. rewrite B in One.
        destruct (ValidateArgs MatchString (rangeOf i m) m rules) as [e|];
          [discriminate|].
        intros (before & d & after & -> & F & P)%IH.
        exists (dwd :: before), d, after. split; [reflexivity|]. split; [|exact P].
        constructor; [|exact F]. destruct One as [One _].
        pose proof (One eq_refl) as V. now apply Forall_cons in V as [V _].
      * discriminate.
      * intros [= ->]. exists [], dwd, rest. split; [reflexivity|].
        split; [constructor|exact B].
    + intros ([|d before] & d' & after & E & F & P).
      * injection E as <- <-. cbn [directivesLoop]. now rewrite P.
      * injection E as <- ->. apply Forall_cons in F as [F1 F2].
        pose proof (directivesLoop_nil i rules [dwd]) as One.
        cbn [directivesLoop] in *. destruct F1 as (m & rm & B & R & C).
        rewrite B in *.
        destruct (ValidateArgs MatchString (rangeOf i m) m rules) as [e|].
        -- assert (Returned (Some e) = Returned (A:=option GoError) None) as X.
           { apply One. constructor; [|constructor]. now exists m, rm. }
           discriminate.
        -- apply IH. now exists before, d', after.
Qed.

(** X30: [ValidateDWDirectives] returns the error of [GetParserRules]
    before it reads a directive.  With a rule set, it returns nil exactly
    when every directive is valid, and it panics exactly when a directive
    without a command (no field at all, or [#DW] alone) comes after valid
    directives only: an invalid directive before it makes the function
    return the error instead. *)
Theorem ValidateDWDirectives_spec (directives : list string)
    (ruleSetName namespace : string) :
  (forall err, GetParserRules ruleSetName namespace = inr err ->
     ValidateDWDirectives MatchString GetParserRules rangeOf
       directives ruleSetName namespace = Returned (Some err))
  /\ (forall rules, GetParserRules ruleSetName namespace = inl rules ->
       (ValidateDWDirectives MatchString GetParserRules rangeOf
          directives ruleSetName namespace = Returned None
        <-> Forall (validDirective MatchString rules) directives)
       /\ (forall q,
             ValidateDWDirectives MatchString GetParserRules rangeOf
               directives ruleSetName namespace = Panicked q
             <-> exists before dwd after,
                   directives = before ++ dwd :: after
                   /\ Forall (validDirective MatchString rules) before
                   /\ (GoStrings.Fields dwd = [] /\ q = IndexOutOfRange 0 0
                       \/ GoStrings.Fields dwd = ["#DW"] /\ q = IndexOutOfRange 1 1))).
Proof.
  unfold ValidateDWDirectives. split.
  - now intros err ->.
  - intros rules ->. split; [apply directivesLoop_nil|]. intros q.
    rewrite directivesLoop_panics. split.
    + intros (before & dwd & after & E & F & P).
      exists before, dwd, after. split; [exact E|]. split; [exact F|].
      destruct (BuildArgsMap_panic_cases dwd q P) as [[A B]|[A B]]; auto.
    + intros (before & dwd & after & E & F & [[A ->]|[A ->]]);
        exists before, dwd, after; (split; [exact E|]); (split; [exact F|]);
        unfold BuildArgsMap; rewrite A; reflexivity.
Qed.

End AllDirectives.

End Directives.

(** ** Directives at work *)

Section DirectiveScenarios.
Import dwdparse.

Lemma BuildArgsMap_command_witness :
  GoStrings.Fields "#DW stage" = ["#DW"; "stage"]
  /\ BuildArgsMap "#DW stage" = Returned (inl (<["command" := "stage"]> ∅)).
Proof.
  split; [reflexivity|].
  apply (proj2 (BuildArgsMap_command "#DW stage" "stage" [] eq_refl)).
  exists "jobdw persistentdw ",
         "_in stage-in stage_out stage-out create_persistent destroy_persistent".
  reflexivity.
Defined.

Lemma BuildArgsMap_arguments_witness :
  exists m,
    BuildArgsMap "#DW jobdw type=xfs flag type=lustre command=other" = Returned (inl m)
    /\ m !! "type" = Some "lustre"
    /\ m !! "flag" = Some "true"
    /\ m !! "command" = Some "other"
    /\ m !! "name" = None.
Proof.
  destruct (BuildArgsMap_arguments
              "#DW jobdw type=xfs flag type=lustre command=other" "jobdw"
              ["type=xfs"; "flag"; "type=lustre"; "command=other"]
              eq_refl eq_refl eq_refl) as (m & E & L & _).
  exists m. split; [exact E|]. rewrite !L. repeat split; reflexivity.
Defined.

Lemma BuildArgsMap_malformed_witness :
  BuildArgsMap "#DW jobdw type=xfs name=a=b capacity=1"
  = Returned (inr (errorsNew "Malformed keyword[=value]: name=a=b")).
Proof.
  exact (BuildArgsMap_malformed "#DW jobdw type=xfs name=a=b capacity=1"
           "jobdw" "name" "a=b" ["type=xfs"] ["capacity=1"]
           eq_refl eq_refl eq_refl eq_refl eq_refl eq_refl).
Defined.

Lemma BuildArgsMap_path_value_witness :
  exists m,
    BuildArgsMap "#DW stage_in type=file dest=/p=q" = Returned (inl m)
    /\ m !! "dest" = Some "/p=q".
Proof.
  destruct (BuildArgsMap_path_value "#DW stage_in type=file dest=/p=q"
              "stage_in" "dest" "/p=q" ["type=file"]
              eq_refl eq_refl eq_refl eq_refl eq_refl) as (m & E & L & _).
  - exists "source ", "ination". reflexivity.
  - exists m. split; [exact E|exact L].
Defined.

Lemma ValidateArgs_any_order_witness :
  ValidateArgs anyMatch (map_to_list (<["capacity" := "10"]> (<["command" := "jobdw"]> ∅)))
    (<["capacity" := "10"]> (<["command" := "jobdw"]> ∅)) needsCapacity = None
  <-> exists rulesMap,
        BuildRulesMap needsCapacity
          (default "" ((<["capacity" := "10"]> (<["command" := "jobdw"]> ∅)
                        : gmap string string) !! "command")) = inl rulesMap
        /\ forall k v,
             (<["capacity" := "10"]> (<["command" := "jobdw"]> ∅)
              : gmap string string) !! k = Some v ->
             checkEntry anyMatch rulesMap k v = None.
Proof.
  apply (ValidateArgs_any_order anyMatch
           (map_to_list (<["capacity" := "10"]> (<["command" := "jobdw"]> ∅)))
           (<["capacity" := "10"]> (<["command" := "jobdw"]> ∅)) needsCapacity).
  reflexivity.
Defined.

Lemma checkArg_integer_witness :
  checkArg anyMatch unboundedAbove "capacity" "100" = None.
Proof.
  apply (proj2 (checkArg_integer anyMatch unboundedAbove "capacity" "100" eq_refl)).
  exists 100%Z. split; [reflexivity|]. split; [left; reflexivity|right; simpl; lia].
Defined.

Lemma ValidateDWDirectives_spec_witness :
  ValidateDWDirectives anyMatch (fun _ _ => inl needsCapacity)
    (fun _ m => map_to_list m) ["#DW"] "rules" "default"
  = Panicked (IndexOutOfRange 1 1).
Proof.
  apply (proj2 (ValidateDWDirectives_spec anyMatch (fun _ _ => inl needsCapacity)
                  (fun _ m => map_to_list m) (fun _ _ => reflexivity _)
                  ["#DW"] "rules" "default") needsCapacity eq_refl).
  exists [], "#DW", []. split; [reflexivity|]. split; [constructor|].
  right. split; reflexivity.
Defined.

End DirectiveScenarios.
